(** * DSA Master AI: the session store, the incremental session builder
      and the remote-provider facade

    A shallow embedding of [src/App.tsx] (the React handlers that own the
    practice session) and of [src/geminiService.ts] (the facade in front of
    the generative-model client), followed by the properties of the
    specification that concern them.

    Conventions of the embedding.
    - A JavaScript object used as a dictionary is a [gmap]; the spread
      [{...m, [k]: v}] is [<[k:=v]> m].
    - [number] values that index arrays are [Z].
    - A value that may be [null] or [undefined] is an [option].
    - A call that may throw (or a promise that may reject) evaluates to an
      [Outcome]; the module-level state of the facade ([aiInstance]) and the
      list of requests sent to the remote provider are threaded explicitly.
    - The remote provider is outside the program: every operation receives,
      as an argument, the [Reply] the provider gives to the request that the
      operation may issue. *)

From stdpp Require Import gmap strings list sorting.
From Stdlib Require Import ZArith Ascii.

Local Open Scope string_scope.
Local Open Scope list_scope.
Local Open Scope Z_scope.

(** ** Data model ([types.ts]) *)

Inductive Language := java | cpp | python | javascript.

#[global] Instance Language_eq_dec : EqDecision Language.
Proof. solve_decision. Defined.

#[global] Instance Language_countable : Countable Language.
Proof.
  refine (inj_countable'
            (fun l => match l with
                      | java => 0%nat | cpp => 1%nat
                      | python => 2%nat | javascript => 3%nat
                      end)
            (fun n => match n with
                      | 0%nat => java | 1%nat => cpp
                      | 2%nat => python | _ => javascript
                      end) _).
  by intros [].
Defined.

Definition all_languages : list Language := [java; cpp; python; javascript].

Inductive Difficulty := Easy | Medium | Hard.

Record Example := {
  input : string;
  output : string;
  explanation : option string
}.

Record Approach := {
  name : string;
  description : string;
  complexity_time : string;
  complexity_space : string;
  code : string
}.

Module Question.
Record t := {
  id : string;
  title : string;
  difficulty : Difficulty;
  topic : string;
  description : string;
  constraints : list string;
  examples : list Example;
  starterCode : gmap Language string;
  solution_approaches : list Approach;
  hints : list string
}.
End Question.

Module TestSession.
Record t := {
  id : string;
  questions : list Question.t;
  currentQuestionIndex : Z;
  userCodes : gmap string (gmap Language string);
  language : Language
}.
End TestSession.

(** [Record<Language, string>]: the declared type of [starterCode] and of
    every entry of [userCodes] promises a buffer for each language. *)
Definition all_four (m : gmap Language string) : Prop :=
  forall l : Language, is_Some (m !! l).

(** [a[i]] for a JavaScript array and a number: [undefined] out of range. *)
Definition at_index {A} (a : list A) (i : Z) : option A :=
  if decide (0 <= i) then a !! Z.to_nat i else None.

(** [a.length] *)
Definition len {A} (a : list A) : Z := Z.of_nat (length a).

(** ** Exceptions and completions *)

Inductive Exn :=
| Error (message : string)
| SyntaxError (message : string)
| TypeError (message : string)
| NonError.   (* a thrown value that has no [message] property *)

(** [err.message] *)
Definition message_of (e : Exn) : option string :=
  match e with
  | Error m | SyntaxError m | TypeError m => Some m
  | NonError => None
  end.

Inductive Outcome (A : Type) :=
| Returns (a : A)
| Throws (e : Exn).
Arguments Returns {A} a.
Arguments Throws {A} e.

(** Truthiness of a possibly absent string: [undefined], [null] and the
    empty string are falsy. *)
Definition truthy (s : option string) : bool :=
  match s with
  | Some s => negb (String.eqb s "")
  | None => false
  end.

(** [a || b] on possibly absent strings. *)
Definition or_else (a b : option string) : option string :=
  if truthy a then a else b.

(** [a || "literal"] *)
Definition or_default (a : option string) (d : string) : string :=
  match a with
  | Some s => if truthy a then s else d
  | None => d
  end.

(** ** The remote provider, seen from the program *)

(** What [await ...generateContent(...)] evaluates to. [text] is the
    [response.text] getter. [JSON_parse_text] is the completion of
    [JSON.parse(response.text)], which belongs to the JavaScript runtime and
    not to the program: a [SyntaxError] for malformed text, and otherwise a
    value that the operation's return annotation types as [A] without
    checking it (the annotation is taken at its word). *)
Record GenerateContentResponse (A : Type) := {
  text : option string;
  JSON_parse_text : Outcome A
}.
Arguments text {A} _.
Arguments JSON_parse_text {A} _.

Inductive Reply (A : Type) :=
| Fulfilled (response : GenerateContentResponse A)
| Rejected (reason : Exn).
Arguments Fulfilled {A} response.
Arguments Rejected {A} reason.

(** A request is identified by the operation and the arguments that are
    interpolated into its prompt. *)
Inductive Request :=
| ReqGenerateMockTest (topic : string) (count : nat)
| ReqFetchSingleQuestionByTitle (title : string) (index total : nat)
| ReqRunCodeMock (code : option string) (language : Language)
                 (question : Question.t)
| ReqGenerateSingleQuestion (topic : string) (index total : nat)
| ReqTranslateSolution (question : Question.t) (targetLanguage : string)
| ReqGetLearningContent (language topic : string)
| ReqGetExpertAdvice (message : string) (context : option string).

(** ** The facade ([geminiService.ts]) *)

(** What the facade reads from the browser. *)
Record Env := {
  localStorage_CUSTOM_GEMINI_API_KEY : option string;
  process_env_GEMINI_API_KEY : option string
}.

(** Module state: the memoised client (represented by the key it was built
    with) and, as a ghost field, the requests sent to the provider so far. *)
Record Service := {
  aiInstance : option string;
  issued : list Request
}.

Definition Svc (A : Type) : Type := Service -> Outcome A * Service.

Definition ret {A} (a : A) : Svc A := fun s => (Returns a, s).

Definition throw {A} (e : Exn) : Svc A := fun s => (Throws e, s).

Definition bind {A B} (c : Svc A) (k : A -> Svc B) : Svc B :=
  fun s =>
    match c s with
    | (Returns a, s') => k a s'
    | (Throws e, s') => (Throws e, s')
    end.

(** [try { body } catch (error) { handler }] *)
Definition try_catch {A} (body : Svc A) (handler : Exn -> Svc A) : Svc A :=
  fun s =>
    match body s with
    | (Returns a, s') => (Returns a, s')
    | (Throws e, s') => handler e s'
    end.

(** Lifting the completion of a pure expression. *)
Definition complete {A} (o : Outcome A) : Svc A := fun s => (o, s).

Notation "'let!' x ':=' c 'in' k" := (bind c (fun x => k))
  (at level 10, x name, c at level 100, k at level 200).

Definition getAI (env : Env) : Svc string :=
  fun s =>
    match aiInstance s with
    | Some ai => (Returns ai, s)
    | None =>
        let customKey := localStorage_CUSTOM_GEMINI_API_KEY env in
        let apiKey := or_else customKey (process_env_GEMINI_API_KEY env) in
        match apiKey with
        | Some key =>
            if negb (truthy apiKey) || String.eqb key "MY_GEMINI_API_KEY"
            then (Throws (Error "API_KEY_MISSING"), s)
            else (Returns key, {| aiInstance := Some key; issued := issued s |})
        | None => (Throws (Error "API_KEY_MISSING"), s)
        end
    end.

(** [await ai.models.generateContent(request)]: the request leaves the
    program, and the call completes as the provider replies. *)
Definition generateContent {A} (ai : string) (request : Request)
    (reply : Reply A) : Svc (GenerateContentResponse A) :=
  fun s =>
    (match reply with
     | Fulfilled response => Returns response
     | Rejected reason => Throws reason
     end,
     {| aiInstance := aiInstance s; issued := issued s ++ [request] |}).

(** [count] defaults to 3 at the call site. *)
Definition generateMockTest (env : Env) (topic : string) (count : nat)
    (reply : Reply (list Question.t)) : Svc (list Question.t) :=
  try_catch
    (let! ai := getAI env in
     let! response :=
       generateContent ai (ReqGenerateMockTest topic count) reply in
     if negb (truthy (text response))
     then throw (Error "Empty response from AI")
     else complete (JSON_parse_text response))
    (fun error => throw error).

Definition fetchSingleQuestionByTitle (env : Env) (title : string)
    (index total : nat) (reply : Reply Question.t) : Svc Question.t :=
  try_catch
    (let! ai := getAI env in
     let! response :=
       generateContent ai (ReqFetchSingleQuestionByTitle title index total) reply in
     if negb (truthy (text response))
     then throw (Error "Empty response from AI")
     else complete (JSON_parse_text response))
    (fun error => throw error).

(** [runCodeMock] has no return annotation: its result is whatever JSON
    value the payload denotes. *)
Definition runCodeMock {Any} (env : Env) (code : option string)
    (language : Language) (question : Question.t) (reply : Reply Any)
    : Svc Any :=
  try_catch
    (let! ai := getAI env in
     let! response :=
       generateContent ai (ReqRunCodeMock code language question) reply in
     if negb (truthy (text response))
     then throw (Error "Empty response from AI")
     else complete (JSON_parse_text response))
    (fun error => throw error).

Definition generateSingleQuestion (env : Env) (topic : string)
    (index total : nat) (reply : Reply Question.t) : Svc Question.t :=
  try_catch
    (let! ai := getAI env in
     let! response :=
       generateContent ai (ReqGenerateSingleQuestion topic index total) reply in
     if negb (truthy (text response))
     then throw (Error "Empty response from AI")
     else complete (JSON_parse_text response))
    (fun error => throw error).

(** [question] is [undefined] when the caller indexed past the end of the
    question list; reading [question.title] for the log line then throws
    inside the [try]. *)
Definition translateSolution {A} (env : Env) (question : option Question.t)
    (targetLanguage : string) (reply : Reply A) : Svc string :=
  try_catch
    (let! q :=
       match question with
       | Some q => ret q
       | None =>
           throw (TypeError
                    "Cannot read properties of undefined (reading 'title')")
       end in
     let! ai := getAI env in
     let! response :=
       generateContent ai (ReqTranslateSolution q targetLanguage) reply in
     ret (or_default (text response) "Translation failed."))
    (fun error => ret "Failed to translate solution.").

Definition getLearningContent {A} (env : Env) (language topic : string)
    (reply : Reply A) : Svc string :=
  try_catch
    (let! ai := getAI env in
     let! response :=
       generateContent ai (ReqGetLearningContent language topic) reply in
     ret (or_default (text response) "Failed to generate content."))
    (fun error => throw error).

Definition getExpertAdvice {A} (env : Env) (message : string)
    (context : option string) (reply : Reply A) : Svc string :=
  try_catch
    (let! ai := getAI env in
     let! response :=
       generateContent ai (ReqGetExpertAdvice message context) reply in
     ret (or_default (text response) "Expert is currently unavailable."))
    (fun error => throw error).

(** ** Application state ([App.tsx]) *)

Inductive View :=
| view_home | view_test | view_import | view_settings
| view_learning | view_expert | view_results.

Inductive Tab := tab_description | tab_hints | tab_solution.

#[global] Instance Tab_eq_dec : EqDecision Tab.
Proof. solve_decision. Defined.

(** [executionResult] is declared [any]: a JSON value. *)
#[warnings="-register-all"]
Inductive JsValue :=
| JsNull
| JsBool (b : bool)
| JsNumber (n : Z)
| JsString (s : string)
| JsArray (items : list JsValue)
| JsObject (fields : list (string * JsValue)).

(** The [useState] cells of [App] that the handlers below read or write. *)
Module App.
Record State := {
  view : View;
  session : option TestSession.t;
  importText : string;
  activeTab : Tab;
  translatedSolution : option string;
  translating : bool;
  executionResult : option JsValue;
  running : bool;
  error : option string;
  apiKeyMissing : bool;
  showKeyModal : bool;
  loadingImport : bool;
  loadingMockTest : bool
}.
End App.
Import App.

Definition setView (v : View) (st : State) : State :=
  {| view := v; session := session st; importText := importText st;
     activeTab := activeTab st; translatedSolution := translatedSolution st;
     translating := translating st; executionResult := executionResult st;
     running := running st; error := error st;
     apiKeyMissing := apiKeyMissing st; showKeyModal := showKeyModal st;
     loadingImport := loadingImport st; loadingMockTest := loadingMockTest st |}.

Definition setSession (s : option TestSession.t) (st : State) : State :=
  {| view := view st; session := s; importText := importText st;
     activeTab := activeTab st; translatedSolution := translatedSolution st;
     translating := translating st; executionResult := executionResult st;
     running := running st; error := error st;
     apiKeyMissing := apiKeyMissing st; showKeyModal := showKeyModal st;
     loadingImport := loadingImport st; loadingMockTest := loadingMockTest st |}.

Definition setActiveTab (t : Tab) (st : State) : State :=
  {| view := view st; session := session st; importText := importText st;
     activeTab := t; translatedSolution := translatedSolution st;
     translating := translating st; executionResult := executionResult st;
     running := running st; error := error st;
     apiKeyMissing := apiKeyMissing st; showKeyModal := showKeyModal st;
     loadingImport := loadingImport st; loadingMockTest := loadingMockTest st |}.

Definition setTranslatedSolution (t : option string) (st : State) : State :=
  {| view := view st; session := session st; importText := importText st;
     activeTab := activeTab st; translatedSolution := t;
     translating := translating st; executionResult := executionResult st;
     running := running st; error := error st;
     apiKeyMissing := apiKeyMissing st; showKeyModal := showKeyModal st;
     loadingImport := loadingImport st; loadingMockTest := loadingMockTest st |}.

Definition setTranslating (b : bool) (st : State) : State :=
  {| view := view st; session := session st; importText := importText st;
     activeTab := activeTab st; translatedSolution := translatedSolution st;
     translating := b; executionResult := executionResult st;
     running := running st; error := error st;
     apiKeyMissing := apiKeyMissing st; showKeyModal := showKeyModal st;
     loadingImport := loadingImport st; loadingMockTest := loadingMockTest st |}.

Definition setExecutionResult (r : option JsValue) (st : State) : State :=
  {| view := view st; session := session st; importText := importText st;
     activeTab := activeTab st; translatedSolution := translatedSolution st;
     translating := translating st; executionResult := r;
     running := running st; error := error st;
     apiKeyMissing := apiKeyMissing st; showKeyModal := showKeyModal st;
     loadingImport := loadingImport st; loadingMockTest := loadingMockTest st |}.

Definition setRunning (b : bool) (st : State) : State :=
  {| view := view st; session := session st; importText := importText st;
     activeTab := activeTab st; translatedSolution := translatedSolution st;
     translating := translating st; executionResult := executionResult st;
     running := b; error := error st;
     apiKeyMissing := apiKeyMissing st; showKeyModal := showKeyModal st;
     loadingImport := loadingImport st; loadingMockTest := loadingMockTest st |}.

Definition setError (e : option string) (st : State) : State :=
  {| view := view st; session := session st; importText := importText st;
     activeTab := activeTab st; translatedSolution := translatedSolution st;
     translating := translating st; executionResult := executionResult st;
     running := running st; error := e;
     apiKeyMissing := apiKeyMissing st; showKeyModal := showKeyModal st;
     loadingImport := loadingImport st; loadingMockTest := loadingMockTest st |}.

Definition setShowKeyModal (b : bool) (st : State) : State :=
  {| view := view st; session := session st; importText := importText st;
     activeTab := activeTab st; translatedSolution := translatedSolution st;
     translating := translating st; executionResult := executionResult st;
     running := running st; error := error st;
     apiKeyMissing := apiKeyMissing st; showKeyModal := b;
     loadingImport := loadingImport st; loadingMockTest := loadingMockTest st |}.

Definition setLoadingImport (b : bool) (st : State) : State :=
  {| view := view st; session := session st; importText := importText st;
     activeTab := activeTab st; translatedSolution := translatedSolution st;
     translating := translating st; executionResult := executionResult st;
     running := running st; error := error st;
     apiKeyMissing := apiKeyMissing st; showKeyModal := showKeyModal st;
     loadingImport := b; loadingMockTest := loadingMockTest st |}.

Definition setLoadingMockTest (b : bool) (st : State) : State :=
  {| view := view st; session := session st; importText := importText st;
     activeTab := activeTab st; translatedSolution := translatedSolution st;
     translating := translating st; executionResult := executionResult st;
     running := running st; error := error st;
     apiKeyMissing := apiKeyMissing st; showKeyModal := showKeyModal st;
     loadingImport := loadingImport st; loadingMockTest := b |}.

Definition setImportText (t : string) (st : State) : State :=
  {| view := view st; session := session st; importText := t;
     activeTab := activeTab st; translatedSolution := translatedSolution st;
     translating := translating st; executionResult := executionResult st;
     running := running st; error := error st;
     apiKeyMissing := apiKeyMissing st; showKeyModal := showKeyModal st;
     loadingImport := loadingImport st; loadingMockTest := loadingMockTest st |}.

Definition setApiKeyMissing (b : bool) (st : State) : State :=
  {| view := view st; session := session st; importText := importText st;
     activeTab := activeTab st; translatedSolution := translatedSolution st;
     translating := translating st; executionResult := executionResult st;
     running := running st; error := error st;
     apiKeyMissing := b; showKeyModal := showKeyModal st;
     loadingImport := loadingImport st; loadingMockTest := loadingMockTest st |}.

(** The React state together with the facade's module state. *)
Record World := {
  app : State;
  service : Service
}.

(** *** Building blocks of the handlers *)

(** [{ ...s, questions: qs }] *)
Definition with_questions (s : TestSession.t) (qs : list Question.t)
    : TestSession.t :=
  {| TestSession.id := TestSession.id s;
     TestSession.questions := qs;
     TestSession.currentQuestionIndex := TestSession.currentQuestionIndex s;
     TestSession.userCodes := TestSession.userCodes s;
     TestSession.language := TestSession.language s |}.

(** [{ ...s, currentQuestionIndex: i }] *)
Definition with_currentQuestionIndex (s : TestSession.t) (i : Z)
    : TestSession.t :=
  {| TestSession.id := TestSession.id s;
     TestSession.questions := TestSession.questions s;
     TestSession.currentQuestionIndex := i;
     TestSession.userCodes := TestSession.userCodes s;
     TestSession.language := TestSession.language s |}.

(** [{ ...s, userCodes: codes }] *)
Definition with_userCodes (s : TestSession.t)
    (codes : gmap string (gmap Language string)) : TestSession.t :=
  {| TestSession.id := TestSession.id s;
     TestSession.questions := TestSession.questions s;
     TestSession.currentQuestionIndex := TestSession.currentQuestionIndex s;
     TestSession.userCodes := codes;
     TestSession.language := TestSession.language s |}.

(** [{ ...s, language: lang }] *)
Definition with_language (s : TestSession.t) (lang : Language)
    : TestSession.t :=
  {| TestSession.id := TestSession.id s;
     TestSession.questions := TestSession.questions s;
     TestSession.currentQuestionIndex := TestSession.currentQuestionIndex s;
     TestSession.userCodes := TestSession.userCodes s;
     TestSession.language := lang |}.

(** The session literal that both build handlers construct around the first
    question. [sessionId] stands for the value of
    [Math.random().toString(36).substr(2, 9)]. *)
Definition newSession (sessionId : string) (firstQuestion : Question.t)
    : TestSession.t :=
  {| TestSession.id := sessionId;
     TestSession.questions := [firstQuestion];
     TestSession.currentQuestionIndex := 0;
     TestSession.userCodes :=
       {[ Question.id firstQuestion := Question.starterCode firstQuestion ]};
     TestSession.language := java |}.

(** The updater that both background loops pass to [setSession]:
    [prev => { if (!prev) return null; return {...prev, questions: [...],
    userCodes: {...} }; }]. *)
Definition appendQuestion (q : Question.t) (prev : option TestSession.t)
    : option TestSession.t :=
  match prev with
  | None => None
  | Some prev =>
      Some (with_userCodes
              (with_questions prev (TestSession.questions prev ++ [q]))
              (<[ Question.id q := Question.starterCode q ]>
                 (TestSession.userCodes prev)))
  end.

(** The body of [for (let i = 1; i < total; i++) { try { ... } catch ... }],
    the same in both build handlers up to the operation that fetches item
    [i]; [indices] is the range of [i] still to run. A failed fetch is
    logged and the loop moves on. This is the loop run without anything
    else happening at its awaits; [backgroundFillAmid] below is the loop
    with the rest of the page running between them. *)
Fixpoint backgroundFill (fetch : nat -> Svc Question.t) (indices : list nat)
    (w : World) : World :=
  match indices with
  | [] => w
  | i :: rest =>
      match fetch i (service w) with
      | (Returns q, svc) =>
          backgroundFill fetch rest
            {| app := setSession (appendQuestion q (session (app w))) (app w);
               service := svc |}
      | (Throws err, svc) =>
          backgroundFill fetch rest {| app := app w; service := svc |}
      end
  end.

Definition handleStartMockTest (env : Env) (sessionId : string)
    (topic : string) (replies : nat -> Reply Question.t) (w : World)
    : World :=
  if apiKeyMissing (app w)
  then {| app := setShowKeyModal true (app w); service := service w |}
  else
    let st := setError None (setLoadingMockTest true (app w)) in
    let total := 5%nat in
    match generateSingleQuestion env topic 0 total (replies 0%nat)
            (service w) with
    | (Returns firstQuestion, svc) =>
        let st :=
          setLoadingMockTest false
            (setView view_test
               (setSession (Some (newSession sessionId firstQuestion)) st)) in
        backgroundFill
          (fun i => generateSingleQuestion env topic i total (replies i))
          (seq 1 (total - 1))
          {| app := st; service := svc |}
    | (Throws err, svc) =>
        {| app :=
             setLoadingMockTest false
               (setError
                  (Some (or_default (message_of err)
                           "Failed to generate test. Please try again."))
                  st);
           service := svc |}
    end.

(** *** [importText.split('\n').filter(t => t.trim() !== '')]

    A [string] is read as a sequence of code units below 256. *)

Definition newline : ascii := ascii_of_nat 10.

(** ECMAScript [WhiteSpace] and [LineTerminator] code points below 256. *)
Definition is_whitespace (c : ascii) : bool :=
  bool_decide (nat_of_ascii c ∈ [9; 10; 11; 12; 13; 32; 160]%nat).

Fixpoint split (separator : ascii) (s : string) : list string :=
  match s with
  | EmptyString => [EmptyString]
  | String c rest =>
      if Ascii.eqb c separator then EmptyString :: split separator rest
      else match split separator rest with
           | piece :: pieces => String c piece :: pieces
           | [] => [String c EmptyString]
           end
  end.

Fixpoint trimStart (s : string) : string :=
  match s with
  | EmptyString => EmptyString
  | String c rest => if is_whitespace c then trimStart rest else s
  end.

Definition trim (s : string) : string :=
  String.rev (trimStart (String.rev (trimStart s))).

Definition import_titles (importText : string) : list string :=
  List.filter (fun t => negb (String.eqb (trim t) "")) (split newline importText).

(** [titles[i]]; the loop only reads positions below [titles.length], and an
    [undefined] title would be interpolated as the text "undefined". *)
Definition title_at (titles : list string) (i : nat) : string :=
  default "undefined" (titles !! i).

Definition handleImportQuestions (env : Env) (sessionId : string)
    (replies : nat -> Reply Question.t) (w : World) : World :=
  if apiKeyMissing (app w)
  then {| app := setShowKeyModal true (app w); service := service w |}
  else
    let titles := import_titles (importText (app w)) in
    if bool_decide (length titles = 0%nat) then w
    else
      let st := setError None (setLoadingImport true (app w)) in
      let total := length titles in
      match fetchSingleQuestionByTitle env (title_at titles 0) 0 total
              (replies 0%nat) (service w) with
      | (Returns firstQuestion, svc) =>
          let st :=
            setLoadingImport false
              (setView view_test
                 (setSession (Some (newSession sessionId firstQuestion)) st)) in
          backgroundFill
            (fun i => fetchSingleQuestionByTitle env (title_at titles i) i
                        total (replies i))
            (seq 1 (total - 1))
            {| app := st; service := svc |}
      | (Throws err, svc) =>
          {| app :=
               setLoadingImport false
                 (setError
                    (Some (or_default (message_of err)
                             "Failed to import questions. Please try again."))
                    st);
             service := svc |}
      end.

(** *** Session handlers *)

(** A [Language] value is the string of its name. *)
Definition Language_name (l : Language) : string :=
  match l with
  | java => "java"
  | cpp => "cpp"
  | python => "python"
  | javascript => "javascript"
  end.

(** [session] is the value captured by the closure: the session of the
    render in which the caller was created. *)
Definition handleTranslateSolution {A} (env : Env)
    (session : option TestSession.t) (lang : string) (reply : Reply A)
    (w : World) : World :=
  match session with
  | None => w
  | Some session =>
      let currentQuestion :=
        at_index (TestSession.questions session)
                 (TestSession.currentQuestionIndex session) in
      let st := setTranslating true (app w) in
      match translateSolution env currentQuestion lang reply (service w) with
      | (Returns translation, svc) =>
          {| app := setTranslating false
                      (setTranslatedSolution (Some translation) st);
             service := svc |}
      | (Throws err, svc) =>
          {| app := setTranslating false st; service := svc |}
      end
  end.

Definition changeLanguage {A} (env : Env) (lang : Language) (reply : Reply A)
    (w : World) : World :=
  match session (app w) with
  | None => w
  | Some session =>
      let st :=
        setTranslatedSolution None
          (setSession (Some (with_language session lang)) (app w)) in
      if decide (activeTab (app w) = tab_solution)
      then handleTranslateSolution env (Some session) (Language_name lang)
             reply {| app := st; service := service w |}
      else {| app := st; service := service w |}
  end.

(** The object the [catch] of [handleRunCode] stores. *)
Definition executionError : JsValue :=
  JsObject [("status", JsString "Error");
            ("message", JsString "Failed to execute code.")].

(** An exception raised before the [try] rejects the handler's promise and
    leaves every state cell as it was. *)
Definition handleRunCode (env : Env) (reply : Reply JsValue) (w : World)
    : Outcome World :=
  if apiKeyMissing (app w)
  then Returns {| app := setShowKeyModal true (app w); service := service w |}
  else
    match session (app w) with
    | None => Returns w
    | Some session =>
        match at_index (TestSession.questions session)
                (TestSession.currentQuestionIndex session) with
        | None =>
            Throws (TypeError "Cannot read properties of undefined (reading 'id')")
        | Some currentQuestion =>
            match TestSession.userCodes session
                    !! Question.id currentQuestion with
            | None =>
                Throws (TypeError "Cannot read properties of undefined")
            | Some buffers =>
                let code := buffers !! TestSession.language session in
                let st := setExecutionResult None (setRunning true (app w)) in
                match runCodeMock env code (TestSession.language session)
                        currentQuestion reply (service w) with
                | (Returns result, svc) =>
                    Returns
                      {| app := setRunning false
                                  (setExecutionResult (Some result) st);
                         service := svc |}
                | (Throws error, svc) =>
                    Returns
                      {| app := setRunning false
                                  (setExecutionResult (Some executionError) st);
                         service := svc |}
                end
            end
        end
    end.

(** [newCode] is [string | undefined]. *)
Definition updateCode (newCode : option string) (st : State)
    : Outcome State :=
  match session st, newCode with
  | Some session, Some code =>
      if negb (truthy newCode) then Returns st
      else
        match at_index (TestSession.questions session)
                (TestSession.currentQuestionIndex session) with
        | None =>
            Throws (TypeError "Cannot read properties of undefined (reading 'id')")
        | Some currentQuestion =>
            let qId := Question.id currentQuestion in
            Returns
              (setSession
                 (Some (with_userCodes session
                          (<[ qId :=
                                <[ TestSession.language session := code ]>
                                  (default ∅
                                     (TestSession.userCodes session !! qId)) ]>
                             (TestSession.userCodes session))))
                 st)
        end
  | _, _ => Returns st
  end.

Definition nextQuestion (st : State) : State :=
  match session st with
  | None => st
  | Some session =>
      if decide (TestSession.currentQuestionIndex session
                 >= len (TestSession.questions session) - 1)
      then st
      else
        setActiveTab tab_description
          (setExecutionResult None
             (setSession
                (Some (with_currentQuestionIndex session
                         (TestSession.currentQuestionIndex session + 1)))
                st))
  end.

Definition prevQuestion (st : State) : State :=
  match session st with
  | None => st
  | Some session =>
      if decide (TestSession.currentQuestionIndex session <= 0)
      then st
      else
        setActiveTab tab_description
          (setExecutionResult None
             (setSession
                (Some (with_currentQuestionIndex session
                         (TestSession.currentQuestionIndex session - 1)))
                st))
  end.

(** The state after a handler that may throw: an exception leaves the state
    as it was. *)
Definition state_after {S} (o : Outcome S) (before : S) : S :=
  match o with
  | Returns s => s
  | Throws _ => before
  end.

(** [checkApiKey], run once when the component mounts. *)
Definition checkApiKey (env : Env) (st : State) : State :=
  let localKey := localStorage_CUSTOM_GEMINI_API_KEY env in
  let envKey := process_env_GEMINI_API_KEY env in
  if (negb (truthy envKey)
      || bool_decide (envKey = Some "MY_GEMINI_API_KEY"))
     && negb (truthy localKey)
  then setApiKeyMissing true st
  else setApiKeyMissing false st.

(** The [useState] initialisers and the module initialiser. *)
Definition initialState : State :=
  {| view := view_home; session := None; importText := "";
     activeTab := tab_description; translatedSolution := None;
     translating := false; executionResult := None; running := false;
     error := None; apiKeyMissing := false; showKeyModal := false;
     loadingImport := false; loadingMockTest := false |}.

Definition initialService : Service := {| aiInstance := None; issued := [] |}.

Definition mounted (env : Env) : World :=
  {| app := checkApiKey env initialState; service := initialService |}.

(** ** The application as a transition system *)

(** What a reply lets a JSON operation hand back: the request was fulfilled,
    with a text that is not empty and that parses. *)
Definition delivered {A} (reply : Reply A) : option A :=
  match reply with
  | Fulfilled response =>
      if truthy (text response)
      then match JSON_parse_text response with
           | Returns v => Some v
           | Throws _ => None
           end
      else None
  | Rejected _ => None
  end.

Definition delivers (reply : Reply Question.t) (q : Question.t) : Prop :=
  delivered reply = Some q.

(** One activation of a handler. Every question that reaches the program
    satisfies [P]. A build handler runs to completion in [step_start] and
    [step_import]; [step_arrival] is an iteration of a background loop seen
    on its own, its [setSession] landing between two other handlers.
    [step_elsewhere] stands for the rest of the component (navigation, tabs,
    the import text area, the key dialog, the learning and expert pages):
    none of it calls [setSession]. *)
Inductive step (P : Question.t -> Prop) (env : Env) : World -> World -> Prop :=
| step_start sessionId topic replies w :
    (forall i q, delivers (replies i) q -> P q) ->
    step P env w (handleStartMockTest env sessionId topic replies w)
| step_import sessionId replies w :
    (forall i q, delivers (replies i) q -> P q) ->
    step P env w (handleImportQuestions env sessionId replies w)
| step_arrival q w :
    P q ->
    step P env w
      {| app := setSession (appendQuestion q (session (app w))) (app w);
         service := service w |}
| step_language lang (reply : Reply unit) w :
    step P env w (changeLanguage env lang reply w)
| step_code newCode w :
    step P env w
      {| app := state_after (updateCode newCode (app w)) (app w);
         service := service w |}
| step_next w :
    step P env w {| app := nextQuestion (app w); service := service w |}
| step_prev w :
    step P env w {| app := prevQuestion (app w); service := service w |}
| step_run reply w :
    step P env w (state_after (handleRunCode env reply w) w)
| step_elsewhere w w' :
    session (app w') = session (app w) ->
    step P env w w'.

Inductive reachable (P : Question.t -> Prop) (env : Env) : World -> Prop :=
| reachable_mounted : reachable P env (mounted env)
| reachable_step w w' :
    reachable P env w -> step P env w w' -> reachable P env w'.

(** ** Vocabulary of the specification *)

(** [session.userCodes[qId][lang]] *)
Definition buffer (s : TestSession.t) (qId : string) (lang : Language)
    : option string :=
  TestSession.userCodes s !! qId ≫= fun buffers => buffers !! lang.

(** Every question of the session has its four buffers. *)
Definition codes_complete (s : TestSession.t) : Prop :=
  forall q, q ∈ TestSession.questions s ->
    exists buffers,
      TestSession.userCodes s !! Question.id q = Some buffers
      /\ all_four buffers.

(** The buffers of [q] read back as its starter code, language by language. *)
Definition seeded (s : TestSession.t) (q : Question.t) : Prop :=
  forall lang,
    buffer s (Question.id q) lang = Question.starterCode q !! lang.

(** [0 <= currentQuestionIndex < questions.length] *)
Definition index_valid (s : TestSession.t) : Prop :=
  0 <= TestSession.currentQuestionIndex s < len (TestSession.questions s).

(** A question as its declared type describes it: the starter code has a
    buffer for each of the four languages. *)
Definition typed (q : Question.t) : Prop := all_four (Question.starterCode q).

(** A property of the active session, when there is one. *)
Definition of_session (I : TestSession.t -> Prop) (st : State) : Prop :=
  forall s, session st = Some s -> I s.

(** The questions of the successful fetches among items [0 .. n-1], in the
    order of the requests. *)
Definition successes (replies : nat -> Reply Question.t) (n : nat)
    : list Question.t :=
  omap (fun i => delivered (replies i)) (seq 0 n).

(** [qs] holds one question for each successful fetch among items
    [0 .. n-1], by strictly increasing index of the request. *)
Definition in_request_order (replies : nat -> Reply Question.t) (n : nat)
    (qs : list Question.t) : Prop :=
  exists indices : list nat,
    StronglySorted lt indices
    /\ (forall i, i ∈ indices <-> (i < n)%nat /\ is_Some (delivered (replies i)))
    /\ Forall2 (fun i q => delivered (replies i) = Some q) indices qs.

(** The requests a world has sent beyond those of an earlier world. *)
Definition sent_since (before after : World) (rs : list Request) : Prop :=
  issued (service after) = (issued (service before) ++ rs)%list.

(** The index of the work item a build request is for. *)
Definition item_of (r : Request) : option nat :=
  match r with
  | ReqFetchSingleQuestionByTitle _ index _ => Some index
  | ReqGenerateSingleQuestion _ index _ => Some index
  | _ => None
  end.

(** No usable credential: nothing stored locally, and the ambient key absent,
    empty or the placeholder. *)
Definition no_credential (env : Env) : Prop :=
  truthy (localStorage_CUSTOM_GEMINI_API_KEY env) = false
  /\ (truthy (process_env_GEMINI_API_KEY env) = false
      \/ process_env_GEMINI_API_KEY env = Some "MY_GEMINI_API_KEY").

(** *** The result shape of a run *)

(** [v[key]] for a JSON object. *)
Definition field (key : string) (v : JsValue) : option JsValue :=
  match v with
  | JsObject fields => snd <$> List.find (fun kv => String.eqb (fst kv) key) fields
  | _ => None
  end.

Definition statuses : list string :=
  ["Accepted"; "Wrong Answer"; "Runtime Error"; "Error"].

Definition is_example_result (v : JsValue) : bool :=
  match field "exampleIndex" v, field "passed" v,
        field "expectedOutput" v, field "actualOutput" v with
  | Some (JsNumber _), Some (JsBool _), Some (JsString _), Some (JsString _) =>
      match field "consoleLog" v with
      | None | Some (JsString _) => true
      | Some _ => false
      end
  | _, _, _, _ => false
  end.

Definition has_result_shape (v : JsValue) : bool :=
  match field "status" v, field "results" v with
  | Some (JsString status), Some (JsArray results) =>
      bool_decide (status ∈ statuses) && forallb is_example_result results
  | _, _ => false
  end.

(** *** How a JSON operation completes *)

(** The completion the four JSON operations derive from a reply once the
    client is available. *)
Definition outcome_of_reply {A} (reply : Reply A) : Outcome A :=
  match reply with
  | Rejected reason => Throws reason
  | Fulfilled response =>
      if truthy (text response) then JSON_parse_text response
      else Throws (Error "Empty response from AI")
  end.

(** The provider did not answer with a usable JSON payload: the request was
    rejected, the text is empty, or the text does not parse. *)
Definition unusable {A} (reply : Reply A) : Prop := delivered reply = None.

(** The provider answered, with no text. *)
Definition answered_empty {A} (reply : Reply A) : Prop :=
  exists response, reply = Fulfilled response /\ truthy (text response) = false.

(** ** Sample data *)

Definition sampleQuestion (qId qTitle : string) : Question.t :=
  {| Question.id := qId;
     Question.title := qTitle;
     Question.difficulty := Easy;
     Question.topic := "Arrays";
     Question.description := "Solve it.";
     Question.constraints := [];
     Question.examples :=
       [{| input := "[2,7,11,15], 9"; output := "[0,1]"; explanation := None |}];
     Question.starterCode :=
       {[ java := "class Solution {}";
          cpp := "class Solution {};";
          python := "class Solution: pass";
          javascript := "var solve = function() {};" ]};
     Question.solution_approaches := [];
     Question.hints := [] |}.

Definition twoSum : Question.t := sampleQuestion "two-sum" "Two Sum".

Definition reverseLinkedList : Question.t :=
  sampleQuestion "reverse-linked-list" "Reverse Linked List".

Definition payload {A} (v : A) : Reply A :=
  Fulfilled {| text := Some "{...}"; JSON_parse_text := Returns v |}.

Definition emptyPayload {A} : Reply A :=
  Fulfilled {| text := None;
               JSON_parse_text := Throws (SyntaxError "Unexpected token") |}.

Definition withKey : Env :=
  {| localStorage_CUSTOM_GEMINI_API_KEY := Some "user-key";
     process_env_GEMINI_API_KEY := None |}.

Definition placeholderOnly : Env :=
  {| localStorage_CUSTOM_GEMINI_API_KEY := None;
     process_env_GEMINI_API_KEY := Some "MY_GEMINI_API_KEY" |}.

(** A well-formed JSON answer to a run request, with a status that the
    prompt did not list. *)
Definition timeLimitExceeded : JsValue :=
  JsObject
    [("status", JsString "Time Limit Exceeded");
     ("results",
      JsArray
        [JsObject [("exampleIndex", JsNumber 0); ("passed", JsBool false);
                   ("actualOutput", JsString "");
                   ("expectedOutput", JsString "[0,1]")]])].

(** Three titles; the provider answers the first and the third. *)
Definition threeTitles : string :=
  "Two Sum" +:+ String newline "BAD_TITLE_CAUSES_FAILURE"
  +:+ String newline "Reverse Linked List".

Definition threeReplies (i : nat) : Reply Question.t :=
  match i with
  | 0%nat => payload twoSum
  | 2%nat => payload reverseLinkedList
  | _ => Rejected (Error "not found")
  end.

Definition validParentheses : Question.t :=
  sampleQuestion "valid-parentheses" "Valid Parentheses".

Definition malformedPayload {A} : Reply A :=
  Fulfilled {| text := Some "{";
               JSON_parse_text := Throws (SyntaxError "Unexpected end of JSON input") |}.

(** Five generated questions; the second request is rejected, the fourth
    answered with text that does not parse. *)
Definition fiveReplies (i : nat) : Reply Question.t :=
  match i with
  | 0%nat => payload twoSum
  | 1%nat => Rejected (Error "503 Service Unavailable")
  | 2%nat => payload reverseLinkedList
  | 3%nat => malformedPayload
  | _ => payload validParentheses
  end.

Definition atHome : World :=
  {| app := initialState; service := initialService |}.

Definition importing : World :=
  {| app := setImportText threeTitles (setView view_import initialState);
     service := initialService |}.

(** A session with two questions, the first one current. *)
Definition practising : World :=
  handleImportQuestions withKey "abc123xyz"
    (fun i => match i with
              | 0%nat => payload twoSum
              | _ => payload reverseLinkedList
              end)
    {| app := setImportText ("Two Sum" +:+ String newline "Reverse Linked List")
                initialState;
       service := initialService |}.

(** ** The remaining pages ([App.tsx]) *)

(** The [useState] cells of [App] behind the learning page, the expert page
    and the key field of the settings page. *)
Record Forms := {
  learningLang : string;
  learningTopic : string;
  learningContent : string;
  expertQuery : string;
  expertResponse : string;
  loadingLearning : bool;
  loadingExpert : bool;
  customApiKey : string
}.

Definition setLearningContent (c : string) (f : Forms) : Forms :=
  {| learningLang := learningLang f; learningTopic := learningTopic f;
     learningContent := c; expertQuery := expertQuery f;
     expertResponse := expertResponse f; loadingLearning := loadingLearning f;
     loadingExpert := loadingExpert f; customApiKey := customApiKey f |}.

Definition setLoadingLearning (b : bool) (f : Forms) : Forms :=
  {| learningLang := learningLang f; learningTopic := learningTopic f;
     learningContent := learningContent f; expertQuery := expertQuery f;
     expertResponse := expertResponse f; loadingLearning := b;
     loadingExpert := loadingExpert f; customApiKey := customApiKey f |}.

Definition setExpertResponse (r : string) (f : Forms) : Forms :=
  {| learningLang := learningLang f; learningTopic := learningTopic f;
     learningContent := learningContent f; expertQuery := expertQuery f;
     expertResponse := r; loadingLearning := loadingLearning f;
     loadingExpert := loadingExpert f; customApiKey := customApiKey f |}.

Definition setLoadingExpert (b : bool) (f : Forms) : Forms :=
  {| learningLang := learningLang f; learningTopic := learningTopic f;
     learningContent := learningContent f; expertQuery := expertQuery f;
     expertResponse := expertResponse f; loadingLearning := loadingLearning f;
     loadingExpert := b; customApiKey := customApiKey f |}.

(** The initialisers; [customApiKey] starts as
    [localStorage.getItem('CUSTOM_GEMINI_API_KEY') || '']. *)
Definition initialForms (env : Env) : Forms :=
  {| learningLang := "java"; learningTopic := ""; learningContent := "";
     expertQuery := ""; expertResponse := ""; loadingLearning := false;
     loadingExpert := false;
     customApiKey := or_default (localStorage_CUSTOM_GEMINI_API_KEY env) "" |}.

Definition handleStartLearning {A} (env : Env) (reply : Reply A) (w : World)
    (f : Forms) : World * Forms :=
  if apiKeyMissing (app w)
  then ({| app := setShowKeyModal true (app w); service := service w |}, f)
  else if negb (truthy (Some (trim (learningTopic f)))) then (w, f)
  else
    let f := setLoadingLearning true f in
    let st := setView view_learning (setError None (app w)) in
    match getLearningContent env (learningLang f) (learningTopic f) reply
            (service w) with
    | (Returns content, svc) =>
        ({| app := st; service := svc |},
         setLoadingLearning false (setLearningContent content f))
    | (Throws err, svc) =>
        ({| app :=
              setView view_home
                (setError
                   (Some (or_default (message_of err)
                            "Failed to load learning content."))
                   st);
            service := svc |},
         setLoadingLearning false f)
    end.

Definition handleAskExpert {A} (env : Env) (reply : Reply A) (w : World)
    (f : Forms) : World * Forms :=
  if apiKeyMissing (app w)
  then ({| app := setShowKeyModal true (app w); service := service w |}, f)
  else if negb (truthy (Some (trim (expertQuery f)))) then (w, f)
  else
    let f := setLoadingExpert true f in
    let st := setView view_expert (setError None (app w)) in
    match getExpertAdvice env (expertQuery f) None reply (service w) with
    | (Returns response, svc) =>
        ({| app := st; service := svc |},
         setLoadingExpert false (setExpertResponse response f))
    | (Throws err, svc) =>
        ({| app :=
              setView view_home
                (setError
                   (Some (or_default (message_of err)
                            "Failed to get expert advice."))
                   st);
            service := svc |},
         setLoadingExpert false f)
    end.

(** [handleSaveCustomKey] writes [localStorage], so it returns the
    environment as well. [window.location.reload()] starts the page again:
    the module state and every state cell are re-initialised against the new
    environment, and [checkApiKey] runs on mount; the two setter calls that
    precede the reload are lost with the old page. *)
Definition handleSaveCustomKey (env : Env) (w : World) (f : Forms)
    : Env * (World * Forms) :=
  if truthy (Some (trim (customApiKey f)))
  then
    let env' :=
      {| localStorage_CUSTOM_GEMINI_API_KEY := Some (trim (customApiKey f));
         process_env_GEMINI_API_KEY := process_env_GEMINI_API_KEY env |} in
    (env', (mounted env', initialForms env'))
  else
    let env' :=
      {| localStorage_CUSTOM_GEMINI_API_KEY := None;
         process_env_GEMINI_API_KEY := process_env_GEMINI_API_KEY env |} in
    (env', ({| app := checkApiKey env' (app w); service := service w |}, f)).

Definition setLearningLang (l : string) (f : Forms) : Forms :=
  {| learningLang := l; learningTopic := learningTopic f;
     learningContent := learningContent f; expertQuery := expertQuery f;
     expertResponse := expertResponse f; loadingLearning := loadingLearning f;
     loadingExpert := loadingExpert f; customApiKey := customApiKey f |}.

Definition setLearningTopic (t : string) (f : Forms) : Forms :=
  {| learningLang := learningLang f; learningTopic := t;
     learningContent := learningContent f; expertQuery := expertQuery f;
     expertResponse := expertResponse f; loadingLearning := loadingLearning f;
     loadingExpert := loadingExpert f; customApiKey := customApiKey f |}.

Definition setExpertQuery (q : string) (f : Forms) : Forms :=
  {| learningLang := learningLang f; learningTopic := learningTopic f;
     learningContent := learningContent f; expertQuery := q;
     expertResponse := expertResponse f; loadingLearning := loadingLearning f;
     loadingExpert := loadingExpert f; customApiKey := customApiKey f |}.

Definition setCustomApiKey (k : string) (f : Forms) : Forms :=
  {| learningLang := learningLang f; learningTopic := learningTopic f;
     learningContent := learningContent f; expertQuery := expertQuery f;
     expertResponse := expertResponse f; loadingLearning := loadingLearning f;
     loadingExpert := loadingExpert f; customApiKey := k |}.

#[global] Instance View_eq_dec : EqDecision View.
Proof. solve_decision. Defined.

(** The effect registered on [activeTab], [view] and the current index:
    on the practice screen, with the solution tab open and no translation
    at hand, it asks for one in the language of the session. *)
Definition translationEffect {A} (env : Env) (reply : Reply A) (w : World)
    : World :=
  match session (app w) with
  | Some s =>
      if bool_decide (view (app w) = view_test)
         && bool_decide (activeTab (app w) = tab_solution)
         && negb (truthy (translatedSolution (app w)))
      then handleTranslateSolution env (Some s)
             (Language_name (TestSession.language s)) reply w
      else w
  | None => w
  end.

(** ** The page as a whole *)

(** The browser storage, the state of the component and of the facade. *)
Record Page := {
  storage : Env;
  world : World;
  forms : Forms
}.

(** A page that has just been loaded. *)
Definition loaded (env : Env) : Page :=
  {| storage := env; world := mounted env; forms := initialForms env |}.

(** The views that a button leads to with a plain [setView]. *)
Inductive Destination := to_home | to_settings | to_import | to_results.

Definition view_of (d : Destination) : View :=
  match d with
  | to_home => view_home
  | to_settings => view_settings
  | to_import => view_import
  | to_results => view_results
  end.

(** What can happen to a page: a handler is activated (with the replies the
    provider will give it), an effect runs, or a field is edited. *)
Inductive Event :=
| EvStartMockTest (sessionId topic : string)
                  (replies : nat -> Reply Question.t)
| EvImportQuestions (sessionId : string) (replies : nat -> Reply Question.t)
| EvChangeLanguage (lang : Language) (reply : Reply unit)
| EvTranslationEffect (reply : Reply unit)
| EvRunCode (reply : Reply JsValue)
| EvUpdateCode (newCode : option string)
| EvNextQuestion
| EvPrevQuestion
| EvStartLearning (reply : Reply unit)
| EvAskExpert (reply : Reply unit)
| EvSaveCustomKey
| EvReload
| EvSetView (d : Destination)
| EvSetActiveTab (t : Tab)
| EvSetImportText (t : string)
| EvSetLearningLang (l : string)
| EvSetLearningTopic (t : string)
| EvSetExpertQuery (q : string)
| EvSetCustomApiKey (k : string)
| EvDismissError
| EvCloseKeyModal.

Definition on_world (f : World -> World) (p : Page) : Page :=
  {| storage := storage p; world := f (world p); forms := forms p |}.

Definition on_app (f : State -> State) (p : Page) : Page :=
  on_world (fun w => {| app := f (app w); service := service w |}) p.

Definition on_forms (f : Forms -> Forms) (p : Page) : Page :=
  {| storage := storage p; world := world p; forms := f (forms p) |}.

Definition handle (ev : Event) (p : Page) : Page :=
  match ev with
  | EvStartMockTest sessionId topic replies =>
      on_world (handleStartMockTest (storage p) sessionId topic replies) p
  | EvImportQuestions sessionId replies =>
      on_world (handleImportQuestions (storage p) sessionId replies) p
  | EvChangeLanguage lang reply =>
      on_world (changeLanguage (storage p) lang reply) p
  | EvTranslationEffect reply =>
      on_world (translationEffect (storage p) reply) p
  | EvRunCode reply =>
      on_world (fun w => state_after (handleRunCode (storage p) reply w) w) p
  | EvUpdateCode newCode =>
      on_app (fun st => state_after (updateCode newCode st) st) p
  | EvNextQuestion => on_app nextQuestion p
  | EvPrevQuestion => on_app prevQuestion p
  | EvStartLearning reply =>
      let '(w, f) :=
        handleStartLearning (storage p) reply (world p) (forms p) in
      {| storage := storage p; world := w; forms := f |}
  | EvAskExpert reply =>
      let '(w, f) := handleAskExpert (storage p) reply (world p) (forms p) in
      {| storage := storage p; world := w; forms := f |}
  | EvSaveCustomKey =>
      let '(env, (w, f)) :=
        handleSaveCustomKey (storage p) (world p) (forms p) in
      {| storage := env; world := w; forms := f |}
  | EvReload => loaded (storage p)
  | EvSetView d => on_app (setView (view_of d)) p
  | EvSetActiveTab t => on_app (setActiveTab t) p
  | EvSetImportText t => on_app (setImportText t) p
  | EvSetLearningLang l => on_forms (setLearningLang l) p
  | EvSetLearningTopic t => on_forms (setLearningTopic t) p
  | EvSetExpertQuery q => on_forms (setExpertQuery q) p
  | EvSetCustomApiKey k => on_forms (setCustomApiKey k) p
  | EvDismissError => on_app (setError None) p
  | EvCloseKeyModal => on_app (setShowKeyModal false) p
  end.

(** The page after a sequence of events, the first of the list first. *)
Definition run (events : list Event) (p : Page) : Page :=
  foldl (fun p ev => handle ev p) p events.

(** Every question the provider delivers during the event satisfies [P]. *)
Definition event_delivers (P : Question.t -> Prop) (ev : Event) : Prop :=
  match ev with
  | EvStartMockTest _ _ replies | EvImportQuestions _ replies =>
      forall i q, delivers (replies i) q -> P q
  | _ => True
  end.

(** The event leaves [localStorage] alone. *)
Definition keeps_storage (ev : Event) : bool :=
  match ev with
  | EvSaveCustomKey => false
  | _ => true
  end.

(** An operation of the facade sends at most its own request, sends it only
    through a client, and never discards the client. *)
Definition sends_at_most {A} (request : Request) (operation : Svc A) : Prop :=
  forall s,
    (issued (operation s).2 = issued s
     \/ issued (operation s).2 = issued s ++ [request])
    /\ (aiInstance (operation s).2 = None -> issued (operation s).2 = issued s)
    /\ (forall ai, aiInstance s = Some ai ->
          aiInstance (operation s).2 = Some ai).

(** *** More vocabulary *)

(** Every code unit of [s] is white space. *)
Fixpoint blank (s : string) : bool :=
  match s with
  | EmptyString => true
  | String c rest => is_whitespace c && blank rest
  end.

(** [c] occurs in [s]. *)
Fixpoint occurs (c : ascii) (s : string) : bool :=
  match s with
  | EmptyString => false
  | String c' rest => Ascii.eqb c' c || occurs c rest
  end.

(** [pieces.join(separator)] *)
Fixpoint join (separator : ascii) (pieces : list string) : string :=
  match pieces with
  | [] => EmptyString
  | [piece] => piece
  | piece :: rest => piece +:+ String separator (join separator rest)
  end.

(** The practice screen is only shown while there is a session. *)
Definition shows_session (w : World) : Prop :=
  view (app w) = view_test -> is_Some (session (app w)).

(** Nothing has been sent and nothing can be: no client, no request, and no
    session that a build would have started. *)
Definition silent (w : World) : Prop :=
  aiInstance (service w) = None
  /\ issued (service w) = []
  /\ session (app w) = None.

(** What an append leaves as it was in the session. *)
Definition same_session_frame (s s' : TestSession.t) : Prop :=
  TestSession.id s' = TestSession.id s
  /\ TestSession.currentQuestionIndex s' = TestSession.currentQuestionIndex s
  /\ TestSession.language s' = TestSession.language s.

(** The placeholder stored as the user's own key. *)
Definition placeholderStored : Env :=
  {| localStorage_CUSTOM_GEMINI_API_KEY := Some "MY_GEMINI_API_KEY";
     process_env_GEMINI_API_KEY := Some "real-key" |}.

Definition learningTrees : Forms :=
  {| learningLang := "python"; learningTopic := "Trees"; learningContent := "";
     expertQuery := "How do I explain trade-offs?"; expertResponse := "";
     loadingLearning := false; loadingExpert := false;
     customApiKey := "  user-key  " |}.

(** The import text is typed, the import runs, the user moves to the second
    question and switches to Python. *)
Definition importSession : list Event :=
  [EvSetView to_import;
   EvSetImportText threeTitles;
   EvImportQuestions "abc123xyz" threeReplies;
   EvNextQuestion;
   EvChangeLanguage python (payload tt)].

(** Without a key: the user tries a mock test, an import, a learning module
    and a question to the expert, and dismisses what comes up. *)
Definition keylessSession : list Event :=
  [EvStartMockTest "abc123xyz" "Trees" fiveReplies;
   EvCloseKeyModal;
   EvSetView to_import;
   EvSetImportText threeTitles;
   EvImportQuestions "abc123xyz" threeReplies;
   EvSetLearningTopic "Trees";
   EvStartLearning (payload tt);
   EvSetExpertQuery "How do I explain trade-offs?";
   EvAskExpert (payload tt);
   EvDismissError;
   EvReload;
   EvRunCode (payload timeLimitExceeded)].

(** ** The builds between their awaits *)

(** A build handler is an [async] function: at each [await] it gives the
    page back to the event loop, and whatever the page does before the reply
    arrives (other handlers, the arrivals of another build, a write of a
    session captured earlier) happens to the same state cells.
    [backgroundFill] above is the loop when nothing else runs meanwhile.
    Here [amid i] is what the rest of the page does to the world between
    the sending of the request for item [i] and the arrival of its reply;
    the updater [prev => ...] is applied to the session that is current
    when the reply arrives. *)
Fixpoint backgroundFillAmid (fetch : nat -> Svc Question.t)
    (amid : nat -> World -> World) (indices : list nat) (w : World)
    : World :=
  match indices with
  | [] => w
  | i :: rest =>
      let '(o, svc) := fetch i (service w) in
      let w := amid i {| app := app w; service := svc |} in
      backgroundFillAmid fetch amid rest
        match o with
        | Returns q =>
            {| app := setSession (appendQuestion q (session (app w))) (app w);
               service := service w |}
        | Throws err => w
        end
  end.

Definition handleStartMockTestAmid (env : Env) (sessionId : string)
    (topic : string) (replies : nat -> Reply Question.t)
    (amid : nat -> World -> World) (w : World) : World :=
  if apiKeyMissing (app w)
  then {| app := setShowKeyModal true (app w); service := service w |}
  else
    let st := setError None (setLoadingMockTest true (app w)) in
    let total := 5%nat in
    let '(o, svc) :=
      generateSingleQuestion env topic 0 total (replies 0%nat) (service w) in
    let w := amid 0%nat {| app := st; service := svc |} in
    match o with
    | Returns firstQuestion =>
        let st :=
          setLoadingMockTest false
            (setView view_test
               (setSession (Some (newSession sessionId firstQuestion))
                  (app w))) in
        backgroundFillAmid
          (fun i => generateSingleQuestion env topic i total (replies i))
          amid (seq 1 (total - 1))
          {| app := st; service := service w |}
    | Throws err =>
        {| app :=
             setLoadingMockTest false
               (setError
                  (Some (or_default (message_of err)
                           "Failed to generate test. Please try again."))
                  (app w));
           service := service w |}
    end.

Definition handleImportQuestionsAmid (env : Env) (sessionId : string)
    (replies : nat -> Reply Question.t) (amid : nat -> World -> World)
    (w : World) : World :=
  if apiKeyMissing (app w)
  then {| app := setShowKeyModal true (app w); service := service w |}
  else
    let titles := import_titles (importText (app w)) in
    if bool_decide (length titles = 0%nat) then w
    else
      let st := setError None (setLoadingImport true (app w)) in
      let total := length titles in
      let '(o, svc) :=
        fetchSingleQuestionByTitle env (title_at titles 0) 0 total
          (replies 0%nat) (service w) in
      let w := amid 0%nat {| app := st; service := svc |} in
      match o with
      | Returns firstQuestion =>
          let st :=
            setLoadingImport false
              (setView view_test
                 (setSession (Some (newSession sessionId firstQuestion))
                    (app w))) in
          backgroundFillAmid
            (fun i => fetchSingleQuestionByTitle env (title_at titles i) i
                        total (replies i))
            amid (seq 1 (total - 1))
            {| app := st; service := service w |}
      | Throws err =>
          {| app :=
               setLoadingImport false
                 (setError
                    (Some (or_default (message_of err)
                             "Failed to import questions. Please try again."))
                    (app w));
             service := service w |}
      end.

(** Nothing runs between the awaits. *)
Definition undisturbed : nat -> World -> World := fun _ w => w.

(** What runs between the awaits leaves the questions of the active session
    as they are: no other build creates a session or delivers into this
    one, and no handler writes back a session captured before an append. *)
Definition keeps_questions (f : World -> World) : Prop :=
  forall w,
    TestSession.questions <$> session (app (f w))
    = TestSession.questions <$> session (app w).

(** What runs between the awaits does not discard the client (the page is
    not reloaded). *)
Definition keeps_client (f : World -> World) : Prop :=
  forall w ai,
    aiInstance (service w) = Some ai ->
    aiInstance (service (f w)) = Some ai.

(** What runs between the awaits sends nothing. *)
Definition sends_nothing (f : World -> World) : Prop :=
  forall w, issued (service (f w)) = issued (service w).

(** What runs between the awaits only adds to the requests sent. *)
Definition only_sends (f : World -> World) : Prop :=
  forall w, exists more,
    issued (service (f w)) = issued (service w) ++ more.

(** While a reply is awaited the user types in the editor and moves to the
    next question. *)
Definition userEdits : nat -> World -> World :=
  fun _ w =>
    {| app := nextQuestion
                (state_after (updateCode (Some "return [];") (app w)) (app w));
       service := service w |}.

(** While the reply for the second title is awaited the user goes to the
    import page, enters one title and imports it; the provider answers that
    request at once. *)
Definition secondImport (w : World) : World :=
  handleImportQuestions withKey "second000"
    (fun _ => payload validParentheses)
    {| app := setImportText "Valid Parentheses"
                (setView view_import (setView view_home (app w)));
       service := service w |}.

Definition amidSecondImport (i : nat) : World -> World :=
  match i with
  | 1%nat => secondImport
  | _ => fun w => w
  end.

(** [updateCode] reads the [session] of the render in which the handler was
    created and writes with [setSession({...session, ...})]. Activated after
    an append and before the next render, it still holds the session from
    before the append: [updateCodeIn captured] is the handler with that
    session, and [updateCode] is [updateCodeIn] of the current one. *)
Definition updateCodeIn (captured : option TestSession.t)
    (newCode : option string) (st : State) : Outcome State :=
  match captured, newCode with
  | Some session, Some code =>
      if negb (truthy newCode) then Returns st
      else
        match at_index (TestSession.questions session)
                (TestSession.currentQuestionIndex session) with
        | None =>
            Throws (TypeError "Cannot read properties of undefined (reading 'id')")
        | Some currentQuestion =>
            let qId := Question.id currentQuestion in
            Returns
              (setSession
                 (Some (with_userCodes session
                          (<[ qId :=
                                <[ TestSession.language session := code ]>
                                  (default ∅
                                     (TestSession.userCodes session !! qId)) ]>
                             (TestSession.userCodes session))))
                 st)
        end
  | _, _ => Returns st
  end.

(** The user types a character right after the third generated question
    has been appended, in an editor that still holds the session of one
    question. *)
Definition staleEdit (i : nat) : World -> World :=
  match i with
  | 3%nat =>
      fun w =>
        {| app := state_after
                    (updateCodeIn (Some (newSession "abc123xyz" twoSum))
                       (Some "return [];") (app w))
                    (app w);
           service := service w |}
  | _ => fun w => w
  end.

(** * Properties *)

(** ** The facade *)

Lemma getAI_cached env s ai :
  aiInstance s = Some ai -> getAI env s = (Returns ai, s).
Proof. intros H. unfold getAI. by rewrite H. Qed.

Lemma getAI_returns env s ai s' :
  getAI env s = (Returns ai, s') ->
  aiInstance s' = Some ai /\ issued s' = issued s.
Proof.
  unfold getAI. destruct (aiInstance s) as [k|] eqn:Hk.
  - intros [= <- <-]. done.
  - destruct (or_else _ _) as [key|]; [|done].
    destruct (_ || _); [done|]. intros [= <- <-]. done.
Qed.

Lemma getAI_throws env s e s' :
  getAI env s = (Throws e, s') -> s' = s /\ e = Error "API_KEY_MISSING".
Proof.
  unfold getAI. destruct (aiInstance s); [done|].
  destruct (or_else _ _) as [key|]; [|by intros [= <- <-]].
  destruct (_ || _); [by intros [= <- <-]|done].
Qed.

Lemma getAI_no_credential env s :
  no_credential env -> aiInstance s = None ->
  getAI env s = (Throws (Error "API_KEY_MISSING"), s).
Proof.
  intros [Hlocal Henv] Hs. unfold getAI, or_else. rewrite Hs, Hlocal.
  destruct Henv as [Henv | ->]; [|done].
  destruct (process_env_GEMINI_API_KEY env) as [key|]; [|done].
  by rewrite Henv.
Qed.

(** The shape shared by the four JSON operations. *)
Lemma json_operation_run {A} env (request : Request) (reply : Reply A) s :
  try_catch
    (let! ai := getAI env in
     let! response := generateContent ai request reply in
     if negb (truthy (text response))
     then throw (Error "Empty response from AI")
     else complete (JSON_parse_text response))
    (fun error => throw error) s
  = match getAI env s with
    | (Returns ai, s') =>
        (outcome_of_reply reply,
         {| aiInstance := aiInstance s'; issued := issued s' ++ [request] |})
    | (Throws e, s') => (Throws e, s')
    end.
Proof.
  unfold try_catch, bind. destruct (getAI env s) as [[ai|e] s']; [|done].
  unfold generateContent. destruct reply as [response|reason]; [|done].
  simpl. unfold throw, complete.
  destruct (truthy (text response)); simpl; [|done].
  by destruct (JSON_parse_text response).
Qed.

Lemma outcome_of_reply_returns {A} (reply : Reply A) v :
  outcome_of_reply reply = Returns v <-> delivered reply = Some v.
Proof.
  destruct reply as [response|reason]; simpl; [|done].
  destruct (truthy (text response)); [|done].
  destruct (JSON_parse_text response); split; congruence.
Qed.

Lemma outcome_of_reply_throws {A} (reply : Reply A) :
  (exists e, outcome_of_reply reply = Throws e) <-> delivered reply = None.
Proof.
  destruct reply as [response|reason]; simpl; [|by split; eauto].
  destruct (truthy (text response)); [|by split; eauto].
  destruct (JSON_parse_text response); split; try done; eauto.
  by intros [? ?].
Qed.

Lemma generateMockTest_run env topic count reply s :
  generateMockTest env topic count reply s
  = match getAI env s with
    | (Returns ai, s') =>
        (outcome_of_reply reply,
         {| aiInstance := aiInstance s';
            issued := issued s' ++ [ReqGenerateMockTest topic count] |})
    | (Throws e, s') => (Throws e, s')
    end.
Proof. apply json_operation_run. Qed.

Lemma fetchSingleQuestionByTitle_run env title index total reply s :
  fetchSingleQuestionByTitle env title index total reply s
  = match getAI env s with
    | (Returns ai, s') =>
        (outcome_of_reply reply,
         {| aiInstance := aiInstance s';
            issued :=
              issued s' ++ [ReqFetchSingleQuestionByTitle title index total] |})
    | (Throws e, s') => (Throws e, s')
    end.
Proof. apply json_operation_run. Qed.

Lemma runCodeMock_run {Any} env code language question (reply : Reply Any) s :
  runCodeMock env code language question reply s
  = match getAI env s with
    | (Returns ai, s') =>
        (outcome_of_reply reply,
         {| aiInstance := aiInstance s';
            issued := issued s' ++ [ReqRunCodeMock code language question] |})
    | (Throws e, s') => (Throws e, s')
    end.
Proof. apply json_operation_run. Qed.

Lemma generateSingleQuestion_run env topic index total reply s :
  generateSingleQuestion env topic index total reply s
  = match getAI env s with
    | (Returns ai, s') =>
        (outcome_of_reply reply,
         {| aiInstance := aiInstance s';
            issued :=
              issued s' ++ [ReqGenerateSingleQuestion topic index total] |})
    | (Throws e, s') => (Throws e, s')
    end.
Proof. apply json_operation_run. Qed.

(** A JSON operation throws whenever the reply is unusable, and what it
    returns is the parsed payload. *)
Lemma json_completion {A} env (reply : Reply A) s (o : Outcome A) s1 R :
  match getAI env s with
  | (Returns ai, s') =>
      (outcome_of_reply reply,
       {| aiInstance := aiInstance s'; issued := issued s' ++ [R] |})
  | (Throws e, s') => (Throws e, s')
  end = (o, s1) ->
  (unusable reply -> exists e, o = Throws e)
  /\ (forall v, o = Returns v -> delivered reply = Some v).
Proof.
  destruct (getAI env s) as [[ai|e] s']; intros [= <- <-].
  - split.
    + intros H. by apply outcome_of_reply_throws.
    + intros v. apply outcome_of_reply_returns.
  - split; [eauto|done].
Qed.

Lemma translateSolution_total {A} env question lang (reply : Reply A) s :
  exists translation,
    fst (translateSolution env question lang reply s) = Returns translation.
Proof.
  unfold translateSolution, try_catch.
  destruct (bind _ _ s) as [[t|e] s']; simpl; eauto.
Qed.

Lemma translateSolution_rejected {A} env question lang reason s :
  fst (translateSolution env question lang (@Rejected A reason) s)
  = Returns "Failed to translate solution.".
Proof.
  unfold translateSolution, try_catch, bind.
  destruct question as [q|]; simpl; [|done].
  by destruct (getAI env s) as [[ai|e] s'].
Qed.

Lemma translateSolution_empty {A} env q lang (reply : Reply A) s ai :
  fst (getAI env s) = Returns ai -> answered_empty reply ->
  fst (translateSolution env (Some q) lang reply s)
  = Returns "Translation failed.".
Proof.
  intros Hai (response & -> & Hempty).
  unfold translateSolution, try_catch, bind. simpl.
  destruct (getAI env s) as [[k|e] s']; simpl in *; [|done].
  unfold or_default. destruct (text response); by rewrite ?Hempty.
Qed.

Lemma getLearningContent_run {A} env language topic (reply : Reply A) s :
  getLearningContent env language topic reply s
  = match getAI env s with
    | (Returns ai, s') =>
        (match reply with
         | Fulfilled response =>
             Returns (or_default (text response) "Failed to generate content.")
         | Rejected reason => Throws reason
         end,
         {| aiInstance := aiInstance s';
            issued := issued s' ++ [ReqGetLearningContent language topic] |})
    | (Throws e, s') => (Throws e, s')
    end.
Proof.
  unfold getLearningContent, try_catch, bind.
  destruct (getAI env s) as [[ai|e] s']; [|done].
  by destruct reply.
Qed.

Lemma getExpertAdvice_run {A} env message context (reply : Reply A) s :
  getExpertAdvice env message context reply s
  = match getAI env s with
    | (Returns ai, s') =>
        (match reply with
         | Fulfilled response =>
             Returns (or_default (text response)
                        "Expert is currently unavailable.")
         | Rejected reason => Throws reason
         end,
         {| aiInstance := aiInstance s';
            issued := issued s' ++ [ReqGetExpertAdvice message context] |})
    | (Throws e, s') => (Throws e, s')
    end.
Proof.
  unfold getExpertAdvice, try_catch, bind.
  destruct (getAI env s) as [[ai|e] s']; [|done].
  by destruct reply.
Qed.

Lemma or_default_falsy a d : truthy a = false -> or_default a d = d.
Proof. unfold or_default. destruct a; [|done]. by intros ->. Qed.

(** C2, counterexample. [translateSolution] is asked to translate while the
    provider rejects the request: the caller receives the string "Failed to
    translate solution." as an ordinary result, and no error. *)
Lemma translateSolution_hides_rejection :
  ~ (exists e,
       fst (translateSolution withKey (Some twoSum) "python"
              (Rejected (Error "503 Service Unavailable") : Reply unit)
              initialService)
       = Throws e).
Proof. intros [e He]. vm_compute in He. discriminate He. Qed.

(** C2, as amended. The four JSON operations ([generateMockTest],
    [fetchSingleQuestionByTitle], [runCodeMock], [generateSingleQuestion])
    throw whenever the request is rejected, the text is empty or the text
    does not parse, and what they return is the parsed payload, whole.
    [getLearningContent] and [getExpertAdvice] rethrow a rejection but
    replace an empty text by a fixed sentence, returned as a result.
    [translateSolution] never throws: a rejection (or any other exception)
    becomes "Failed to translate solution." and an empty text becomes
    "Translation failed.". *)
Theorem provider_failure_surfacing (env : Env) (s : Service) :
  (forall topic count reply,
      let o := fst (generateMockTest env topic count reply s) in
      (unusable reply -> exists e, o = Throws e)
      /\ (forall v, o = Returns v -> delivered reply = Some v))
  /\ (forall title index total reply,
      let o := fst (fetchSingleQuestionByTitle env title index total reply s) in
      (unusable reply -> exists e, o = Throws e)
      /\ (forall v, o = Returns v -> delivered reply = Some v))
  /\ (forall code lang question (reply : Reply JsValue),
      let o := fst (runCodeMock env code lang question reply s) in
      (unusable reply -> exists e, o = Throws e)
      /\ (forall v, o = Returns v -> delivered reply = Some v))
  /\ (forall topic index total reply,
      let o := fst (generateSingleQuestion env topic index total reply s) in
      (unusable reply -> exists e, o = Throws e)
      /\ (forall v, o = Returns v -> delivered reply = Some v))
  /\ (forall (A : Type) language topic reason,
      exists e,
        fst (getLearningContent env language topic (@Rejected A reason) s)
        = Throws e)
  /\ (forall (A : Type) language topic (reply : Reply A) ai,
      fst (getAI env s) = Returns ai -> answered_empty reply ->
      fst (getLearningContent env language topic reply s)
      = Returns "Failed to generate content.")
  /\ (forall (A : Type) message context reason,
      exists e,
        fst (getExpertAdvice env message context (@Rejected A reason) s)
        = Throws e)
  /\ (forall (A : Type) message context (reply : Reply A) ai,
      fst (getAI env s) = Returns ai -> answered_empty reply ->
      fst (getExpertAdvice env message context reply s)
      = Returns "Expert is currently unavailable.")
  /\ (forall (A : Type) question lang (reply : Reply A),
      exists translation,
        fst (translateSolution env question lang reply s)
        = Returns translation)
  /\ (forall (A : Type) question lang reason,
      fst (translateSolution env question lang (@Rejected A reason) s)
      = Returns "Failed to translate solution.")
  /\ (forall (A : Type) q lang (reply : Reply A) ai,
      fst (getAI env s) = Returns ai -> answered_empty reply ->
      fst (translateSolution env (Some q) lang reply s)
      = Returns "Translation failed.").
Proof.
  repeat apply conj.
  - intros topic count reply o. subst o. rewrite generateMockTest_run.
    destruct (match getAI env s with (Returns _, _) => _ | _ => _ end)
      as [o s1] eqn:E.
    exact (json_completion _ _ _ _ _ _ E).
  - intros title index total reply o. subst o.
    rewrite fetchSingleQuestionByTitle_run.
    destruct (match getAI env s with (Returns _, _) => _ | _ => _ end)
      as [o s1] eqn:E.
    exact (json_completion _ _ _ _ _ _ E).
  - intros code lang question reply o. subst o. rewrite runCodeMock_run.
    destruct (match getAI env s with (Returns _, _) => _ | _ => _ end)
      as [o s1] eqn:E.
    exact (json_completion _ _ _ _ _ _ E).
  - intros topic index total reply o. subst o.
    rewrite generateSingleQuestion_run.
    destruct (match getAI env s with (Returns _, _) => _ | _ => _ end)
      as [o s1] eqn:E.
    exact (json_completion _ _ _ _ _ _ E).
  - intros A language topic reason. rewrite getLearningContent_run.
    destruct (getAI env s) as [[ai|e] s']; simpl; eauto.
  - intros A language topic reply ai Hai (response & -> & Hempty).
    rewrite getLearningContent_run.
    destruct (getAI env s) as [[k|e] s']; simpl in *; [|done].
    by rewrite or_default_falsy.
  - intros A message context reason. rewrite getExpertAdvice_run.
    destruct (getAI env s) as [[ai|e] s']; simpl; eauto.
  - intros A message context reply ai Hai (response & -> & Hempty).
    rewrite getExpertAdvice_run.
    destruct (getAI env s) as [[k|e] s']; simpl in *; [|done].
    by rewrite or_default_falsy.
  - intros A question lang reply. apply translateSolution_total.
  - intros A question lang reason. apply translateSolution_rejected.
  - intros A q lang reply ai Hai Hempty.
    by apply translateSolution_empty with ai.
Qed.

(** An instance: the key is stored, the provider answers a run request with
    no text, and [runCodeMock] throws. *)
Lemma provider_failure_surfacing_witness :
  unusable (emptyPayload : Reply JsValue)
  /\ exists e,
       fst (runCodeMock withKey (Some "return 1;") python twoSum
              (emptyPayload : Reply JsValue) initialService)
       = Throws e.
Proof.
  split; [reflexivity|].
  apply (provider_failure_surfacing withKey initialService).
  reflexivity.
Defined.

(** C3, counterexample. Only the placeholder key is configured and no client
    exists yet; [translateSolution] does not fail with "API_KEY_MISSING": its
    [catch] turns the condition into the string "Failed to translate
    solution.". *)
Lemma translateSolution_hides_missing_key :
  no_credential placeholderOnly
  /\ aiInstance initialService = None
  /\ fst (translateSolution placeholderOnly (Some twoSum) "python"
            (payload tt) initialService)
     <> Throws (Error "API_KEY_MISSING").
Proof.
  split; [split; [reflexivity | right; reflexivity]|].
  split; [reflexivity|]. vm_compute. discriminate.
Qed.

(** The credential is read only when the client is created: once a client
    is memoised, an operation goes to the provider whatever the stored keys
    have become. *)
Lemma memoised_client_skips_check :
  let s := {| aiInstance := Some "user-key"; issued := [] |} in
  no_credential placeholderOnly
  /\ generateSingleQuestion placeholderOnly "Trees" 0 5 (payload twoSum) s
     = (Returns twoSum,
        {| aiInstance := Some "user-key";
           issued := [ReqGenerateSingleQuestion "Trees" 0 5] |}).
Proof. split; [split; [reflexivity | right; reflexivity] | reflexivity]. Qed.

(** C3, as amended. When no credential is present and no client has been
    memoised yet, no operation sends a request: the module state, and with
    it the list of issued requests, is unchanged. Every operation throws
    [Error "API_KEY_MISSING"], except [translateSolution], which returns
    "Failed to translate solution.". *)
Theorem missing_credential_fails_fast (env : Env) (s : Service)
    (Hcredential : no_credential env) (Hclient : aiInstance s = None) :
  (forall topic count reply,
      generateMockTest env topic count reply s
      = (Throws (Error "API_KEY_MISSING"), s))
  /\ (forall title index total reply,
      fetchSingleQuestionByTitle env title index total reply s
      = (Throws (Error "API_KEY_MISSING"), s))
  /\ (forall code lang question (reply : Reply JsValue),
      runCodeMock env code lang question reply s
      = (Throws (Error "API_KEY_MISSING"), s))
  /\ (forall topic index total reply,
      generateSingleQuestion env topic index total reply s
      = (Throws (Error "API_KEY_MISSING"), s))
  /\ (forall (A : Type) language topic (reply : Reply A),
      getLearningContent env language topic reply s
      = (Throws (Error "API_KEY_MISSING"), s))
  /\ (forall (A : Type) message context (reply : Reply A),
      getExpertAdvice env message context reply s
      = (Throws (Error "API_KEY_MISSING"), s))
  /\ (forall (A : Type) question lang (reply : Reply A),
      translateSolution env question lang reply s
      = (Returns "Failed to translate solution.", s)).
Proof.
  pose proof (getAI_no_credential env s Hcredential Hclient) as Hai.
  repeat apply conj; intros.
  - by rewrite generateMockTest_run, Hai.
  - by rewrite fetchSingleQuestionByTitle_run, Hai.
  - by rewrite runCodeMock_run, Hai.
  - by rewrite generateSingleQuestion_run, Hai.
  - by rewrite getLearningContent_run, Hai.
  - by rewrite getExpertAdvice_run, Hai.
  - unfold translateSolution, try_catch, bind.
    destruct question as [q|]; simpl; [|done]. by rewrite Hai.
Qed.

(** An instance: with only the placeholder configured, fetching a question
    by title fails before anything is sent. *)
Lemma missing_credential_fails_fast_witness :
  fetchSingleQuestionByTitle placeholderOnly "Two Sum" 0 3 (payload twoSum)
    initialService
  = (Throws (Error "API_KEY_MISSING"), initialService).
Proof.
  apply (missing_credential_fails_fast placeholderOnly initialService).
  - split; [reflexivity | right; reflexivity].
  - reflexivity.
Defined.

Lemma generateSingleQuestion_delivers env topic index total reply s q s' :
  generateSingleQuestion env topic index total reply s = (Returns q, s') ->
  delivers reply q.
Proof.
  rewrite generateSingleQuestion_run.
  destruct (getAI env s) as [[ai|e] s1]; [|done].
  intros [= H _]. by apply outcome_of_reply_returns.
Qed.

Lemma fetchSingleQuestionByTitle_delivers env title index total reply s q s' :
  fetchSingleQuestionByTitle env title index total reply s = (Returns q, s') ->
  delivers reply q.
Proof.
  rewrite fetchSingleQuestionByTitle_run.
  destruct (getAI env s) as [[ai|e] s1]; [|done].
  intros [= H _]. by apply outcome_of_reply_returns.
Qed.

(** ** Session invariants *)

Section SessionInvariant.
Variable P : Question.t -> Prop.
Variable I : TestSession.t -> Prop.

Hypothesis I_new : forall sessionId q, P q -> I (newSession sessionId q).
Hypothesis I_append : forall s q,
  P q -> I s ->
  I (with_userCodes
       (with_questions s (TestSession.questions s ++ [q]))
       (<[ Question.id q := Question.starterCode q ]>
          (TestSession.userCodes s))).
Hypothesis I_language : forall s lang, I s -> I (with_language s lang).
Hypothesis I_code : forall s q code,
  I s ->
  at_index (TestSession.questions s) (TestSession.currentQuestionIndex s)
  = Some q ->
  I (with_userCodes s
       (<[ Question.id q :=
             <[ TestSession.language s := code ]>
               (default ∅ (TestSession.userCodes s !! Question.id q)) ]>
          (TestSession.userCodes s))).
Hypothesis I_next : forall s,
  I s ->
  TestSession.currentQuestionIndex s < len (TestSession.questions s) - 1 ->
  I (with_currentQuestionIndex s (TestSession.currentQuestionIndex s + 1)).
Hypothesis I_prev : forall s,
  I s ->
  TestSession.currentQuestionIndex s > 0 ->
  I (with_currentQuestionIndex s (TestSession.currentQuestionIndex s - 1)).

Lemma appendQuestion_of_session q st :
  P q -> of_session I st ->
  of_session I (setSession (appendQuestion q (session st)) st).
Proof.
  intros Hq Hst s'. simpl. destruct (session st) as [s|] eqn:Hs; [|done].
  intros [= <-]. apply I_append; [done|]. by apply Hst.
Qed.

Lemma backgroundFill_of_session fetch indices w :
  (forall i s q s', fetch i s = (Returns q, s') -> P q) ->
  of_session I (app w) ->
  of_session I (app (backgroundFill fetch indices w)).
Proof.
  intros Hfetch. revert w.
  induction indices as [|i rest IH]; intros w Hw; simpl; [done|].
  destruct (fetch i (service w)) as [[q|e] svc] eqn:Hi.
  - apply IH. simpl. apply appendQuestion_of_session; [|done].
    by eapply Hfetch.
  - by apply IH.
Qed.

Lemma handleStartMockTest_of_session env sessionId topic replies w :
  (forall i q, delivers (replies i) q -> P q) ->
  of_session I (app w) ->
  of_session I (app (handleStartMockTest env sessionId topic replies w)).
Proof.
  intros Hreplies Hw. unfold handleStartMockTest.
  destruct (apiKeyMissing (app w)); [done|].
  destruct (generateSingleQuestion _ _ _ _ _ _) as [[q|e] svc] eqn:H0;
    [|done].
  apply backgroundFill_of_session.
  - intros i s q' s' Hi. apply (Hreplies i).
    by eapply generateSingleQuestion_delivers.
  - intros s. simpl. intros [= <-]. apply I_new, (Hreplies 0%nat).
    by eapply generateSingleQuestion_delivers.
Qed.

Lemma handleImportQuestions_of_session env sessionId replies w :
  (forall i q, delivers (replies i) q -> P q) ->
  of_session I (app w) ->
  of_session I (app (handleImportQuestions env sessionId replies w)).
Proof.
  intros Hreplies Hw. unfold handleImportQuestions.
  destruct (apiKeyMissing (app w)); [done|].
  case_bool_decide; [done|].
  destruct (fetchSingleQuestionByTitle _ _ _ _ _ _) as [[q|e] svc] eqn:H0;
    [|done].
  apply backgroundFill_of_session.
  - intros i s q' s' Hi. apply (Hreplies i).
    by eapply fetchSingleQuestionByTitle_delivers.
  - intros s. simpl. intros [= <-]. apply I_new, (Hreplies 0%nat).
    by eapply fetchSingleQuestionByTitle_delivers.
Qed.

Lemma handleTranslateSolution_session {A} env closure lang
    (reply : Reply A) w :
  session (app (handleTranslateSolution env closure lang reply w))
  = session (app w).
Proof.
  unfold handleTranslateSolution. destruct closure as [s|]; [|done].
  by destruct (translateSolution _ _ _ _ _) as [[t|e] svc].
Qed.

Lemma changeLanguage_session {A} env lang (reply : Reply A) w :
  session (app (changeLanguage env lang reply w))
  = (fun s => with_language s lang) <$> session (app w).
Proof.
  unfold changeLanguage. destruct (session (app w)) as [s|] eqn:Hs.
  - case_decide; [|done]. by rewrite handleTranslateSolution_session.
  - by rewrite Hs.
Qed.

Lemma changeLanguage_of_session {A} env lang (reply : Reply A) w :
  of_session I (app w) ->
  of_session I (app (changeLanguage env lang reply w)).
Proof.
  intros Hw s'. rewrite changeLanguage_session.
  destruct (session (app w)) as [s|] eqn:Hs; [|done].
  intros [= <-]. by apply I_language, Hw.
Qed.

Lemma updateCode_of_session newCode st :
  of_session I st ->
  of_session I (state_after (updateCode newCode st) st).
Proof.
  intros Hst. unfold updateCode.
  destruct (session st) as [s|] eqn:Hs; [|done].
  destruct newCode as [code|]; [|done].
  destruct (negb _); [done|].
  destruct (at_index _ _) as [q|] eqn:Hq; [|done].
  simpl. intros s' [= <-]. apply I_code; [by apply Hst|done].
Qed.

Lemma nextQuestion_of_session st :
  of_session I st -> of_session I (nextQuestion st).
Proof.
  intros Hst. unfold nextQuestion.
  destruct (session st) as [s|] eqn:Hs; [|done].
  case_decide; [done|]. simpl. intros s' [= <-].
  apply I_next; [by apply Hst|lia].
Qed.

Lemma prevQuestion_of_session st :
  of_session I st -> of_session I (prevQuestion st).
Proof.
  intros Hst. unfold prevQuestion.
  destruct (session st) as [s|] eqn:Hs; [|done].
  case_decide; [done|]. simpl. intros s' [= <-].
  apply I_prev; [by apply Hst|lia].
Qed.

Lemma handleRunCode_session env reply w :
  session (app (state_after (handleRunCode env reply w) w))
  = session (app w).
Proof.
  unfold handleRunCode. destruct (apiKeyMissing (app w)); [done|].
  destruct (session (app w)) as [s|] eqn:Hs; [|by rewrite ?Hs].
  destruct (at_index _ _) as [q|]; [|by rewrite ?Hs].
  destruct (_ !! _) as [buffers|]; [|by rewrite ?Hs].
  by destruct (runCodeMock _ _ _ _ _ _) as [[r|e] svc].
Qed.

Lemma step_of_session env w w' :
  step P env w w' -> of_session I (app w) -> of_session I (app w').
Proof.
  intros Hstep Hw.
  destruct Hstep as [| | | | | | | |w w' Hsame]; simpl.
  - by apply handleStartMockTest_of_session.
  - by apply handleImportQuestions_of_session.
  - by apply appendQuestion_of_session.
  - by apply changeLanguage_of_session.
  - by apply updateCode_of_session.
  - by apply nextQuestion_of_session.
  - by apply prevQuestion_of_session.
  - intros s. rewrite handleRunCode_session. apply Hw.
  - intros s. rewrite Hsame. apply Hw.
Qed.

Lemma reachable_of_session env w :
  reachable P env w -> of_session I (app w).
Proof.
  induction 1 as [|w w' _ IH Hstep].
  - intros s. unfold mounted, checkApiKey. simpl.
    by destruct (_ && _).
  - by eapply step_of_session.
Qed.
End SessionInvariant.

(** *** The current index *)

Lemma len_app_one {A} (l : list A) x : len (l ++ [x]) = len l + 1.
Proof. unfold len. rewrite length_app. simpl. lia. Qed.

Lemma index_valid_new sessionId q : index_valid (newSession sessionId q).
Proof. unfold index_valid, len. simpl. lia. Qed.

Lemma index_valid_append s q :
  index_valid s ->
  index_valid
    (with_userCodes
       (with_questions s (TestSession.questions s ++ [q]))
       (<[ Question.id q := Question.starterCode q ]>
          (TestSession.userCodes s))).
Proof. unfold index_valid. simpl. rewrite len_app_one. lia. Qed.

Lemma reachable_index_valid env w :
  reachable (fun _ => True) env w -> of_session index_valid (app w).
Proof.
  apply reachable_of_session.
  - intros. apply index_valid_new.
  - intros. by apply index_valid_append.
  - done.
  - done.
  - unfold index_valid. simpl. lia.
  - unfold index_valid. simpl. lia.
Qed.

Lemma nextQuestion_at_last st s :
  session st = Some s ->
  TestSession.currentQuestionIndex s = len (TestSession.questions s) - 1 ->
  nextQuestion st = st.
Proof.
  intros Hs Hlast. unfold nextQuestion. rewrite Hs.
  case_decide; [done|lia].
Qed.

Lemma prevQuestion_at_first st s :
  session st = Some s ->
  TestSession.currentQuestionIndex s = 0 ->
  prevQuestion st = st.
Proof.
  intros Hs Hfirst. unfold prevQuestion. rewrite Hs.
  case_decide; [done|lia].
Qed.

(** C7. [nextQuestion] at the last index and [prevQuestion] at index 0
    leave the whole state as it is, and in every state the application can
    reach the current index of the session lies between 0 and
    [questions.length - 1]. *)
Theorem currentQuestionIndex_stays_valid :
  (forall st s,
      session st = Some s ->
      TestSession.currentQuestionIndex s = len (TestSession.questions s) - 1 ->
      nextQuestion st = st)
  /\ (forall st s,
      session st = Some s ->
      TestSession.currentQuestionIndex s = 0 ->
      prevQuestion st = st)
  /\ (forall env w s,
      reachable (fun _ => True) env w ->
      session (app w) = Some s ->
      0 <= TestSession.currentQuestionIndex s
        <= len (TestSession.questions s) - 1).
Proof.
  split; [exact nextQuestion_at_last|].
  split; [exact prevQuestion_at_first|].
  intros env w s Hw Hs.
  pose proof (reachable_index_valid env w Hw s Hs) as Hvalid.
  unfold index_valid in Hvalid. lia.
Qed.

Lemma practising_reachable : reachable (fun _ => True) withKey practising.
Proof.
  eapply reachable_step.
  - eapply reachable_step; [apply reachable_mounted|].
    apply (step_elsewhere _ _ _
             {| app := setImportText
                         ("Two Sum" +:+ String newline "Reverse Linked List")
                         (app (mounted withKey));
                service := service (mounted withKey) |}).
    reflexivity.
  - apply (step_import _ withKey "abc123xyz"
             (fun i => match i with
                       | 0%nat => payload twoSum
                       | _ => payload reverseLinkedList
                       end)).
    done.
Qed.

(** An instance, on a session of two questions: stepping back from the
    first, stepping forward from the second, and the bounds of the index. *)
Lemma currentQuestionIndex_stays_valid_witness :
  prevQuestion (app practising) = app practising
  /\ nextQuestion (nextQuestion (app practising))
     = nextQuestion (app practising)
  /\ exists s,
       session (app practising) = Some s
       /\ 0 <= TestSession.currentQuestionIndex s
            <= len (TestSession.questions s) - 1.
Proof.
  destruct currentQuestionIndex_stays_valid as (Hnext & Hprev & Hvalid).
  split; [|split].
  - eapply Hprev.
    + vm_compute. reflexivity.
    + reflexivity.
  - eapply Hnext.
    + vm_compute. reflexivity.
    + reflexivity.
  - eexists. split; [vm_compute; reflexivity|].
    eapply (Hvalid withKey practising).
    + exact practising_reachable.
    + vm_compute. reflexivity.
Defined.

(** *** The code buffers *)

Lemma all_four_insert lang code buffers :
  all_four buffers -> all_four (<[ lang := code ]> buffers).
Proof.
  intros H l. destruct (decide (lang = l)) as [->|Hne].
  - rewrite lookup_insert_eq. eauto.
  - rewrite lookup_insert_ne by done. apply H.
Qed.

Lemma seeded_new sessionId q : seeded (newSession sessionId q) q.
Proof.
  intros lang. unfold buffer. simpl. by rewrite lookup_singleton_eq.
Qed.

Lemma seeded_append s q :
  seeded
    (with_userCodes
       (with_questions s (TestSession.questions s ++ [q]))
       (<[ Question.id q := Question.starterCode q ]>
          (TestSession.userCodes s)))
    q.
Proof.
  intros lang. unfold buffer. simpl. by rewrite lookup_insert_eq.
Qed.

Lemma codes_complete_new sessionId q :
  typed q -> codes_complete (newSession sessionId q).
Proof.
  intros Hq q' Hin. simpl in Hin. apply list_elem_of_singleton in Hin as ->.
  exists (Question.starterCode q). simpl. by rewrite lookup_singleton_eq.
Qed.

Lemma codes_complete_append s q :
  typed q -> codes_complete s ->
  codes_complete
    (with_userCodes
       (with_questions s (TestSession.questions s ++ [q]))
       (<[ Question.id q := Question.starterCode q ]>
          (TestSession.userCodes s))).
Proof.
  intros Hq Hs q' Hin. simpl in *.
  destruct (decide (Question.id q = Question.id q')) as [Heq|Hne].
  - exists (Question.starterCode q). by rewrite <- Heq, lookup_insert_eq.
  - rewrite lookup_insert_ne by done. apply Hs.
    apply elem_of_app in Hin as [Hin|Hin]; [done|].
    apply list_elem_of_singleton in Hin. by subst.
Qed.

Lemma codes_complete_code s q code :
  codes_complete s ->
  codes_complete
    (with_userCodes s
       (<[ Question.id q :=
             <[ TestSession.language s := code ]>
               (default ∅ (TestSession.userCodes s !! Question.id q)) ]>
          (TestSession.userCodes s))).
Proof.
  intros Hs q' Hin. simpl in *.
  destruct (Hs q' Hin) as (buffers & Hlookup & Hfour).
  destruct (decide (Question.id q = Question.id q')) as [Heq|Hne].
  - rewrite Heq, lookup_insert_eq, Hlookup. simpl.
    eexists. split; [done|]. by apply all_four_insert.
  - rewrite lookup_insert_ne by done. eauto.
Qed.

Lemma reachable_codes_complete env w :
  reachable typed env w -> of_session codes_complete (app w).
Proof.
  apply reachable_of_session.
  - intros. by apply codes_complete_new.
  - intros. by apply codes_complete_append.
  - done.
  - intros. by apply codes_complete_code.
  - done.
  - done.
Qed.

(** C5. Every handler that writes the session keeps the property that each
    question of the session has an entry in [userCodes] with all four
    buffers, provided the questions that enter are typed as declared; hence
    the property holds in every reachable state. When a question enters the
    session, by creation or by append, its buffers read back as its starter
    code, language by language. *)
Theorem code_buffers_invariant :
  (forall sessionId q,
      typed q ->
      codes_complete (newSession sessionId q)
      /\ seeded (newSession sessionId q) q)
  /\ (forall s q s',
      typed q -> codes_complete s ->
      appendQuestion q (Some s) = Some s' ->
      codes_complete s' /\ seeded s' q)
  /\ (forall (A : Type) env lang (reply : Reply A) w,
      of_session codes_complete (app w) ->
      of_session codes_complete (app (changeLanguage env lang reply w)))
  /\ (forall newCode st,
      of_session codes_complete st ->
      of_session codes_complete (state_after (updateCode newCode st) st))
  /\ (forall st,
      of_session codes_complete st ->
      of_session codes_complete (nextQuestion st)
      /\ of_session codes_complete (prevQuestion st))
  /\ (forall env w,
      reachable typed env w -> of_session codes_complete (app w)).
Proof.
  repeat apply conj.
  - intros sessionId q Hq. split.
    + by apply codes_complete_new.
    + apply seeded_new.
  - intros s q s' Hq Hs [= <-]. split.
    + by apply codes_complete_append.
    + apply seeded_append.
  - intros A env lang reply w.
    by apply changeLanguage_of_session.
  - intros newCode st. apply updateCode_of_session.
    intros. by apply codes_complete_code.
  - intros st Hst. split.
    + by apply nextQuestion_of_session.
    + by apply prevQuestion_of_session.
  - apply reachable_codes_complete.
Qed.

Lemma typed_sampleQuestion qId qTitle : typed (sampleQuestion qId qTitle).
Proof. intros []; vm_compute; eauto. Qed.

(** An instance: a session created around "Two Sum", then "Reverse Linked
    List" appended. *)
Lemma code_buffers_invariant_witness :
  match appendQuestion reverseLinkedList
          (Some (newSession "abc123xyz" twoSum)) with
  | Some s' => codes_complete s' /\ seeded s' reverseLinkedList
  | None => False
  end.
Proof.
  cbn [appendQuestion].
  apply (proj1 (proj2 code_buffers_invariant)
           (newSession "abc123xyz" twoSum) reverseLinkedList).
  - intros []; vm_compute; eauto.
  - apply (proj1 code_buffers_invariant "abc123xyz" twoSum).
    intros []; vm_compute; eauto.
  - reflexivity.
Defined.

(** *** Switching the language *)

(** C8. [changeLanguage] replaces the [language] field of the session and
    nothing else in it: the identifier, the questions, the current index and
    every code buffer are those of the session before. *)
Theorem changeLanguage_touches_language_only (A : Type) (env : Env)
    (lang : Language) (reply : Reply A) (w : World) :
  let after := session (app (changeLanguage env lang reply w)) in
  let before := session (app w) in
  TestSession.language <$> after = (fun _ => lang) <$> before
  /\ TestSession.userCodes <$> after = TestSession.userCodes <$> before
  /\ TestSession.questions <$> after = TestSession.questions <$> before
  /\ TestSession.currentQuestionIndex <$> after
     = TestSession.currentQuestionIndex <$> before
  /\ TestSession.id <$> after = TestSession.id <$> before
  /\ (forall qId l,
        (fun s => buffer s qId l) <$> after
        = (fun s => buffer s qId l) <$> before).
Proof.
  intros after before. subst after before. rewrite changeLanguage_session.
  destruct (session (app w)) as [s|]; simpl; [|done].
  repeat split.
Qed.

(** *** Editing the code *)

Lemma updateCode_falsy newCode st :
  truthy newCode = false -> updateCode newCode st = Returns st.
Proof.
  intros H. unfold updateCode. destruct (session st); [|done].
  destruct newCode; [|done]. by rewrite H.
Qed.

(** C9. Writing the same code a second time changes nothing: on the state
    left by [updateCode newCode], [updateCode newCode] completes as it did
    the first time, with the same state. *)
Theorem updateCode_idempotent (newCode : option string) (st : State) :
  updateCode newCode (state_after (updateCode newCode st) st)
  = updateCode newCode st.
Proof.
  destruct (updateCode newCode st) as [st1|e] eqn:H1; simpl; [|done].
  revert H1. unfold updateCode.
  destruct (session st) as [s|] eqn:Hs.
  2:{ intros [= <-]. by rewrite Hs. }
  destruct newCode as [code|].
  2:{ intros [= <-]. by rewrite Hs. }
  destruct (negb (truthy (Some code))) eqn:Hcode.
  { intros [= <-]. by rewrite Hs. }
  destruct (at_index _ _) as [q|] eqn:Hq; [|done].
  intros [= <-]. simpl. rewrite Hq. simpl.
  rewrite lookup_insert_eq. simpl.
  by rewrite !insert_insert_eq.
Qed.

(** C10. [updateCode] with an absent or empty [newCode] returns without an
    exception and leaves the state as it is; so a buffer that is empty after
    [updateCode] was already empty before it. *)
Theorem updateCode_ignores_empty (newCode : option string) (st : State) :
  (truthy newCode = false -> updateCode newCode st = Returns st)
  /\ (forall st' s' qId lang,
        updateCode newCode st = Returns st' ->
        session st' = Some s' ->
        buffer s' qId lang = Some "" ->
        exists s, session st = Some s /\ buffer s qId lang = Some "").
Proof.
  split; [apply updateCode_falsy|].
  intros st' s' qId lang. unfold updateCode.
  destruct (session st) as [s|] eqn:Hs.
  2:{ intros [= <-]. by rewrite Hs. }
  destruct newCode as [code|].
  2:{ intros [= <-]. rewrite Hs. intros [= <-]. eauto. }
  destruct (negb (truthy (Some code))) eqn:Hcode.
  { intros [= <-]. rewrite Hs. intros [= <-]. eauto. }
  destruct (at_index _ _) as [q|]; [|done].
  intros [= <-]. simpl. intros [= <-]. unfold buffer. simpl.
  intros Hempty. exists s. split; [done|].
  destruct (decide (Question.id q = qId)) as [<-|Hne].
  - rewrite lookup_insert_eq in Hempty. simpl in Hempty.
    destruct (decide (TestSession.language s = lang)) as [<-|Hl].
    + rewrite lookup_insert_eq in Hempty. injection Hempty as ->.
      simpl in Hcode. done.
    + rewrite lookup_insert_ne in Hempty by done.
      destruct (TestSession.userCodes s !! Question.id q); simpl in *; [done|].
      by rewrite lookup_empty in Hempty.
  - by rewrite lookup_insert_ne in Hempty.
Qed.

(** An instance: clearing the editor in a running session. *)
Lemma updateCode_ignores_empty_witness :
  updateCode (Some "") (app practising) = Returns (app practising).
Proof.
  apply (proj1 (updateCode_ignores_empty (Some "") (app practising))).
  reflexivity.
Defined.

(** ** The incremental build *)

Lemma StronglySorted_seq a n : StronglySorted lt (seq a n).
Proof.
  revert a. induction n as [|n IH]; intros a; simpl; constructor.
  - apply IH.
  - apply Forall_seq. intros j Hj. unfold lt. lia.
Qed.

Lemma omap_in_order {A} (f : nat -> option A) (l : list nat) :
  StronglySorted lt l ->
  exists indices,
    StronglySorted lt indices
    /\ (forall i, i ∈ indices <-> i ∈ l /\ is_Some (f i))
    /\ Forall2 (fun i q => f i = Some q) indices (omap f l).
Proof.
  induction 1 as [|a l Hl IH Ha]; simpl.
  - exists []. split; [constructor|]. split; [|constructor].
    intros i. rewrite !elem_of_nil. tauto.
  - destruct IH as (indices & Hsorted & Hmem & Hall).
    destruct (f a) as [q|] eqn:Hfa.
    + exists (a :: indices). split; [|split].
      * constructor; [done|]. apply Forall_forall. intros i Hi.
        apply Hmem in Hi as [Hi _]. rewrite Forall_forall in Ha. by apply Ha.
      * intros i. rewrite !elem_of_cons, Hmem. split.
        -- intros [->|[? ?]]; [|by auto]. split; [by left|]. by rewrite Hfa.
        -- intros [[->|?] ?]; auto.
      * by constructor.
    + exists indices. split; [done|]. split; [|done].
      intros i. rewrite elem_of_cons, Hmem. split.
      * intros [? ?]. auto.
      * intros [[->|?] Hsome]; [|done]. rewrite Hfa in Hsome.
        by destruct Hsome.
Qed.

Lemma successes_in_request_order replies n :
  in_request_order replies n (successes replies n).
Proof.
  destruct (omap_in_order (fun i => delivered (replies i)) (seq 0 n)
              (StronglySorted_seq 0 n)) as (indices & Hsorted & Hmem & Hall).
  exists indices. split; [done|]. split; [|done].
  intros i. rewrite Hmem, elem_of_seq. split; intros [? ?]; split; (done || lia).
Qed.

(** The background loop, once a client is memoised: each iteration sends one
    request and appends the question of a usable reply. *)
Section BackgroundFill.
Variable fetch : nat -> Svc Question.t.
Variable replies : nat -> Reply Question.t.
Variable request : nat -> Request.

Hypothesis fetch_run : forall i s ai,
  aiInstance s = Some ai ->
  fetch i s
  = (outcome_of_reply (replies i),
     {| aiInstance := aiInstance s; issued := issued s ++ [request i] |}).

Lemma backgroundFill_run indices : forall w s ai,
  aiInstance (service w) = Some ai ->
  session (app w) = Some s ->
  exists s',
    session (app (backgroundFill fetch indices w)) = Some s'
    /\ TestSession.questions s'
       = TestSession.questions s
         ++ omap (fun i => delivered (replies i)) indices
    /\ issued (service (backgroundFill fetch indices w))
       = issued (service w) ++ (request <$> indices)
    /\ view (app (backgroundFill fetch indices w)) = view (app w).
Proof.
  induction indices as [|i rest IH]; intros w s ai Hai Hs; simpl.
  - exists s. by rewrite !app_nil_r.
  - rewrite (fetch_run i _ ai Hai).
    destruct (outcome_of_reply (replies i)) as [q|e] eqn:Hi.
    + apply outcome_of_reply_returns in Hi. rewrite Hi.
      edestruct (IH {| app := setSession (appendQuestion q (session (app w)))
                                (app w);
                       service := {| aiInstance := aiInstance (service w);
                                     issued := issued (service w)
                                               ++ [request i] |} |})
        as (s' & Hs' & Hq & Hissued & Hview);
        [exact Hai | simpl; by rewrite Hs |].
      exists s'. split; [done|]. simpl in *.
      rewrite Hq, Hissued, Hview, <- !(assoc_L (++)). done.
    + assert (delivered (replies i) = None) as ->
        by (apply outcome_of_reply_throws; eauto).
      edestruct (IH {| app := app w;
                       service := {| aiInstance := aiInstance (service w);
                                     issued := issued (service w)
                                               ++ [request i] |} |})
        as (s' & Hs' & Hq & Hissued & Hview); [exact Hai | exact Hs |].
      exists s'. split; [done|]. simpl in *.
      rewrite Hq, Hissued, Hview, <- !(assoc_L (++)). done.
Qed.
End BackgroundFill.

Lemma generateSingleQuestion_cached env topic total replies i s ai :
  aiInstance s = Some ai ->
  generateSingleQuestion env topic i total (replies i) s
  = (outcome_of_reply (replies i),
     {| aiInstance := aiInstance s;
        issued := issued s ++ [ReqGenerateSingleQuestion topic i total] |}).
Proof.
  intros Hai. by rewrite generateSingleQuestion_run, (getAI_cached _ _ ai).
Qed.

Lemma fetchSingleQuestionByTitle_cached env titles total replies i s ai :
  aiInstance s = Some ai ->
  fetchSingleQuestionByTitle env (title_at titles i) i total (replies i) s
  = (outcome_of_reply (replies i),
     {| aiInstance := aiInstance s;
        issued := issued s
                  ++ [ReqFetchSingleQuestionByTitle (title_at titles i) i
                        total] |}).
Proof.
  intros Hai.
  by rewrite fetchSingleQuestionByTitle_run, (getAI_cached _ _ ai).
Qed.

(** What the first fetch leaves behind when it returns. *)
Lemma first_fetch_returns {A} env (reply : Reply A) s R o s1 (v : A) :
  match getAI env s with
  | (Returns ai, s') =>
      (outcome_of_reply reply,
       {| aiInstance := aiInstance s'; issued := issued s' ++ [R] |})
  | (Throws e, s') => (Throws e, s')
  end = (o, s1) ->
  o = Returns v ->
  delivered reply = Some v
  /\ (exists ai, aiInstance s1 = Some ai)
  /\ issued s1 = issued s ++ [R].
Proof.
  destruct (getAI env s) as [[ai|e] s'] eqn:Hai; intros [= <- <-] Ho;
    [|done].
  apply getAI_returns in Hai as [Hai Hissued]. simpl.
  split; [by apply outcome_of_reply_returns|].
  split; [eauto|]. by rewrite Hissued.
Qed.

Lemma successes_after_first replies q0 n :
  delivered (replies 0%nat) = Some q0 ->
  [q0] ++ omap (fun i => delivered (replies i)) (seq 1 n)
  = successes replies (S n).
Proof. intros H0. unfold successes. simpl. by rewrite H0. Qed.

(** The build with nothing else happening at its awaits. When its first
    fetch returns it ends with a session whose questions are those of the
    successful fetches among its [N] items, one for each, by increasing
    index of the request; a background fetch that fails contributes nothing
    and does not stop the loop. [N] is 5 for [handleStartMockTest] and the
    number of non-blank lines of the import text for
    [handleImportQuestions]. The build with the rest of the page at work
    between its awaits is treated further down. *)
Theorem incremental_build_questions (env : Env) (sessionId : string)
    (replies : nat -> Reply Question.t) (w : World)
    (Hkey : apiKeyMissing (app w) = false) :
  (forall topic q0,
      fst (generateSingleQuestion env topic 0 5 (replies 0%nat) (service w))
      = Returns q0 ->
      exists s',
        session (app (handleStartMockTest env sessionId topic replies w))
        = Some s'
        /\ TestSession.questions s' = successes replies 5
        /\ in_request_order replies 5 (TestSession.questions s'))
  /\ (forall q0,
      let titles := import_titles (importText (app w)) in
      titles <> [] ->
      fst (fetchSingleQuestionByTitle env (title_at titles 0) 0
             (length titles) (replies 0%nat) (service w))
      = Returns q0 ->
      exists s',
        session (app (handleImportQuestions env sessionId replies w))
        = Some s'
        /\ TestSession.questions s' = successes replies (length titles)
        /\ in_request_order replies (length titles)
             (TestSession.questions s')).
Proof.
  split.
  - intros topic q0 H0. unfold handleStartMockTest. rewrite Hkey.
    destruct (generateSingleQuestion _ _ _ _ _ _) as [o svc] eqn:Hfirst.
    simpl in H0. subst o. rewrite generateSingleQuestion_run in Hfirst.
    destruct (first_fetch_returns _ _ _ _ _ _ _ Hfirst eq_refl)
      as (Hq0 & [ai Hai] & _).
    assert (forall i s k, aiInstance s = Some k ->
              generateSingleQuestion env topic i 5 (replies i) s
              = (outcome_of_reply (replies i),
                 {| aiInstance := aiInstance s;
                    issued := issued s
                              ++ [ReqGenerateSingleQuestion topic i 5] |}))
      as Hrun.
    { intros i s k Hk. by apply generateSingleQuestion_cached with k. }
    match goal with
    | |- context [backgroundFill ?f ?l ?w0] =>
        destruct (backgroundFill_run f replies _ Hrun l w0
                    (newSession sessionId q0) ai Hai eq_refl)
          as (s' & Hs' & Hquestions & _)
    end.
    exists s'. split; [exact Hs'|].
    assert (TestSession.questions s' = successes replies 5) as ->.
    { rewrite Hquestions. by apply successes_after_first. }
    split; [done|]. apply successes_in_request_order.
  - intros q0 titles Htitles H0. unfold handleImportQuestions.
    rewrite Hkey. fold titles.
    destruct (length titles) as [|n] eqn:Hlen.
    { by destruct titles. }
    rewrite bool_decide_eq_false_2 by done.
    destruct (fetchSingleQuestionByTitle _ _ _ _ _ _) as [o svc] eqn:Hfirst.
    simpl in H0. subst o. rewrite fetchSingleQuestionByTitle_run in Hfirst.
    destruct (first_fetch_returns _ _ _ _ _ _ _ Hfirst eq_refl)
      as (Hq0 & [ai Hai] & _).
    assert (forall i s k, aiInstance s = Some k ->
              fetchSingleQuestionByTitle env (title_at titles i) i (S n)
                (replies i) s
              = (outcome_of_reply (replies i),
                 {| aiInstance := aiInstance s;
                    issued := issued s
                              ++ [ReqFetchSingleQuestionByTitle
                                    (title_at titles i) i (S n)] |}))
      as Hrun.
    { intros i s k Hk. by apply fetchSingleQuestionByTitle_cached with k. }
    match goal with
    | |- context [backgroundFill ?f ?l ?w0] =>
        destruct (backgroundFill_run f replies _ Hrun l w0
                    (newSession sessionId q0) ai Hai eq_refl)
          as (s' & Hs' & Hquestions & _)
    end.
    exists s'. split; [exact Hs'|].
    assert (TestSession.questions s' = successes replies (S n)) as ->.
    { rewrite Hquestions. simpl. rewrite Nat.sub_0_r.
      by apply successes_after_first. }
    split; [done|]. apply successes_in_request_order.
Qed.

(** An instance, the scenario of the specification: three titles, the
    provider answers for the first and the third and rejects the second. *)
Lemma incremental_build_questions_witness :
  (exists s',
      session (app (handleImportQuestions withKey "abc123xyz" threeReplies
                      importing))
      = Some s'
      /\ TestSession.questions s' = [twoSum; reverseLinkedList])
  /\ (exists s',
      session (app (handleStartMockTest withKey "abc123xyz" "Stacks"
                      fiveReplies atHome))
      = Some s'
      /\ TestSession.questions s'
         = [twoSum; reverseLinkedList; validParentheses]).
Proof.
  split.
  - destruct (proj2 (incremental_build_questions withKey "abc123xyz"
                       threeReplies importing eq_refl) twoSum)
      as (s' & Hs' & Hquestions & _).
    + vm_compute. discriminate.
    + reflexivity.
    + exists s'. split; [exact Hs'|]. rewrite Hquestions. reflexivity.
  - destruct (proj1 (incremental_build_questions withKey "abc123xyz"
                       fiveReplies atHome eq_refl) "Stacks" twoSum)
      as (s' & Hs' & Hquestions & _).
    + reflexivity.
    + exists s'. split; [exact Hs'|]. rewrite Hquestions. reflexivity.
Defined.

(** The same scenario, by evaluation of the handler. *)
Example three_titles_scenario :
  (fun s => Question.title <$> TestSession.questions s)
    <$> session (app (handleImportQuestions withKey "abc123xyz" threeReplies
                        importing))
  = Some ["Two Sum"; "Reverse Linked List"].
Proof. vm_compute. reflexivity. Qed.

(** What the first fetch leaves behind when it throws. *)
Lemma first_fetch_throws {A} env (reply : Reply A) s R o s1 e :
  match getAI env s with
  | (Returns ai, s') =>
      (outcome_of_reply reply,
       {| aiInstance := aiInstance s'; issued := issued s' ++ [R] |})
  | (Throws e, s') => (Throws e, s')
  end = (o, s1) ->
  o = Throws e ->
  issued s1 = issued s ++ [] \/ issued s1 = issued s ++ [R].
Proof.
  destruct (getAI env s) as [[ai|e'] s'] eqn:Hai; intros [= <- <-] Ho.
  - right. apply getAI_returns in Hai as [_ Hissued]. simpl.
    by rewrite Hissued.
  - left. apply getAI_throws in Hai as [-> _]. by rewrite app_nil_r.
Qed.

(** C4. When the fetch of item 0 throws, the handler stores the message of
    the exception (or its own sentence when there is none) in [error],
    clears its loading flag, and leaves the session and the view as they
    were; the only request it can have sent is the one for item 0. *)
Theorem failed_first_fetch_aborts (env : Env) (sessionId : string)
    (replies : nat -> Reply Question.t) (w : World)
    (Hkey : apiKeyMissing (app w) = false) :
  (forall topic err,
      fst (generateSingleQuestion env topic 0 5 (replies 0%nat) (service w))
      = Throws err ->
      let w' := handleStartMockTest env sessionId topic replies w in
      error (app w')
      = Some (or_default (message_of err)
                "Failed to generate test. Please try again.")
      /\ session (app w') = session (app w)
      /\ view (app w') = view (app w)
      /\ loadingMockTest (app w') = false
      /\ exists rs,
           sent_since w w' rs /\ forall r, r ∈ rs -> item_of r = Some 0%nat)
  /\ (forall err,
      let titles := import_titles (importText (app w)) in
      titles <> [] ->
      fst (fetchSingleQuestionByTitle env (title_at titles 0) 0
             (length titles) (replies 0%nat) (service w))
      = Throws err ->
      let w' := handleImportQuestions env sessionId replies w in
      error (app w')
      = Some (or_default (message_of err)
                "Failed to import questions. Please try again.")
      /\ session (app w') = session (app w)
      /\ view (app w') = view (app w)
      /\ loadingImport (app w') = false
      /\ exists rs,
           sent_since w w' rs /\ forall r, r ∈ rs -> item_of r = Some 0%nat).
Proof.
  split.
  - intros topic err H0 w'. subst w'. unfold handleStartMockTest.
    rewrite Hkey.
    destruct (generateSingleQuestion _ _ _ _ _ _) as [o svc] eqn:Hfirst.
    simpl in H0. subst o. simpl. repeat split.
    rewrite generateSingleQuestion_run in Hfirst.
    unfold sent_since. simpl.
    destruct (first_fetch_throws _ _ _ _ _ _ _ Hfirst eq_refl) as [H|H];
      eexists; (split; [exact H|]); intros r Hr.
    + by apply elem_of_nil in Hr.
    + by apply list_elem_of_singleton in Hr as ->.
  - intros err titles Htitles H0 w'. subst w'. unfold handleImportQuestions.
    rewrite Hkey. fold titles.
    rewrite bool_decide_eq_false_2 by (by destruct titles).
    destruct (fetchSingleQuestionByTitle _ _ _ _ _ _) as [o svc] eqn:Hfirst.
    simpl in H0. subst o. simpl. repeat split.
    rewrite fetchSingleQuestionByTitle_run in Hfirst.
    unfold sent_since. simpl.
    destruct (first_fetch_throws _ _ _ _ _ _ _ Hfirst eq_refl) as [H|H];
      eexists; (split; [exact H|]); intros r Hr.
    + by apply elem_of_nil in Hr.
    + by apply list_elem_of_singleton in Hr as ->.
Qed.

(** Two instances: the import of three titles when the provider rejects the
    first request, and a mock test started while a running session exists
    and the provider answers the first request with no text. *)
Lemma failed_first_fetch_aborts_witness :
  (let w' :=
     handleImportQuestions withKey "abc123xyz"
       (fun _ => Rejected (Error "quota exceeded")) importing in
   error (app w') = Some "quota exceeded"
   /\ session (app w') = None
   /\ view (app w') = view_import
   /\ loadingImport (app w') = false
   /\ exists rs,
        sent_since importing w' rs
        /\ forall r, r ∈ rs -> item_of r = Some 0%nat)
  /\ (let w' :=
       handleStartMockTest withKey "def456uvw" "Stacks"
         (fun _ => emptyPayload) practising in
     error (app w') = Some "Empty response from AI"
     /\ session (app w') = session (app practising)
     /\ view (app w') = view_test
     /\ loadingMockTest (app w') = false
     /\ exists rs,
          sent_since practising w' rs
          /\ forall r, r ∈ rs -> item_of r = Some 0%nat).
Proof.
  split.
  - apply (proj2 (failed_first_fetch_aborts withKey "abc123xyz"
                    (fun _ => Rejected (Error "quota exceeded")) importing
                    eq_refl) (Error "quota exceeded")).
    + vm_compute. discriminate.
    + reflexivity.
  - apply (proj1 (failed_first_fetch_aborts withKey "def456uvw"
                    (fun _ => emptyPayload) practising eq_refl)
             "Stacks" (Error "Empty response from AI")).
    reflexivity.
Defined.

(** ** Running the code *)

(** C6, counterexample. The provider answers a run request with a
    well-formed object whose status is "Time Limit Exceeded"; the handler
    stores that object as it came, and its status is none of the four. *)
Lemma run_result_keeps_provider_status :
  let w' :=
    state_after (handleRunCode withKey (payload timeLimitExceeded) practising)
      practising in
  executionResult (app w') = Some timeLimitExceeded
  /\ field "status" timeLimitExceeded = Some (JsString "Time Limit Exceeded")
  /\ ("Time Limit Exceeded" ∉ statuses)
  /\ has_result_shape timeLimitExceeded = false.
Proof.
  split; [vm_compute; reflexivity|]. split; [reflexivity|].
  split; [|reflexivity].
  apply (proj1 (bool_decide_eq_false _)). reflexivity.
Qed.

(** The object stored when the run fails has a status and a message, and no
    per-example breakdown. *)
Lemma executionError_fields :
  field "status" executionError = Some (JsString "Error")
  /\ field "message" executionError = Some (JsString "Failed to execute code.")
  /\ field "results" executionError = None
  /\ has_result_shape executionError = false.
Proof. repeat split. Qed.

(** C6, as amended. A run request on a session whose current question has
    its buffers always delivers a result: the JSON value of the provider's
    payload, as it came, when [runCodeMock] returns, and the object
    [{ status: "Error", message: "Failed to execute code." }], which has no
    breakdown, when it throws. So the delivered result has the fixed shape
    only if the provider's payload has it. *)
Theorem run_result_delivery (env : Env) (reply : Reply JsValue) (w : World)
    (s : TestSession.t) (q : Question.t) (buffers : gmap Language string)
    (Hkey : apiKeyMissing (app w) = false)
    (Hsession : session (app w) = Some s)
    (Hquestion :
       at_index (TestSession.questions s) (TestSession.currentQuestionIndex s)
       = Some q)
    (Hbuffers : TestSession.userCodes s !! Question.id q = Some buffers) :
  let run :=
    fst (runCodeMock env (buffers !! TestSession.language s)
           (TestSession.language s) q reply (service w)) in
  exists w',
    handleRunCode env reply w = Returns w'
    /\ running (app w') = false
    /\ (forall v, run = Returns v ->
          delivered reply = Some v /\ executionResult (app w') = Some v)
    /\ (forall e, run = Throws e ->
          executionResult (app w') = Some executionError)
    /\ (forall v, executionResult (app w') = Some v ->
          has_result_shape v = true ->
          delivered reply = Some v).
Proof.
  intros run. subst run. unfold handleRunCode.
  rewrite Hkey, Hsession, Hquestion, Hbuffers.
  destruct (runCodeMock _ _ _ _ _ _) as [o svc] eqn:Hrun.
  rewrite runCodeMock_run in Hrun.
  destruct (json_completion _ _ _ _ _ _ Hrun) as [_ Hreturns].
  destruct o as [result|err]; simpl.
  - eexists. split; [reflexivity|]. simpl. split; [done|].
    split; [|split].
    + intros v [= ->]. split; [|done]. by apply Hreturns.
    + done.
    + intros v [= ->] _. by apply Hreturns.
  - eexists. split; [reflexivity|]. simpl. split; [done|].
    split; [|split].
    + done.
    + done.
    + intros v [= <-]. done.
Qed.

(** An instance: the provider answers the run request with no text. *)
Lemma run_result_delivery_witness :
  exists w',
    handleRunCode withKey emptyPayload practising = Returns w'
    /\ executionResult (app w') = Some executionError.
Proof.
  edestruct (run_result_delivery withKey emptyPayload practising)
    as (w' & Hw' & _ & _ & Hthrows & _).
  - reflexivity.
  - vm_compute. reflexivity.
  - vm_compute. reflexivity.
  - vm_compute. reflexivity.
  - exists w'. split; [exact Hw'|].
    apply (Hthrows (Error "Empty response from AI")). vm_compute. reflexivity.
Defined.

(** * Further properties *)

(** ** The client of the facade *)

(** X1. Once [getAI] has returned a client, it returns that client for
    good: later calls hand back the same key and leave the module state as
    it is, whatever the stored keys have become in the meantime. *)
Theorem getAI_memoised (env env' : Env) (s s' : Service) (key : string)
    (Hfirst : getAI env s = (Returns key, s')) :
  getAI env' s' = (Returns key, s').
Proof.
  apply getAI_returns in Hfirst as [Hclient _].
  by apply getAI_cached.
Qed.

(** An instance: the client built from the user's key survives the removal
    of that key. *)
Lemma getAI_memoised_witness :
  getAI placeholderOnly
    {| aiInstance := Some "user-key"; issued := [] |}
  = (Returns "user-key", {| aiInstance := Some "user-key"; issued := [] |}).
Proof.
  apply (getAI_memoised withKey placeholderOnly initialService).
  reflexivity.
Defined.

Lemma truthy_Some_sentinel :
  truthy (Some "MY_GEMINI_API_KEY") = true.
Proof. reflexivity. Qed.

(** X2. The flag computed by [checkApiKey] and the check made by [getAI]
    before it builds a client agree, except when the key stored by the user
    is the placeholder itself: then the flag says that a key is configured
    while [getAI] throws, even if the environment holds a usable key. *)
Theorem checkApiKey_against_getAI (env : Env) (st : State) (s : Service)
    (Hclient : aiInstance s = None) :
  (apiKeyMissing (checkApiKey env st) = true ->
     getAI env s = (Throws (Error "API_KEY_MISSING"), s))
  /\ (localStorage_CUSTOM_GEMINI_API_KEY env <> Some "MY_GEMINI_API_KEY" ->
      apiKeyMissing (checkApiKey env st) = false ->
      exists key,
        getAI env s
        = (Returns key, {| aiInstance := Some key; issued := issued s |}))
  /\ (localStorage_CUSTOM_GEMINI_API_KEY env = Some "MY_GEMINI_API_KEY" ->
      apiKeyMissing (checkApiKey env st) = false
      /\ getAI env s = (Throws (Error "API_KEY_MISSING"), s)).
Proof.
  unfold checkApiKey, getAI, or_else, truthy. rewrite Hclient.
  destruct env as [[l|] [e|]]; simpl;
    repeat match goal with
           | |- context [String.eqb ?a ?b] =>
               let H := fresh "Heqb" in
               destruct (String.eqb a b) eqn:H; simpl;
               [apply String.eqb_eq in H | apply String.eqb_neq in H]
           end;
    repeat case_bool_decide; simplify_eq/=;
    (split; [|split]); try done; try congruence; eauto.
Qed.

(** An instance: the placeholder is stored as the user's key and the
    environment key is real. *)
Lemma checkApiKey_against_getAI_witness :
  apiKeyMissing (checkApiKey placeholderStored initialState) = false
  /\ getAI placeholderStored initialService
     = (Throws (Error "API_KEY_MISSING"), initialService).
Proof.
  apply (checkApiKey_against_getAI placeholderStored initialState
           initialService eq_refl).
  reflexivity.
Defined.

(** ** Requests *)

Lemma sends_at_most_shape {A} env request (o : Service -> Outcome A)
    (operation : Svc A) :
  (forall s,
      operation s
      = match getAI env s with
        | (Returns ai, s') =>
            (o s',
             {| aiInstance := aiInstance s';
                issued := issued s' ++ [request] |})
        | (Throws e, s') => (Throws e, s')
        end) ->
  sends_at_most request operation.
Proof.
  intros Hrun s. rewrite Hrun.
  destruct (getAI env s) as [[ai|e] s'] eqn:Hai; simpl.
  - pose proof (getAI_returns _ _ _ _ Hai) as [Hclient Hissued].
    rewrite Hissued.
    split; [by right|]. split; [by rewrite Hclient|].
    intros k Hk. rewrite (getAI_cached env s k Hk) in Hai. congruence.
  - apply getAI_throws in Hai as [-> _]. split; [by left|]. split; [done|].
    auto.
Qed.

Lemma translateSolution_sends {A} env question lang (reply : Reply A) q :
  question = Some q ->
  sends_at_most (ReqTranslateSolution q lang)
    (translateSolution env question lang reply).
Proof.
  intros -> s. unfold translateSolution, try_catch, bind. simpl.
  destruct (getAI env s) as [[ai|e] s'] eqn:Hai; simpl.
  - pose proof (getAI_returns _ _ _ _ Hai) as [Hclient Hissued].
    assert (forall k, aiInstance s = Some k -> aiInstance s' = Some k) as Hkeep.
    { intros k Hk. rewrite (getAI_cached env s k Hk) in Hai. congruence. }
    destruct reply as [response|reason]; simpl; rewrite Hissued;
      (split; [by right|]); (split; [by rewrite Hclient|]); exact Hkeep.
  - apply getAI_throws in Hai as [-> _]. split; [by left|]. split; [done|].
    auto.
Qed.

(** X3. Each operation of the facade sends at most one request, its own;
    it sends nothing when it ends without a client; and it never discards a
    client that exists. [translateSolution] is covered for a defined
    question; for an undefined one it sends nothing at all. *)
Theorem facade_sends_at_most_one (env : Env) :
  (forall topic count reply,
      sends_at_most (ReqGenerateMockTest topic count)
        (generateMockTest env topic count reply))
  /\ (forall title index total reply,
      sends_at_most (ReqFetchSingleQuestionByTitle title index total)
        (fetchSingleQuestionByTitle env title index total reply))
  /\ (forall code lang question (reply : Reply JsValue),
      sends_at_most (ReqRunCodeMock code lang question)
        (runCodeMock env code lang question reply))
  /\ (forall topic index total reply,
      sends_at_most (ReqGenerateSingleQuestion topic index total)
        (generateSingleQuestion env topic index total reply))
  /\ (forall language topic (reply : Reply unit),
      sends_at_most (ReqGetLearningContent language topic)
        (getLearningContent env language topic reply))
  /\ (forall message context (reply : Reply unit),
      sends_at_most (ReqGetExpertAdvice message context)
        (getExpertAdvice env message context reply))
  /\ (forall q lang (reply : Reply unit),
      sends_at_most (ReqTranslateSolution q lang)
        (translateSolution env (Some q) lang reply))
  /\ (forall lang (reply : Reply unit) s,
      (translateSolution env None lang reply s).2 = s).
Proof.
  repeat apply conj; intros.
  - eapply sends_at_most_shape, generateMockTest_run.
  - eapply sends_at_most_shape, fetchSingleQuestionByTitle_run.
  - eapply sends_at_most_shape, runCodeMock_run.
  - eapply sends_at_most_shape, generateSingleQuestion_run.
  - eapply (sends_at_most_shape env _
              (fun _ => match reply with
                        | Fulfilled response =>
                            Returns (or_default (text response)
                                       "Failed to generate content.")
                        | Rejected reason => Throws reason
                        end)).
    intros s. apply getLearningContent_run.
  - eapply (sends_at_most_shape env _
              (fun _ => match reply with
                        | Fulfilled response =>
                            Returns (or_default (text response)
                                       "Expert is currently unavailable.")
                        | Rejected reason => Throws reason
                        end)).
    intros s. apply getExpertAdvice_run.
  - by apply translateSolution_sends.
  - reflexivity.
Qed.

(** ** The import text *)

Lemma split_nonempty separator s : split separator s <> [].
Proof.
  destruct s as [|c rest]; simpl; [done|].
  destruct (Ascii.eqb c separator); [done|].
  by destruct (split separator rest).
Qed.

Lemma join_cons separator piece pieces :
  pieces <> [] ->
  join separator (piece :: pieces)
  = piece +:+ String separator (join separator pieces).
Proof. by destruct pieces. Qed.

Lemma join_split separator s : join separator (split separator s) = s.
Proof.
  induction s as [|c rest IH]; simpl; [done|].
  destruct (Ascii.eqb c separator) eqn:Hc.
  - apply Ascii.eqb_eq in Hc as ->.
    rewrite join_cons by apply split_nonempty. by rewrite IH.
  - destruct (split separator rest) as [|piece pieces] eqn:Hsplit.
    { by apply split_nonempty in Hsplit. }
    destruct pieces as [|piece' pieces].
    + simpl in *. by rewrite IH.
    + rewrite join_cons by done. rewrite join_cons in IH by done.
      by rewrite <- IH.
Qed.

Lemma occurs_split separator s t :
  t ∈ split separator s -> occurs separator t = false.
Proof.
  revert t. induction s as [|c rest IH]; intros t; simpl.
  - by intros ->%list_elem_of_singleton.
  - destruct (Ascii.eqb c separator) eqn:Hc.
    + intros [->|Hin]%elem_of_cons; [done|]. by apply IH.
    + destruct (split separator rest) as [|piece pieces].
      { intros ->%list_elem_of_singleton. simpl. by rewrite Hc. }
      intros [->|Hin]%elem_of_cons.
      * simpl. rewrite Hc. simpl. apply IH. by left.
      * apply IH. by right.
Qed.

Lemma blank_rev_app s1 s2 :
  blank (String.rev_app s1 s2) = blank s1 && blank s2.
Proof.
  revert s2. induction s1 as [|c s1 IH]; intros s2; simpl; [done|].
  rewrite IH. simpl. by destruct (is_whitespace c), (blank s1), (blank s2).
Qed.

Lemma rev_app_empty s1 s2 : String.rev_app s1 s2 = "" -> s1 = "" /\ s2 = "".
Proof.
  revert s2. induction s1 as [|c s1 IH]; intros s2; simpl; [done|].
  intros H. by apply IH in H as [_ ?].
Qed.

Lemma trimStart_empty s : trimStart s = "" <-> blank s = true.
Proof.
  induction s as [|c rest IH]; simpl; [done|].
  destruct (is_whitespace c); simpl; [done|]. split; done.
Qed.

Lemma blank_trimStart s : blank (trimStart s) = true -> trimStart s = "".
Proof.
  induction s as [|c rest IH]; simpl; [done|].
  destruct (is_whitespace c) eqn:Hc; simpl; [done|]. by rewrite Hc.
Qed.

Lemma trim_empty s : trim s = "" <-> blank s = true.
Proof.
  unfold trim, String.rev. split.
  - intros H. apply rev_app_empty in H as [H _].
    apply trimStart_empty in H. rewrite blank_rev_app, andb_true_r in H.
    by apply trimStart_empty, blank_trimStart.
  - intros H. apply trimStart_empty in H. by rewrite H.
Qed.

Lemma blank_lines s :
  Forall (fun t => blank t = true) (split newline s) <-> blank s = true.
Proof.
  induction s as [|c rest IH]; simpl.
  - split; [done|]. by repeat constructor.
  - destruct (Ascii.eqb c newline) eqn:Hc.
    + apply Ascii.eqb_eq in Hc as ->.
      rewrite Forall_cons, IH. simpl. tauto.
    + destruct (split newline rest) as [|piece pieces] eqn:Hsplit.
      { by apply split_nonempty in Hsplit. }
      rewrite Forall_cons in *. simpl.
      rewrite !andb_true_iff, <- IH. tauto.
Qed.

Lemma filter_nil_Forall {A} (f : A -> bool) (l : list A) :
  List.filter f l = [] <-> Forall (fun x => f x = false) l.
Proof.
  induction l as [|x l IH]; simpl.
  - split; [by constructor|done].
  - rewrite Forall_cons. destruct (f x); [|tauto].
    split; [done|]. by intros [? _].
Qed.

Lemma filter_sublist {A} (f : A -> bool) (l : list A) :
  sublist (List.filter f l) l.
Proof.
  induction l as [|x l IH]; simpl; [constructor|].
  destruct (f x); by constructor.
Qed.

Lemma nonblank_trim t :
  negb (String.eqb (trim t) "") = true <-> blank t = false.
Proof.
  rewrite negb_true_iff, String.eqb_neq, trim_empty.
  by destruct (blank t).
Qed.

Lemma split_free separator s :
  occurs separator s = false -> split separator s = [s].
Proof.
  induction s as [|c rest IH]; simpl; [done|].
  destruct (Ascii.eqb c separator); simpl; [done|].
  intros Hrest. by rewrite IH.
Qed.

Lemma split_append separator s t :
  occurs separator s = false ->
  split separator (s +:+ String separator t) = s :: split separator t.
Proof.
  induction s as [|c rest IH]; simpl.
  - intros _. by rewrite Ascii.eqb_refl.
  - destruct (Ascii.eqb c separator); simpl; [done|].
    intros Hrest. by rewrite IH.
Qed.

(** The pieces of a text are the only way to write it as pieces without
    the separator, joined by the separator. *)
Lemma split_join separator pieces :
  pieces <> [] ->
  (forall t, t ∈ pieces -> occurs separator t = false) ->
  split separator (join separator pieces) = pieces.
Proof.
  induction pieces as [|piece rest IH]; intros Hne Hfree; [done|].
  destruct rest as [|piece' rest].
  - simpl. apply split_free, Hfree. by left.
  - rewrite join_cons by done. rewrite split_append by (apply Hfree; by left).
    f_equal. apply IH; [done|]. intros t Ht. apply Hfree. by right.
Qed.

Lemma filter_nonblank (l : list string) :
  List.filter (fun t => negb (String.eqb (trim t) "")) l
  = List.filter (fun t => negb (blank t)) l.
Proof.
  induction l as [|t l IH]; simpl; [done|]. rewrite IH.
  destruct (blank t) eqn:Hblank.
  - apply trim_empty in Hblank. by rewrite Hblank.
  - apply nonblank_trim in Hblank. by rewrite Hblank.
Qed.

(** X4. The titles of an import are exactly the lines of the text that hold
    a character other than white space: the text is in one way only a
    sequence of pieces without a line break joined by line breaks, and the
    titles are those pieces with the blank ones left out, each as often as
    it occurs, in the order of the text and with their surrounding white
    space kept. A piece is blank when all its characters are white space. *)
Theorem import_titles_are_lines (importText : string) :
  join newline (split newline importText) = importText
  /\ (forall t,
        t ∈ import_titles importText
        <-> t ∈ split newline importText /\ blank t = false)
  /\ (forall t, t ∈ import_titles importText -> occurs newline t = false)
  /\ sublist (import_titles importText) (split newline importText)
  /\ (forall lines,
        lines <> [] ->
        (forall t, t ∈ lines -> occurs newline t = false) ->
        join newline lines = importText ->
        lines = split newline importText
        /\ import_titles importText
           = List.filter (fun t => negb (blank t)) lines)
  /\ split newline importText <> []
  /\ (forall t, t ∈ split newline importText -> occurs newline t = false)
  /\ import_titles importText
     = List.filter (fun t => negb (blank t)) (split newline importText).
Proof.
  split; [apply join_split|].
  assert (forall lines,
             lines <> [] ->
             (forall t, t ∈ lines -> occurs newline t = false) ->
             join newline lines = importText ->
             lines = split newline importText
             /\ import_titles importText
                = List.filter (fun t => negb (blank t)) lines) as Hlines.
  { intros lines Hne Hfree <-. rewrite split_join by done.
    split; [done|]. unfold import_titles. rewrite split_join by done.
    apply filter_nonblank. }
  assert (import_titles importText
          = List.filter (fun t => negb (blank t))
              (split newline importText)) as Hfilter.
  { unfold import_titles. apply filter_nonblank. }
  pose proof (split_nonempty newline importText) as Hsome.
  pose proof (fun t => occurs_split newline importText t) as Hfree.
  cut ((forall t,
           t ∈ import_titles importText
           <-> t ∈ split newline importText /\ blank t = false)
       /\ (forall t, t ∈ import_titles importText
                     -> occurs newline t = false)
       /\ sublist (import_titles importText) (split newline importText)).
  { intros (H1 & H2 & H3). done. }
  assert (forall t,
             t ∈ import_titles importText
             <-> t ∈ split newline importText /\ blank t = false) as Hmem.
  { intros t. unfold import_titles.
    rewrite !list_elem_of_In, filter_In, nonblank_trim. tauto. }
  split; [exact Hmem|]. split.
  - intros t [Hin _]%Hmem. by eapply occurs_split.
  - apply filter_sublist.
Qed.

(** X5. The import button is disabled when [importText.trim()] is empty,
    and that is exactly when the handler finds no title: with the key flag
    down, the handler then returns without touching anything. *)
Theorem import_needs_a_title (importText : string) :
  (trim importText = "" <-> import_titles importText = [])
  /\ (forall env sessionId replies w,
        App.importText (app w) = importText ->
        apiKeyMissing (app w) = false ->
        trim importText = "" ->
        handleImportQuestions env sessionId replies w = w).
Proof.
  assert (trim importText = "" <-> import_titles importText = []) as Hiff.
  { rewrite trim_empty, <- blank_lines. unfold import_titles.
    rewrite filter_nil_Forall. apply Forall_iff. intros t.
    rewrite negb_false_iff, String.eqb_eq. symmetry. apply trim_empty. }
  split; [exact Hiff|].
  intros env sessionId replies w Htext Hflag Hblank.
  unfold handleImportQuestions. rewrite Hflag, Htext.
  apply Hiff in Hblank. by rewrite Hblank.
Qed.

(** An instance: a text of spaces and empty lines. *)
Lemma import_needs_a_title_witness :
  let w :=
    {| app := setImportText ("  " +:+ String newline (String newline " "))
                initialState;
       service := initialService |} in
  handleImportQuestions withKey "abc123xyz" threeReplies w = w.
Proof.
  apply (proj2 (import_needs_a_title
                  ("  " +:+ String newline (String newline " ")))).
  - reflexivity.
  - reflexivity.
  - reflexivity.
Defined.

(** An instance: a title given twice, with an empty line in between, is
    imported twice. *)
Lemma import_titles_are_lines_witness :
  import_titles
    ("Two Sum" +:+ String newline (String newline "Two Sum"))
  = ["Two Sum"; "Two Sum"].
Proof.
  destruct (import_titles_are_lines
              ("Two Sum" +:+ String newline (String newline "Two Sum")))
    as (_ & _ & _ & _ & Hlines & _).
  destruct (Hlines ["Two Sum"; ""; "Two Sum"]) as [_ Htitles].
  - discriminate.
  - intros t Ht. repeat (apply elem_of_cons in Ht as [->|Ht]; [reflexivity|]).
    by apply elem_of_nil in Ht.
  - reflexivity.
  - rewrite Htitles. reflexivity.
Defined.

(** ** Editing and moving inside a session *)

Lemma at_index_valid s :
  index_valid s ->
  is_Some (at_index (TestSession.questions s)
             (TestSession.currentQuestionIndex s)).
Proof.
  unfold index_valid, at_index, len. intros [H0 Hlt].
  rewrite decide_True by done. apply lookup_lt_is_Some. lia.
Qed.

Lemma updateCode_current (code : string) (st : State)
    (s : TestSession.t) (q : Question.t) :
  session st = Some s ->
  at_index (TestSession.questions s) (TestSession.currentQuestionIndex s)
  = Some q ->
  code <> "" ->
  updateCode (Some code) st
  = Returns
      (setSession
         (Some (with_userCodes s
                  (<[ Question.id q :=
                        <[ TestSession.language s := code ]>
                          (default ∅
                             (TestSession.userCodes s !! Question.id q)) ]>
                     (TestSession.userCodes s))))
         st).
Proof.
  intros Hsession Hcurrent Hcode. unfold updateCode. rewrite Hsession.
  simpl. apply String.eqb_neq in Hcode. by rewrite Hcode, Hcurrent.
Qed.

(** X8. [updateCode] with a code that is not empty writes it to the buffer
    of the current question in the language of the session, and to nothing
    else: every other buffer, the questions, the index, the language and all
    other state cells stay as they are. *)
Theorem updateCode_writes_one_buffer (code : string) (st : State)
    (s : TestSession.t) (q : Question.t)
    (Hsession : session st = Some s)
    (Hcurrent :
       at_index (TestSession.questions s) (TestSession.currentQuestionIndex s)
       = Some q)
    (Hcode : code <> "") :
  exists s',
    updateCode (Some code) st = Returns (setSession (Some s') st)
    /\ buffer s' (Question.id q) (TestSession.language s) = Some code
    /\ (forall qId lang,
          (qId, lang) <> (Question.id q, TestSession.language s) ->
          buffer s' qId lang = buffer s qId lang)
    /\ TestSession.questions s' = TestSession.questions s
    /\ same_session_frame s s'.
Proof.
  rewrite (updateCode_current code st s q Hsession Hcurrent Hcode).
  eexists. split; [reflexivity|]. unfold buffer. simpl.
  split; [by rewrite lookup_insert_eq; simpl; rewrite lookup_insert_eq|].
  split; [|done].
  intros qId lang Hother.
  destruct (decide (Question.id q = qId)) as [<-|Hid].
  - rewrite lookup_insert_eq. simpl.
    rewrite lookup_insert_ne by congruence.
    by destruct (TestSession.userCodes s !! Question.id q).
  - by rewrite lookup_insert_ne.
Qed.

(** An instance: typing in the first question of a session of two. *)
Lemma updateCode_writes_one_buffer_witness :
  exists s',
    updateCode (Some "return [];") (app practising)
    = Returns (setSession (Some s') (app practising))
    /\ buffer s' "two-sum" java = Some "return [];"
    /\ buffer s' "reverse-linked-list" java = Some "class Solution {}".
Proof.
  edestruct (updateCode_writes_one_buffer "return [];" (app practising))
    as (s' & Hrun & Hwritten & Hothers & _).
  - vm_compute. reflexivity.
  - vm_compute. reflexivity.
  - discriminate.
  - exists s'. split; [exact Hrun|]. split; [exact Hwritten|].
    rewrite Hothers by discriminate. vm_compute. reflexivity.
Defined.

(** X9. Appending a question to a session puts it at the end and leaves
    every earlier position, the index, the language and the identifier as
    they are, so the current question does not change. The buffers under
    the identifier of the new question become its starter code, also when
    an earlier question has the same identifier and had been edited; the
    buffers under every other identifier are kept. *)
Theorem appendQuestion_at_the_end (q : Question.t) (s : TestSession.t) :
  exists s',
    appendQuestion q (Some s) = Some s'
    /\ at_index (TestSession.questions s') (len (TestSession.questions s))
       = Some q
    /\ len (TestSession.questions s') = len (TestSession.questions s) + 1
    /\ (forall i, i < len (TestSession.questions s) ->
          at_index (TestSession.questions s') i
          = at_index (TestSession.questions s) i)
    /\ same_session_frame s s'
    /\ (forall qId lang,
          buffer s' qId lang
          = if decide (qId = Question.id q)
            then Question.starterCode q !! lang
            else buffer s qId lang).
Proof.
  eexists. split; [reflexivity|]. simpl.
  split; [|split; [|split; [|split]]].
  - unfold at_index, len. rewrite decide_True by lia.
    rewrite Nat2Z.id. apply list_lookup_middle. done.
  - apply len_app_one.
  - intros i Hi. unfold at_index, len in *. case_decide; [|done].
    apply lookup_app_l. lia.
  - done.
  - intros qId lang. unfold buffer. simpl. case_decide as Hid.
    + subst. by rewrite lookup_insert_eq.
    + by rewrite lookup_insert_ne.
Qed.

Lemma with_currentQuestionIndex_twice s i j :
  j = TestSession.currentQuestionIndex s ->
  with_currentQuestionIndex (with_currentQuestionIndex s i) j = s.
Proof. intros ->. by destruct s. Qed.

(** X10. Away from the ends of the list the two arrows move the index by
    one, clear the execution result and return to the description tab; one
    step forward followed by one step back, or one step back followed by
    one step forward, gives the session back. *)
Theorem nextQuestion_prevQuestion_inverse (st : State) (s : TestSession.t)
    (Hsession : session st = Some s) (Hvalid : index_valid s) :
  (TestSession.currentQuestionIndex s <> len (TestSession.questions s) - 1 ->
     nextQuestion st
     = setActiveTab tab_description
         (setExecutionResult None
            (setSession
               (Some (with_currentQuestionIndex s
                        (TestSession.currentQuestionIndex s + 1)))
               st))
     /\ session (prevQuestion (nextQuestion st)) = Some s)
  /\ (TestSession.currentQuestionIndex s <> 0 ->
      prevQuestion st
      = setActiveTab tab_description
          (setExecutionResult None
             (setSession
                (Some (with_currentQuestionIndex s
                         (TestSession.currentQuestionIndex s - 1)))
                st))
      /\ session (nextQuestion (prevQuestion st)) = Some s).
Proof.
  unfold index_valid in Hvalid. split; intros Hend.
  - assert (nextQuestion st
            = setActiveTab tab_description
                (setExecutionResult None
                   (setSession
                      (Some (with_currentQuestionIndex s
                               (TestSession.currentQuestionIndex s + 1)))
                      st))) as Hnext.
    { unfold nextQuestion. rewrite Hsession. case_decide; [lia|done]. }
    split; [exact Hnext|]. rewrite Hnext. unfold prevQuestion. simpl.
    case_decide; [lia|]. simpl. f_equal.
    apply with_currentQuestionIndex_twice. lia.
  - assert (prevQuestion st
            = setActiveTab tab_description
                (setExecutionResult None
                   (setSession
                      (Some (with_currentQuestionIndex s
                               (TestSession.currentQuestionIndex s - 1)))
                      st))) as Hprev.
    { unfold prevQuestion. rewrite Hsession. case_decide; [lia|done]. }
    split; [exact Hprev|]. rewrite Hprev. unfold nextQuestion. simpl.
    case_decide; [lia|]. simpl. f_equal.
    apply with_currentQuestionIndex_twice. lia.
Qed.

(** An instance: forward and back in a session of two questions. *)
Lemma nextQuestion_prevQuestion_inverse_witness :
  session (prevQuestion (nextQuestion (app practising)))
  = session (app practising).
Proof.
  edestruct (nextQuestion_prevQuestion_inverse (app practising))
    as [Hforward _].
  - vm_compute. reflexivity.
  - vm_compute. split; [discriminate|reflexivity].
  - destruct Hforward as [_ Hback]; [vm_compute; discriminate|].
    rewrite Hback. vm_compute. reflexivity.
Defined.

(** ** Running and translating *)

(** X11. What is typed is what is run: after [updateCode] with a code that
    is not empty, [handleRunCode] completes, and when a client is available
    the one request it sends carries that code, the language of the session
    and the current question. *)
Theorem handleRunCode_sends_typed_code (env : Env) (reply : Reply JsValue)
    (code : string) (w : World) (s : TestSession.t) (q : Question.t)
    (Hflag : apiKeyMissing (app w) = false)
    (Hsession : session (app w) = Some s)
    (Hcurrent :
       at_index (TestSession.questions s) (TestSession.currentQuestionIndex s)
       = Some q)
    (Hcode : code <> "") :
  let typed_in :=
    {| app := state_after (updateCode (Some code) (app w)) (app w);
       service := service w |} in
  exists w',
    handleRunCode env reply typed_in = Returns w'
    /\ (forall ai,
          (getAI env (service w)).1 = Returns ai ->
          issued (service w')
          = issued (service w)
            ++ [ReqRunCodeMock (Some code) (TestSession.language s) q]).
Proof.
  intros typed_in. subst typed_in.
  rewrite (updateCode_current code (app w) s q Hsession Hcurrent Hcode).
  simpl. unfold handleRunCode. simpl.
  rewrite Hflag, Hcurrent, !lookup_insert_eq.
  destruct (runCodeMock _ _ _ _ _ _) as [o svc] eqn:Hmock.
  rewrite runCodeMock_run in Hmock.
  assert (forall ai, (getAI env (service w)).1 = Returns ai ->
            issued svc
            = issued (service w)
              ++ [ReqRunCodeMock (Some code) (TestSession.language s) q])
    as Hsent.
  { intros ai Hai.
    destruct (getAI env (service w)) as [[k|e] s1] eqn:Hget; [|done].
    apply getAI_returns in Hget as [_ Hissued].
    injection Hmock as _ <-. simpl. by rewrite Hissued. }
  destruct o; eexists; (split; [reflexivity|]); exact Hsent.
Qed.

(** An instance: a line typed into the first question, then Run. *)
Lemma handleRunCode_sends_typed_code_witness :
  exists w',
    handleRunCode withKey (payload timeLimitExceeded)
      {| app := state_after (updateCode (Some "return [];") (app practising))
                  (app practising);
         service := service practising |}
    = Returns w'
    /\ last (issued (service w'))
       = Some (ReqRunCodeMock (Some "return [];") java twoSum).
Proof.
  edestruct (handleRunCode_sends_typed_code withKey
               (payload timeLimitExceeded) "return [];" practising)
    as (w' & Hrun & Hsent).
  - reflexivity.
  - vm_compute. reflexivity.
  - vm_compute. reflexivity.
  - discriminate.
  - exists w'. split; [exact Hrun|].
    rewrite (Hsent "user-key") by reflexivity. apply last_snoc.
Defined.

(** X13. [changeLanguage] always drops the translation at hand. Off the
    solution tab nothing else happens and nothing is sent. On the solution
    tab a translation of the current question into the new language is
    requested and whatever [translateSolution] returns is stored as the
    translation, with [translating] back to false and the [error] cell
    untouched: when the provider rejects the request, the stored
    translation is the sentence "Failed to translate solution.". *)
Theorem changeLanguage_translation (env : Env) (lang : Language)
    (reply : Reply unit) (w : World) (s : TestSession.t)
    (Hsession : session (app w) = Some s) :
  let w' := changeLanguage env lang reply w in
  error (app w') = error (app w)
  /\ (activeTab (app w) <> tab_solution ->
      translatedSolution (app w') = None /\ service w' = service w)
  /\ (activeTab (app w) = tab_solution ->
      translating (app w') = false
      /\ (exists translation,
            (translateSolution env
               (at_index (TestSession.questions s)
                  (TestSession.currentQuestionIndex s))
               (Language_name lang) reply (service w)).1
            = Returns translation
            /\ translatedSolution (app w') = Some translation)
      /\ (forall reason,
            reply = Rejected reason ->
            translatedSolution (app w')
            = Some "Failed to translate solution.")).
Proof.
  intros w'. subst w'. unfold changeLanguage. rewrite Hsession.
  case_decide as Htab.
  - unfold handleTranslateSolution.
    destruct (translateSolution_total env
                (at_index (TestSession.questions s)
                   (TestSession.currentQuestionIndex s))
                (Language_name lang) reply (service w)) as [t Ht].
    pose proof (translateSolution_rejected (A := unit) env
                  (at_index (TestSession.questions s)
                     (TestSession.currentQuestionIndex s))
                  (Language_name lang)) as Hrejected.
    destruct (translateSolution _ _ _ _ _) as [o svc] eqn:Hrun.
    simpl in Ht. subst o. simpl.
    split; [done|]. split; [done|]. intros _.
    split; [done|]. split; [eauto|].
    intros reason ->. specialize (Hrejected reason (service w)).
    rewrite Hrun in Hrejected. simpl in Hrejected. congruence.
  - simpl. split; [done|]. split; [done|]. done.
Qed.

(** An instance: the solution tab is open and the provider is down. *)
Lemma changeLanguage_translation_witness :
  let w :=
    {| app := setActiveTab tab_solution (app practising);
       service := service practising |} in
  translatedSolution
    (app (changeLanguage withKey python
            (Rejected (Error "503 Service Unavailable") : Reply unit) w))
  = Some "Failed to translate solution.".
Proof.
  edestruct (changeLanguage_translation withKey python
               (Rejected (Error "503 Service Unavailable"))
               {| app := setActiveTab tab_solution (app practising);
                  service := service practising |})
    as (_ & _ & Hsolution).
  - vm_compute. reflexivity.
  - destruct Hsolution as (_ & _ & Hrejected); [reflexivity|].
    exact (Hrejected _ eq_refl).
Defined.

(** ** The learning and expert pages *)

Lemma truthy_Some s : truthy (Some s) = true <-> s <> "".
Proof. simpl. by rewrite negb_true_iff, String.eqb_neq. Qed.

Lemma truthy_Some_false s : truthy (Some s) = false <-> s = "".
Proof. simpl. by rewrite negb_false_iff, String.eqb_eq. Qed.





(** ** Saving a key *)

(** X16. [handleSaveCustomKey]. A key that is more than white space is
    stored trimmed and the page starts again: no session, no client, the
    key flag down, the key field showing the stored key; unless the stored
    key is the placeholder, the first [getAI] of the new page builds its
    client from it. A key of white space only removes the stored key and
    recomputes the flag, and nothing else: the session stays, and so does a
    client built earlier. *)
Theorem handleSaveCustomKey_outcomes (env : Env) (w : World) (f : Forms) :
  let result := handleSaveCustomKey env w f in
  let key := trim (customApiKey f) in
  (key <> "" ->
     localStorage_CUSTOM_GEMINI_API_KEY result.1 = Some key
     /\ result.2 = (mounted result.1, initialForms result.1)
     /\ session (app result.2.1) = None
     /\ service result.2.1 = initialService
     /\ apiKeyMissing (app result.2.1) = false
     /\ customApiKey result.2.2 = key
     /\ (key <> "MY_GEMINI_API_KEY" ->
         getAI result.1 (service result.2.1)
         = (Returns key, {| aiInstance := Some key; issued := [] |})))
  /\ (key = "" ->
      localStorage_CUSTOM_GEMINI_API_KEY result.1 = None
      /\ session (app result.2.1) = session (app w)
      /\ service result.2.1 = service w
      /\ result.2.2 = f
      /\ apiKeyMissing (app result.2.1)
         = negb (truthy (process_env_GEMINI_API_KEY env))
           || bool_decide
                (process_env_GEMINI_API_KEY env = Some "MY_GEMINI_API_KEY")).
Proof.
  intros result key. subst result key. unfold handleSaveCustomKey.
  split.
  - intros Hkey. pose proof Hkey as Htruthy.
    apply truthy_Some in Htruthy. rewrite Htruthy.
    unfold mounted, checkApiKey, initialForms, or_default. simpl.
    simpl in Htruthy. rewrite Htruthy, andb_false_r. simpl.
    repeat split. intros Hsentinel. unfold getAI, or_else. simpl.
    rewrite Htruthy. simpl.
    apply String.eqb_neq in Hsentinel. by rewrite Hsentinel, Htruthy.
  - intros Hblank. apply truthy_Some_false in Hblank. rewrite Hblank.
    unfold checkApiKey. simpl. rewrite andb_true_r.
    by destruct (_ || _).
Qed.

(** An instance: a key typed with spaces around it. *)
Lemma handleSaveCustomKey_outcomes_witness :
  let result := handleSaveCustomKey placeholderOnly practising learningTrees in
  getAI result.1 (service result.2.1)
  = (Returns "user-key", {| aiInstance := Some "user-key"; issued := [] |}).
Proof.
  apply (proj1 (handleSaveCustomKey_outcomes placeholderOnly practising
                  learningTrees)).
  - vm_compute. discriminate.
  - vm_compute. discriminate.
Defined.

(** ** The requests and the end state of a build *)

Lemma setSession_session st : setSession (session st) st = st.
Proof. by destruct st. Qed.

(** The loop writes the session cell and nothing else, and inside the
    session it leaves the identifier, the index and the language alone. *)
Lemma backgroundFill_cells fetch indices : forall w,
  app (backgroundFill fetch indices w)
  = setSession (session (app (backgroundFill fetch indices w))) (app w)
  /\ (forall s, session (app w) = Some s ->
        exists s',
          session (app (backgroundFill fetch indices w)) = Some s'
          /\ same_session_frame s s').
Proof.
  induction indices as [|i rest IH]; intros w; simpl.
  - split; [by rewrite setSession_session|]. intros s Hs. by exists s.
  - destruct (fetch i (service w)) as [[q|e] svc].
    + destruct (IH {| app := setSession (appendQuestion q (session (app w)))
                               (app w);
                      service := svc |}) as [Hcells Hframe].
      split; [etrans; [exact Hcells|reflexivity]|].
      intros s Hs.
      destruct (Hframe
                  (with_userCodes
                     (with_questions s (TestSession.questions s ++ [q]))
                     (<[ Question.id q := Question.starterCode q ]>
                        (TestSession.userCodes s))))
        as (s' & Hs' & Hsame); [simpl; by rewrite Hs|].
      exists s'. split; [done|]. exact Hsame.
    + destruct (IH {| app := app w; service := svc |}) as [Hcells Hframe].
      split; [exact Hcells|]. exact Hframe.
Qed.

Lemma requests_by_title {B} (g : nat -> string -> B) (l : list string) :
  forall pre,
    imap (fun i t => g (length pre + i)%nat t) l
    = (fun i => g i (title_at (pre ++ l) i)) <$> seq (length pre) (length l).
Proof.
  induction l as [|t l IH]; intros pre; simpl; [done|]. f_equal.
  - unfold title_at. rewrite list_lookup_middle by done. simpl.
    by rewrite Nat.add_0_r.
  - specialize (IH (pre ++ [t])). rewrite length_app in IH. simpl in IH.
    rewrite <- (assoc_L (++)) in IH. simpl in IH.
    rewrite Nat.add_1_r in IH. etrans; [|exact IH].
    apply imap_ext. intros i x _. simpl. f_equal. lia.
Qed.

Lemma backgroundFill_tail fetch replies request indices w s ai :
  (forall i s ai,
      aiInstance s = Some ai ->
      fetch i s
      = (outcome_of_reply (replies i),
         {| aiInstance := aiInstance s; issued := issued s ++ [request i] |})) ->
  aiInstance (service w) = Some ai ->
  session (app w) = Some s ->
  issued (service (backgroundFill fetch indices w))
  = issued (service w) ++ (request <$> indices)
  /\ app (backgroundFill fetch indices w)
     = setSession (session (app (backgroundFill fetch indices w))) (app w)
  /\ exists s',
       session (app (backgroundFill fetch indices w)) = Some s'
       /\ same_session_frame s s'.
Proof.
  intros Hrun Hai Hs.
  destruct (backgroundFill_run fetch replies request Hrun indices w s ai
              Hai Hs) as (_ & _ & _ & Hissued & _).
  destruct (backgroundFill_cells fetch indices w) as [Hcells Hframe].
  split; [exact Hissued|]. split; [exact Hcells|]. by apply Hframe.
Qed.

(** The build with nothing else happening at its awaits sends one request
    for each of its [N] items, in the order of the items and whatever the
    replies to the earlier ones; for an import the request for item [i]
    carries the [i]-th title. It ends on the practice screen with no error
    and its loading flag down, in a session that has the given identifier,
    index 0 and language Java. The build with the rest of the page at work
    between its awaits is treated further down. *)
Theorem build_sends_every_item_in_order (env : Env) (sessionId : string)
    (replies : nat -> Reply Question.t) (w : World)
    (Hflag : apiKeyMissing (app w) = false) :
  (forall topic q0,
      (generateSingleQuestion env topic 0 5 (replies 0%nat) (service w)).1
      = Returns q0 ->
      let w' := handleStartMockTest env sessionId topic replies w in
      issued (service w')
      = issued (service w)
        ++ ((fun i => ReqGenerateSingleQuestion topic i 5) <$> seq 0 5)
      /\ view (app w') = view_test
      /\ error (app w') = None
      /\ loadingMockTest (app w') = false
      /\ exists s',
           session (app w') = Some s'
           /\ TestSession.id s' = sessionId
           /\ TestSession.currentQuestionIndex s' = 0
           /\ TestSession.language s' = java)
  /\ (forall q0,
      let titles := import_titles (importText (app w)) in
      titles <> [] ->
      (fetchSingleQuestionByTitle env (title_at titles 0) 0 (length titles)
         (replies 0%nat) (service w)).1
      = Returns q0 ->
      let w' := handleImportQuestions env sessionId replies w in
      issued (service w')
      = issued (service w)
        ++ imap (fun i title =>
                   ReqFetchSingleQuestionByTitle title i (length titles))
             titles
      /\ view (app w') = view_test
      /\ error (app w') = None
      /\ loadingImport (app w') = false
      /\ exists s',
           session (app w') = Some s'
           /\ TestSession.id s' = sessionId
           /\ TestSession.currentQuestionIndex s' = 0
           /\ TestSession.language s' = java).
Proof.
  split.
  - intros topic q0 H0 w'. subst w'. unfold handleStartMockTest.
    rewrite Hflag.
    destruct (generateSingleQuestion _ _ _ _ _ _) as [o svc] eqn:Hfirst.
    simpl in H0. subst o. rewrite generateSingleQuestion_run in Hfirst.
    destruct (first_fetch_returns _ _ _ _ _ _ _ Hfirst eq_refl)
      as (_ & [ai Hai] & Hsent).
    assert (forall i s k, aiInstance s = Some k ->
              generateSingleQuestion env topic i 5 (replies i) s
              = (outcome_of_reply (replies i),
                 {| aiInstance := aiInstance s;
                    issued := issued s
                              ++ [ReqGenerateSingleQuestion topic i 5] |}))
      as Hrun.
    { intros i s k Hk. by apply generateSingleQuestion_cached with k. }
    match goal with
    | |- context [backgroundFill ?f ?l ?w0] =>
        destruct (backgroundFill_tail f replies _ l w0
                    (newSession sessionId q0) ai Hrun Hai eq_refl)
          as (Hissued & Hcells & s' & Hs' & Hid & Hindex & Hlang)
    end.
    split; [rewrite Hissued; simpl; by rewrite Hsent, <- (assoc_L (++))|].
    split; [by rewrite Hcells|]. split; [by rewrite Hcells|].
    split; [by rewrite Hcells|].
    exists s'. split; [exact Hs'|]. by rewrite Hid, Hindex, Hlang.
  - intros q0 titles Htitles H0 w'. subst w'. unfold handleImportQuestions.
    rewrite Hflag. fold titles.
    destruct (length titles) as [|n] eqn:Hlen.
    { by destruct titles. }
    rewrite bool_decide_eq_false_2 by done.
    destruct (fetchSingleQuestionByTitle _ _ _ _ _ _) as [o svc] eqn:Hfirst.
    simpl in H0. subst o. rewrite fetchSingleQuestionByTitle_run in Hfirst.
    destruct (first_fetch_returns _ _ _ _ _ _ _ Hfirst eq_refl)
      as (_ & [ai Hai] & Hsent).
    assert (forall i s k, aiInstance s = Some k ->
              fetchSingleQuestionByTitle env (title_at titles i) i (S n)
                (replies i) s
              = (outcome_of_reply (replies i),
                 {| aiInstance := aiInstance s;
                    issued := issued s
                              ++ [ReqFetchSingleQuestionByTitle
                                    (title_at titles i) i (S n)] |}))
      as Hrun.
    { intros i s k Hk. by apply fetchSingleQuestionByTitle_cached with k. }
    match goal with
    | |- context [backgroundFill ?f ?l ?w0] =>
        destruct (backgroundFill_tail f replies _ l w0
                    (newSession sessionId q0) ai Hrun Hai eq_refl)
          as (Hissued & Hcells & s' & Hs' & Hid & Hindex & Hlang)
    end.
    split.
    { rewrite Hissued. simpl. rewrite Hsent, <- (assoc_L (++)). f_equal.
      pose proof (requests_by_title
                    (fun i title =>
                       ReqFetchSingleQuestionByTitle title i (S n))
                    titles []) as Himap.
      simpl in Himap. rewrite Himap, Hlen. simpl. by rewrite Nat.sub_0_r. }
    split; [by rewrite Hcells|]. split; [by rewrite Hcells|].
    split; [by rewrite Hcells|].
    exists s'. split; [exact Hs'|]. by rewrite Hid, Hindex, Hlang.
Qed.

(** An instance: the three titles, the second of which the provider does
    not know. *)
Lemma build_sends_every_item_in_order_witness :
  issued (service (handleImportQuestions withKey "abc123xyz" threeReplies
                     importing))
  = [ReqFetchSingleQuestionByTitle "Two Sum" 0 3;
     ReqFetchSingleQuestionByTitle "BAD_TITLE_CAUSES_FAILURE" 1 3;
     ReqFetchSingleQuestionByTitle "Reverse Linked List" 2 3].
Proof.
  destruct (proj2 (build_sends_every_item_in_order withKey "abc123xyz"
                     threeReplies importing eq_refl) twoSum)
    as (Hissued & _).
  - vm_compute. discriminate.
  - reflexivity.
  - rewrite Hissued. reflexivity.
Defined.

(** ** Invariants of the page *)

Lemma handleStartLearning_session {A} env (reply : Reply A) w f :
  session (app (handleStartLearning env reply w f).1) = session (app w).
Proof.
  unfold handleStartLearning. destruct (apiKeyMissing (app w)); [done|].
  destruct (negb _); [done|].
  by destruct (getLearningContent _ _ _ _ _) as [[content|err] svc].
Qed.

Lemma handleAskExpert_session {A} env (reply : Reply A) w f :
  session (app (handleAskExpert env reply w f).1) = session (app w).
Proof.
  unfold handleAskExpert. destruct (apiKeyMissing (app w)); [done|].
  destruct (negb _); [done|].
  by destruct (getExpertAdvice _ _ _ _ _) as [[response|err] svc].
Qed.

Lemma translationEffect_session {A} env (reply : Reply A) w :
  session (app (translationEffect env reply w)) = session (app w).
Proof.
  unfold translationEffect. destruct (session (app w)) as [s|] eqn:Hs;
    [|by rewrite Hs].
  destruct (_ && _); [|by rewrite Hs].
  by rewrite handleTranslateSolution_session.
Qed.

Lemma handleSaveCustomKey_session env w f :
  session (app (handleSaveCustomKey env w f).2.1) = None
  \/ session (app (handleSaveCustomKey env w f).2.1) = session (app w).
Proof.
  unfold handleSaveCustomKey. destruct (truthy _); simpl.
  - left. unfold checkApiKey. by destruct (_ && _).
  - right. unfold checkApiKey. by destruct (_ && _).
Qed.

(** An event is a step of the transition system on the world of the page,
    unless it starts the page again. *)
Lemma handle_step P ev p :
  event_delivers P ev ->
  step P (storage p) (world p) (world (handle ev p))
  \/ session (app (world (handle ev p))) = None.
Proof.
  intros Hev. destruct ev; simpl in *.
  - left. by apply step_start.
  - left. by apply step_import.
  - left. apply step_language.
  - left. apply step_elsewhere. apply translationEffect_session.
  - left. apply step_run.
  - left. apply step_code.
  - left. apply step_next.
  - left. apply step_prev.
  - left. apply step_elsewhere.
    pose proof (handleStartLearning_session (storage p) reply (world p)
                  (forms p)) as H.
    by destruct (handleStartLearning _ _ _ _).
  - left. apply step_elsewhere.
    pose proof (handleAskExpert_session (storage p) reply (world p)
                  (forms p)) as H.
    by destruct (handleAskExpert _ _ _ _).
  - pose proof (handleSaveCustomKey_session (storage p) (world p) (forms p))
      as H.
    destruct (handleSaveCustomKey _ _ _) as [env' [w' f']]. simpl in *.
    destruct H as [H|H]; [by right|]. left. by apply step_elsewhere.
  - right. unfold mounted, checkApiKey. simpl. by destruct (_ && _).
  - left. by apply step_elsewhere.
  - left. by apply step_elsewhere.
  - left. by apply step_elsewhere.
  - left. by apply step_elsewhere.
  - left. by apply step_elsewhere.
  - left. by apply step_elsewhere.
  - left. by apply step_elsewhere.
  - left. by apply step_elsewhere.
  - left. by apply step_elsewhere.
Qed.

Lemma run_snoc events ev p : run (events ++ [ev]) p = handle ev (run events p).
Proof. unfold run. by rewrite foldl_app. Qed.

Lemma loaded_session env : session (app (world (loaded env))) = None.
Proof. unfold loaded, mounted, checkApiKey. simpl. by destruct (_ && _). Qed.

Lemma run_index_valid env events :
  of_session index_valid (app (world (run events (loaded env)))).
Proof.
  induction events as [|ev events IH] using rev_ind.
  - intros s. change (run [] (loaded env)) with (loaded env).
    by rewrite loaded_session.
  - rewrite run_snoc.
    destruct (handle_step (fun _ => True) ev (run events (loaded env)))
      as [Hstep|Hnone].
    + by destruct ev.
    + revert Hstep IH. apply step_of_session.
      * intros. apply index_valid_new.
      * intros. by apply index_valid_append.
      * done.
      * done.
      * unfold index_valid. simpl. lia.
      * unfold index_valid. simpl. lia.
    + intros s. by rewrite Hnone.
Qed.

Lemma run_codes_complete env events :
  Forall (event_delivers typed) events ->
  of_session codes_complete (app (world (run events (loaded env)))).
Proof.
  induction events as [|ev events IH] using rev_ind; intros Htyped.
  - intros s. change (run [] (loaded env)) with (loaded env).
    by rewrite loaded_session.
  - rewrite run_snoc. apply Forall_app in Htyped as [Hevents Hev].
    rewrite Forall_singleton in Hev. specialize (IH Hevents).
    destruct (handle_step typed ev (run events (loaded env)) Hev)
      as [Hstep|Hnone].
    + revert Hstep IH. apply step_of_session.
      * intros. by apply codes_complete_new.
      * intros. by apply codes_complete_append.
      * done.
      * intros. by apply codes_complete_code.
      * done.
      * done.
    + intros s. by rewrite Hnone.
Qed.

Lemma backgroundFill_is_Some fetch indices w :
  is_Some (session (app w)) ->
  is_Some (session (app (backgroundFill fetch indices w))).
Proof.
  intros [s Hs].
  destruct (backgroundFill_cells fetch indices w) as [_ Hframe].
  destruct (Hframe s Hs) as (s' & Hs' & _). eauto.
Qed.

Lemma handleStartMockTest_shows env sessionId topic replies w :
  shows_session w ->
  shows_session (handleStartMockTest env sessionId topic replies w).
Proof.
  unfold handleStartMockTest. intros Hw.
  destruct (apiKeyMissing (app w)); [exact Hw|].
  destruct (generateSingleQuestion _ _ _ _ _ _) as [[q|e] svc].
  - intros _. apply backgroundFill_is_Some. simpl. eauto.
  - exact Hw.
Qed.

Lemma handleImportQuestions_shows env sessionId replies w :
  shows_session w ->
  shows_session (handleImportQuestions env sessionId replies w).
Proof.
  unfold handleImportQuestions. intros Hw.
  destruct (apiKeyMissing (app w)); [exact Hw|].
  case_bool_decide; [exact Hw|].
  destruct (fetchSingleQuestionByTitle _ _ _ _ _ _) as [[q|e] svc].
  - intros _. apply backgroundFill_is_Some. simpl. eauto.
  - exact Hw.
Qed.

Lemma handleTranslateSolution_view {A} env closure lang (reply : Reply A) w :
  view (app (handleTranslateSolution env closure lang reply w))
  = view (app w).
Proof.
  unfold handleTranslateSolution. destruct closure as [s|]; [|done].
  by destruct (translateSolution _ _ _ _ _) as [[t|e] svc].
Qed.

Lemma changeLanguage_shows {A} env lang (reply : Reply A) w :
  shows_session w -> shows_session (changeLanguage env lang reply w).
Proof.
  unfold shows_session. rewrite changeLanguage_session.
  unfold changeLanguage. destruct (session (app w)) as [s|]; [|done].
  intros _ _. simpl. eauto.
Qed.

Lemma translationEffect_shows {A} env (reply : Reply A) w :
  shows_session w -> shows_session (translationEffect env reply w).
Proof.
  unfold shows_session. rewrite translationEffect_session.
  unfold translationEffect. destruct (session (app w)) as [s|]; [|done].
  intros _ _. eauto.
Qed.

Lemma handleRunCode_shows env reply w :
  shows_session w -> shows_session (state_after (handleRunCode env reply w) w).
Proof.
  unfold shows_session. rewrite handleRunCode_session.
  unfold handleRunCode. destruct (apiKeyMissing (app w)); [done|].
  destruct (session (app w)) as [s|]; [|done]. intros _ _. eauto.
Qed.

Lemma updateCode_shows newCode st svc :
  shows_session {| app := st; service := svc |} ->
  shows_session
    {| app := state_after (updateCode newCode st) st; service := svc |}.
Proof.
  unfold shows_session, updateCode. simpl.
  destruct (session st) as [s|] eqn:Hs; [|simpl; by rewrite ?Hs].
  destruct newCode as [code|]; [|simpl; by rewrite ?Hs].
  destruct (negb _); [simpl; by rewrite ?Hs|].
  destruct (at_index _ _); simpl; [|by rewrite ?Hs]. intros _ _. eauto.
Qed.

Lemma nextQuestion_shows st svc :
  shows_session {| app := st; service := svc |} ->
  shows_session {| app := nextQuestion st; service := svc |}.
Proof.
  unfold shows_session, nextQuestion. simpl.
  destruct (session st) as [s|] eqn:Hs; [|simpl; by rewrite ?Hs].
  case_decide; [simpl; by rewrite ?Hs|]. simpl. intros _ _. eauto.
Qed.

Lemma prevQuestion_shows st svc :
  shows_session {| app := st; service := svc |} ->
  shows_session {| app := prevQuestion st; service := svc |}.
Proof.
  unfold shows_session, prevQuestion. simpl.
  destruct (session st) as [s|] eqn:Hs; [|simpl; by rewrite ?Hs].
  case_decide; [simpl; by rewrite ?Hs|]. simpl. intros _ _. eauto.
Qed.

Lemma handleStartLearning_shows {A} env (reply : Reply A) w f :
  shows_session w -> shows_session (handleStartLearning env reply w f).1.
Proof.
  unfold shows_session, handleStartLearning.
  destruct (apiKeyMissing (app w)); [done|].
  destruct (negb _); [done|].
  by destruct (getLearningContent _ _ _ _ _) as [[content|err] svc].
Qed.

Lemma handleAskExpert_shows {A} env (reply : Reply A) w f :
  shows_session w -> shows_session (handleAskExpert env reply w f).1.
Proof.
  unfold shows_session, handleAskExpert.
  destruct (apiKeyMissing (app w)); [done|].
  destruct (negb _); [done|].
  by destruct (getExpertAdvice _ _ _ _ _) as [[response|err] svc].
Qed.

Lemma handleSaveCustomKey_shows env w f :
  shows_session w -> shows_session (handleSaveCustomKey env w f).2.1.
Proof.
  unfold shows_session, handleSaveCustomKey, mounted, checkApiKey.
  destruct (truthy _); simpl; by destruct (_ && _).
Qed.

Lemma handle_shows ev p :
  shows_session (world p) -> shows_session (world (handle ev p)).
Proof.
  intros Hp. destruct ev; simpl.
  - by apply handleStartMockTest_shows.
  - by apply handleImportQuestions_shows.
  - by apply changeLanguage_shows.
  - by apply translationEffect_shows.
  - by apply handleRunCode_shows.
  - destruct (world p). by apply updateCode_shows.
  - destruct (world p). by apply nextQuestion_shows.
  - destruct (world p). by apply prevQuestion_shows.
  - pose proof (handleStartLearning_shows (storage p) reply (world p)
                  (forms p) Hp) as H.
    by destruct (handleStartLearning _ _ _ _).
  - pose proof (handleAskExpert_shows (storage p) reply (world p)
                  (forms p) Hp) as H.
    by destruct (handleAskExpert _ _ _ _).
  - pose proof (handleSaveCustomKey_shows (storage p) (world p) (forms p) Hp)
      as H.
    by destruct (handleSaveCustomKey _ _ _) as [env' [w' f']].
  - unfold shows_session, mounted, checkApiKey. simpl. by destruct (_ && _).
  - unfold shows_session. simpl. by destruct d.
  - exact Hp.
  - exact Hp.
  - exact Hp.
  - exact Hp.
  - exact Hp.
  - exact Hp.
  - exact Hp.
  - exact Hp.
Qed.

Lemma run_shows env events : shows_session (world (run events (loaded env))).
Proof.
  induction events as [|ev events IH] using rev_ind.
  - change (run [] (loaded env)) with (loaded env).
    unfold shows_session, loaded, mounted, checkApiKey. simpl.
    by destruct (_ && _).
  - rewrite run_snoc. by apply handle_shows.
Qed.

(** X17. Whatever the sequence of events since the page was loaded, when
    the practice screen is shown there is a session, its index points at a
    question, and that question has a buffer for the language of the
    session: the three reads that [renderCoding] makes find what they look
    for. The questions delivered by the provider are assumed typed. *)
Theorem practice_screen_has_content (env : Env) (events : list Event)
    (Htyped : Forall (event_delivers typed) events)
    (Hview : view (app (world (run events (loaded env)))) = view_test) :
  exists s q buffers code,
    session (app (world (run events (loaded env)))) = Some s
    /\ at_index (TestSession.questions s) (TestSession.currentQuestionIndex s)
       = Some q
    /\ TestSession.userCodes s !! Question.id q = Some buffers
    /\ buffers !! TestSession.language s = Some code.
Proof.
  destruct (run_shows env events Hview) as [s Hs].
  pose proof (run_index_valid env events s Hs) as Hvalid.
  destruct (at_index_valid s Hvalid) as [q Hq].
  assert (q ∈ TestSession.questions s) as Hin.
  { unfold at_index in Hq. case_decide; [|done].
    by eapply list_elem_of_lookup_2. }
  destruct (run_codes_complete env events Htyped s Hs q Hin)
    as (buffers & Hbuffers & Hfour).
  destruct (Hfour (TestSession.language s)) as [code Hcode].
  by exists s, q, buffers, code.
Qed.

(** X12. After any sequence of events in which the provider delivers typed
    questions, neither [handleRunCode] nor [updateCode] throws: their reads
    of the current question and of its buffers never meet [undefined]. *)
Theorem session_handlers_never_throw (env : Env) (events : list Event)
    (Htyped : Forall (event_delivers typed) events) :
  let p := run events (loaded env) in
  (forall reply, exists w',
      handleRunCode (storage p) reply (world p) = Returns w')
  /\ (forall newCode, exists st',
      updateCode newCode (app (world p)) = Returns st').
Proof.
  intros p. subst p.
  pose proof (run_index_valid env events) as Hvalid.
  pose proof (run_codes_complete env events Htyped) as Hcodes.
  destruct (session (app (world (run events (loaded env))))) as [s|] eqn:Hs.
  - destruct (at_index_valid s (Hvalid s Hs)) as [q Hq].
    assert (q ∈ TestSession.questions s) as Hin.
    { unfold at_index in Hq. case_decide; [|done].
      by eapply list_elem_of_lookup_2. }
    destruct (Hcodes s Hs q Hin) as (buffers & Hbuffers & _).
    split.
    + intros reply. unfold handleRunCode.
      destruct (apiKeyMissing _); [eauto|].
      rewrite Hs, Hq, Hbuffers.
      destruct (runCodeMock _ _ _ _ _ _) as [[result|err] svc]; eauto.
    + intros newCode. unfold updateCode. rewrite Hs.
      destruct newCode as [code|]; [|eauto].
      destruct (negb _); [eauto|]. rewrite Hq. eauto.
  - split.
    + intros reply. unfold handleRunCode. rewrite Hs.
      destruct (apiKeyMissing _); eauto.
    + intros newCode. unfold updateCode. rewrite Hs. eauto.
Qed.

Lemma importSession_typed : Forall (event_delivers typed) importSession.
Proof.
  repeat constructor. intros i q. unfold delivers.
  destruct i as [|[|[|i]]]; simpl; intros [= <-];
    apply typed_sampleQuestion.
Qed.

(** An instance: after the import and the switch to Python, the editor has
    its question and its code. *)
Lemma practice_screen_has_content_witness :
  exists s q buffers code,
    session (app (world (run importSession (loaded withKey)))) = Some s
    /\ at_index (TestSession.questions s) (TestSession.currentQuestionIndex s)
       = Some q
    /\ TestSession.userCodes s !! Question.id q = Some buffers
    /\ buffers !! TestSession.language s = Some code.
Proof.
  apply (practice_screen_has_content withKey importSession).
  - exact importSession_typed.
  - vm_compute. reflexivity.
Defined.

(** An instance: after the same events, Run completes. *)
Lemma session_handlers_never_throw_witness :
  exists w',
    handleRunCode withKey (payload timeLimitExceeded)
      (world (run importSession (loaded withKey)))
    = Returns w'.
Proof.
  apply (proj1 (session_handlers_never_throw withKey importSession
                  importSession_typed)).
Defined.

(** ** A page without a key *)

Lemma updateCode_no_session newCode st :
  session st = None -> updateCode newCode st = Returns st.
Proof. intros H. unfold updateCode. by rewrite H. Qed.

Lemma handle_silent env ev p :
  no_credential env ->
  keeps_storage ev = true ->
  storage p = env ->
  silent (world p) ->
  storage (handle ev p) = env /\ silent (world (handle ev p)).
Proof.
  intros Hcredential Hev <- (Hclient & Hissued & Hsession).
  pose proof (getAI_no_credential (storage p) (service (world p))
                Hcredential Hclient) as Hai.
  destruct ev; simpl in *; try discriminate Hev.
  - split; [done|]. unfold handleStartMockTest.
    destruct (apiKeyMissing _); [done|].
    by rewrite generateSingleQuestion_run, Hai.
  - split; [done|]. unfold handleImportQuestions.
    destruct (apiKeyMissing _); [done|].
    case_bool_decide; [done|].
    by rewrite fetchSingleQuestionByTitle_run, Hai.
  - split; [done|]. unfold changeLanguage. by rewrite Hsession.
  - split; [done|]. unfold translationEffect. by rewrite Hsession.
  - split; [done|]. unfold handleRunCode.
    destruct (apiKeyMissing _); [done|]. by rewrite Hsession.
  - split; [done|]. by rewrite updateCode_no_session.
  - split; [done|]. unfold nextQuestion. by rewrite Hsession.
  - split; [done|]. unfold prevQuestion. by rewrite Hsession.
  - unfold handleStartLearning. destruct (apiKeyMissing _); [done|].
    destruct (negb _); [done|].
    by rewrite getLearningContent_run, Hai.
  - unfold handleAskExpert. destruct (apiKeyMissing _); [done|].
    destruct (negb _); [done|].
    by rewrite getExpertAdvice_run, Hai.
  - split; [done|]. unfold silent, mounted, checkApiKey. simpl.
    by destruct (_ && _).
  - done.
  - done.
  - done.
  - done.
  - done.
  - done.
  - done.
  - done.
  - done.
Qed.

(** X6. A page loaded without a usable key never contacts the provider:
    as long as no key is saved, after any sequence of events no request has
    been sent, no client exists, no session has started and the practice
    screen is not shown. *)
Theorem keyless_page_sends_nothing (env : Env) (events : list Event)
    (Hcredential : no_credential env)
    (Hkeeps : forallb keeps_storage events = true) :
  let p := run events (loaded env) in
  storage p = env
  /\ issued (service (world p)) = []
  /\ aiInstance (service (world p)) = None
  /\ session (app (world p)) = None
  /\ view (app (world p)) <> view_test.
Proof.
  intros p. subst p.
  assert (storage (run events (loaded env)) = env
          /\ silent (world (run events (loaded env)))) as [Hstorage Hsilent].
  { induction events as [|ev events IH] using rev_ind.
    - change (run [] (loaded env)) with (loaded env). split; [done|].
      unfold silent, loaded, mounted, checkApiKey. simpl.
      by destruct (_ && _).
    - rewrite forallb_app in Hkeeps. apply andb_true_iff in Hkeeps as [H1 H2].
      simpl in H2. rewrite andb_true_r in H2.
      destruct (IH H1) as [Hstorage Hsilent].
      rewrite run_snoc. by apply handle_silent. }
  destruct Hsilent as (Hclient & Hissued & Hsession).
  repeat (split; [done|]).
  intros Hview. apply (run_shows env events) in Hview as [s Hs]. congruence.
Qed.

(** An instance: only the placeholder is configured, and the user tries
    every feature. *)
Lemma keyless_page_sends_nothing_witness :
  let p := run keylessSession (loaded placeholderOnly) in
  storage p = placeholderOnly
  /\ issued (service (world p)) = []
  /\ aiInstance (service (world p)) = None
  /\ session (app (world p)) = None
  /\ view (app (world p)) <> view_test.
Proof.
  apply (keyless_page_sends_nothing placeholderOnly keylessSession).
  - split; [reflexivity | right; reflexivity].
  - reflexivity.
Defined.

(** ** The key flag and the translation *)

(** X18. The key flag does not guard the translation. With the flag up,
    [handleStartMockTest], [handleImportQuestions] and [handleRunCode] only
    open the key dialog and send nothing; [changeLanguage] on the solution
    tab does not look at the flag, and whenever a client exists it sends the
    request to translate the current question into the new language,
    whatever the stored keys are. *)
Theorem key_flag_does_not_guard_translation (env : Env) (w : World)
    (Hflag : apiKeyMissing (app w) = true) :
  let dialog :=
    {| app := setShowKeyModal true (app w); service := service w |} in
  (forall sessionId topic replies,
      handleStartMockTest env sessionId topic replies w = dialog)
  /\ (forall sessionId replies,
      handleImportQuestions env sessionId replies w = dialog)
  /\ (forall reply, handleRunCode env reply w = Returns dialog)
  /\ (forall lang (reply : Reply unit) s q ai,
      session (app w) = Some s ->
      at_index (TestSession.questions s) (TestSession.currentQuestionIndex s)
      = Some q ->
      activeTab (app w) = tab_solution ->
      aiInstance (service w) = Some ai ->
      issued (service (changeLanguage env lang reply w))
      = issued (service w)
        ++ [ReqTranslateSolution q (Language_name lang)]).
Proof.
  intros dialog. subst dialog.
  split; [|split; [|split]].
  - intros. unfold handleStartMockTest. by rewrite Hflag.
  - intros. unfold handleImportQuestions. by rewrite Hflag.
  - intros. unfold handleRunCode. by rewrite Hflag.
  - intros lang reply s q ai Hs Hq Htab Hai.
    unfold changeLanguage. rewrite Hs, Htab.
    rewrite decide_True by done.
    unfold handleTranslateSolution. rewrite Hq.
    unfold translateSolution, try_catch, bind. simpl.
    rewrite (getAI_cached env _ ai Hai).
    by destruct reply.
Qed.

(** An instance: the stored key has been removed while a session was
    running, the flag is up, and the language is switched on the solution
    tab. *)
Lemma key_flag_does_not_guard_translation_witness :
  let w :=
    {| app := setApiKeyMissing true
                (setActiveTab tab_solution (app practising));
       service := service practising |} in
  issued (service (changeLanguage placeholderOnly python (payload tt) w))
  = issued (service w) ++ [ReqTranslateSolution twoSum "python"].
Proof.
  eapply (proj2 (proj2 (proj2 (key_flag_does_not_guard_translation
                                 placeholderOnly
                                 {| app := setApiKeyMissing true
                                             (setActiveTab tab_solution
                                                (app practising));
                                    service := service practising |}
                                 eq_refl)))).
  - vm_compute. reflexivity.
  - vm_compute. reflexivity.
  - reflexivity.
  - vm_compute. reflexivity.
Defined.

(** An instance of X3: a rejected request leaves the client in place. *)
Lemma facade_sends_at_most_one_witness :
  aiInstance
    (generateSingleQuestion placeholderOnly "Trees" 0 5
       (Rejected (Error "503 Service Unavailable"))
       {| aiInstance := Some "user-key"; issued := [] |}).2
  = Some "user-key".
Proof.
  apply (proj1 (proj2 (proj2 (proj2 (facade_sends_at_most_one
                                       placeholderOnly))))
           "Trees" 0%nat 5%nat (Rejected (Error "503 Service Unavailable"))
           {| aiInstance := Some "user-key"; issued := [] |}).
  reflexivity.
Defined.

(** An instance of X9: a question arrives while the user is on the first
    one, which stays the current question. *)
Lemma appendQuestion_at_the_end_witness :
  exists s',
    appendQuestion validParentheses (Some (newSession "abc123xyz" twoSum))
    = Some s'
    /\ at_index (TestSession.questions s') 0 = Some twoSum
    /\ at_index (TestSession.questions s') 1 = Some validParentheses.
Proof.
  destruct (appendQuestion_at_the_end validParentheses
              (newSession "abc123xyz" twoSum))
    as (s' & Hs' & Hlast & _ & Hearlier & _).
  exists s'. split; [exact Hs'|]. split.
  - rewrite Hearlier by reflexivity. reflexivity.
  - exact Hlast.
Defined.

(** * The builds between their awaits *)

Lemma backgroundFillAmid_undisturbed fetch indices w :
  backgroundFillAmid fetch undisturbed indices w
  = backgroundFill fetch indices w.
Proof.
  revert w. induction indices as [|i rest IH]; intros w; simpl; [done|].
  destruct (fetch i (service w)) as [[q|e] svc]; apply IH.
Qed.

(** With nothing running at the awaits the handlers are the ones above. *)
Lemma handleStartMockTestAmid_undisturbed env sessionId topic replies w :
  handleStartMockTestAmid env sessionId topic replies undisturbed w
  = handleStartMockTest env sessionId topic replies w.
Proof.
  unfold handleStartMockTestAmid, handleStartMockTest.
  destruct (apiKeyMissing (app w)); [done|].
  destruct (generateSingleQuestion _ _ _ _ _ _) as [[q|e] svc]; [|done].
  apply backgroundFillAmid_undisturbed.
Qed.

Lemma handleImportQuestionsAmid_undisturbed env sessionId replies w :
  handleImportQuestionsAmid env sessionId replies undisturbed w
  = handleImportQuestions env sessionId replies w.
Proof.
  unfold handleImportQuestionsAmid, handleImportQuestions.
  destruct (apiKeyMissing (app w)); [done|].
  case_bool_decide; [done|].
  destruct (fetchSingleQuestionByTitle _ _ _ _ _ _) as [[q|e] svc]; [|done].
  apply backgroundFillAmid_undisturbed.
Qed.

Section BackgroundFillAmid.
Variable fetch : nat -> Svc Question.t.
Variable replies : nat -> Reply Question.t.
Variable request : nat -> Request.
Variable amid : nat -> World -> World.

Hypothesis fetch_run : forall i s ai,
  aiInstance s = Some ai ->
  fetch i s
  = (outcome_of_reply (replies i),
     {| aiInstance := aiInstance s; issued := issued s ++ [request i] |}).

Hypothesis amid_client : forall i, keeps_client (amid i).

Lemma backgroundFillAmid_run indices : forall w s ai,
  (forall i, i ∈ indices -> keeps_questions (amid i)) ->
  aiInstance (service w) = Some ai ->
  session (app w) = Some s ->
  exists s',
    session (app (backgroundFillAmid fetch amid indices w)) = Some s'
    /\ TestSession.questions s'
       = TestSession.questions s
         ++ omap (fun i => delivered (replies i)) indices.
Proof.
  induction indices as [|i rest IH]; intros w s ai Hquiet Hai Hs; simpl.
  - exists s. by rewrite app_nil_r.
  - rewrite (fetch_run i _ ai Hai).
    set (w1 := amid i
                 {| app := app w;
                    service := {| aiInstance := aiInstance (service w);
                                  issued := issued (service w)
                                            ++ [request i] |} |}).
    assert (aiInstance (service w1) = Some ai) as Hai1.
    { apply amid_client. exact Hai. }
    assert (exists s1, session (app w1) = Some s1
                       /\ TestSession.questions s1 = TestSession.questions s)
      as (s1 & Hs1 & Hq1).
    { pose proof (Hquiet i ltac:(by left)
                    {| app := app w;
                       service := {| aiInstance := aiInstance (service w);
                                     issued := issued (service w)
                                               ++ [request i] |} |}) as Hk.
      fold w1 in Hk. simpl in Hk. rewrite Hs in Hk. simpl in Hk.
      destruct (session (app w1)) as [s1|]; [|done].
      injection Hk as Hk. eauto. }
    assert (forall j, j ∈ rest -> keeps_questions (amid j)) as Hrest.
    { intros j Hj. apply Hquiet. by right. }
    destruct (outcome_of_reply (replies i)) as [q|e] eqn:Hi.
    + apply outcome_of_reply_returns in Hi. rewrite Hi.
      edestruct (IH {| app := setSession (appendQuestion q (session (app w1)))
                                (app w1);
                       service := service w1 |})
        as (s' & Hs' & Hq'); [exact Hrest | exact Hai1 |
                              simpl; by rewrite Hs1 |].
      exists s'. split; [exact Hs'|]. rewrite Hq'. simpl.
      by rewrite Hq1, <- (assoc_L (++)).
    + assert (delivered (replies i) = None) as ->
        by (apply outcome_of_reply_throws; eauto).
      destruct (IH w1 s1 ai Hrest Hai1 Hs1) as (s' & Hs' & Hq').
      exists s'. split; [exact Hs'|]. by rewrite Hq', Hq1.
Qed.

Lemma backgroundFillAmid_client indices : forall w ai,
  aiInstance (service w) = Some ai ->
  aiInstance (service (backgroundFillAmid fetch amid indices w)) = Some ai.
Proof.
  induction indices as [|i rest IH]; intros w ai Hai; simpl; [done|].
  rewrite (fetch_run i _ ai Hai).
  destruct (outcome_of_reply (replies i)); apply IH; simpl;
    by apply amid_client.
Qed.

Lemma backgroundFillAmid_log indices : forall w ai,
  (forall i, only_sends (amid i)) ->
  aiInstance (service w) = Some ai ->
  exists sent,
    issued (service (backgroundFillAmid fetch amid indices w))
    = issued (service w) ++ sent
    /\ sublist (request <$> indices) sent.
Proof.
  induction indices as [|i rest IH]; intros w ai Hsends Hai; simpl.
  - exists []. by rewrite app_nil_r.
  - rewrite (fetch_run i _ ai Hai).
    set (w0 := {| app := app w;
                  service := {| aiInstance := aiInstance (service w);
                                issued := issued (service w)
                                          ++ [request i] |} |}).
    destruct (Hsends i w0) as [more Hmore].
    assert (aiInstance (service (amid i w0)) = Some ai) as Hai1.
    { apply amid_client. exact Hai. }
    assert (forall w2,
               service w2 = service (amid i w0) ->
               exists sent,
                 issued (service (backgroundFillAmid fetch amid rest w2))
                 = issued (service w) ++ sent
                 /\ sublist (request i :: (request <$> rest)) sent) as Hnext.
    { intros w2 Hw2.
      destruct (IH w2 ai Hsends) as (sent & Hsent & Hsub).
      { by rewrite Hw2. }
      exists ([request i] ++ more ++ sent). split.
      - rewrite Hsent, Hw2, Hmore. simpl. by rewrite <- !(assoc_L (++)).
      - simpl. apply sublist_skip. by apply sublist_inserts_l. }
    destruct (outcome_of_reply (replies i)); by apply Hnext.
Qed.

Lemma backgroundFillAmid_log_exact indices : forall w ai,
  (forall i, sends_nothing (amid i)) ->
  aiInstance (service w) = Some ai ->
  issued (service (backgroundFillAmid fetch amid indices w))
  = issued (service w) ++ (request <$> indices).
Proof.
  induction indices as [|i rest IH]; intros w ai Hsends Hai; simpl.
  - by rewrite app_nil_r.
  - rewrite (fetch_run i _ ai Hai).
    set (w0 := {| app := app w;
                  service := {| aiInstance := aiInstance (service w);
                                issued := issued (service w)
                                          ++ [request i] |} |}).
    pose proof (Hsends i w0) as Hsame.
    assert (aiInstance (service (amid i w0)) = Some ai) as Hai1.
    { apply amid_client. exact Hai. }
    assert (forall w2,
               service w2 = service (amid i w0) ->
               issued (service (backgroundFillAmid fetch amid rest w2))
               = issued (service w) ++ request i :: (request <$> rest))
      as Hnext.
    { intros w2 Hw2. rewrite (IH w2 ai Hsends) by (by rewrite Hw2).
      rewrite Hw2, Hsame. simpl. by rewrite <- (assoc_L (++)). }
    destruct (outcome_of_reply (replies i)); by apply Hnext.
Qed.
End BackgroundFillAmid.

(** Typing into the editor and moving to the next question leave the list
    of questions and the service as they are. *)
Lemma updateCode_questions newCode st :
  TestSession.questions <$> session (state_after (updateCode newCode st) st)
  = TestSession.questions <$> session st.
Proof.
  unfold updateCode. destruct (session st) as [s|] eqn:Hs; simpl;
    [|by rewrite Hs].
  destruct newCode as [code|]; simpl; [|by rewrite Hs].
  destruct (negb _); simpl; [by rewrite Hs|].
  destruct (at_index _ _); simpl; [done|by rewrite Hs].
Qed.

Lemma nextQuestion_questions st :
  TestSession.questions <$> session (nextQuestion st)
  = TestSession.questions <$> session st.
Proof.
  unfold nextQuestion. destruct (session st) as [s|] eqn:Hs; simpl;
    [|by rewrite Hs].
  case_decide; simpl; by rewrite ?Hs.
Qed.

Lemma userEdits_keeps_questions i : keeps_questions (userEdits i).
Proof.
  intros w. unfold userEdits. simpl.
  by rewrite nextQuestion_questions, updateCode_questions.
Qed.

Lemma userEdits_keeps_client i : keeps_client (userEdits i).
Proof. by intros w ai Hai. Qed.

Lemma userEdits_sends_nothing i : sends_nothing (userEdits i).
Proof. by intros w. Qed.

(** A second import keeps the client and adds its own request to the
    log. *)
Lemma secondImport_service w :
  service (secondImport w) = service w
  \/ exists ai,
       service (secondImport w)
       = {| aiInstance := Some ai;
            issued := issued (service w)
                      ++ [ReqFetchSingleQuestionByTitle "Valid Parentheses"
                            0 1] |}
       /\ (forall k, aiInstance (service w) = Some k -> ai = k).
Proof.
  unfold secondImport, handleImportQuestions. simpl.
  destruct (apiKeyMissing (app w)); [by left|].
  change (import_titles "Valid Parentheses") with ["Valid Parentheses"].
  simpl. rewrite fetchSingleQuestionByTitle_run.
  destruct (getAI withKey (service w)) as [[ai|e] s'] eqn:Hai.
  - pose proof Hai as Hcached.
    apply getAI_returns in Hai as [Hclient Hissued]. right. exists ai.
    split; [simpl; by rewrite Hclient, Hissued|].
    intros k Hk. rewrite (getAI_cached _ _ k Hk) in Hcached. congruence.
  - apply getAI_throws in Hai as [-> _]. by left.
Qed.

Lemma amidSecondImport_keeps_client i : keeps_client (amidSecondImport i).
Proof.
  intros w ai Hai. destruct i as [|[|i]]; simpl; try done.
  destruct (secondImport_service w) as [->|(k & -> & Hk)]; [done|].
  simpl. by rewrite (Hk ai Hai).
Qed.

Lemma amidSecondImport_only_sends i : only_sends (amidSecondImport i).
Proof.
  intros w. destruct i as [|[|i]]; simpl;
    try (exists []; by rewrite app_nil_r).
  destruct (secondImport_service w) as [->|(k & -> & _)].
  - exists []. by rewrite app_nil_r.
  - by eexists.
Qed.

(** ** The questions of a build *)

(** A build on an import of three titles is in its loop, waiting for the
    second title, when the user goes back to the start page and imports one
    more title. The second build replaces the session; the third title of
    the first build, which arrives later, is appended to the session of the
    second build. The session that results holds neither the successful
    fetches of the first build nor those of the second. *)
Lemma second_build_receives_arrivals :
  let final :=
    handleImportQuestionsAmid withKey "first0000" threeReplies
      amidSecondImport importing in
  apiKeyMissing (app importing) = false
  /\ import_titles (importText (app importing))
     = ["Two Sum"; "BAD_TITLE_CAUSES_FAILURE"; "Reverse Linked List"]
  /\ fst (fetchSingleQuestionByTitle withKey "Two Sum" 0 3
            (threeReplies 0%nat) (service importing))
     = Returns twoSum
  /\ (forall i, keeps_client (amidSecondImport i))
  /\ successes threeReplies 3 = [twoSum; reverseLinkedList]
  /\ TestSession.id <$> session (app final) = Some "second000"
  /\ TestSession.questions <$> session (app final)
     = Some [validParentheses; reverseLinkedList]
  /\ TestSession.questions <$> session (app final)
     <> Some (successes threeReplies 3)
  /\ TestSession.questions <$> session (app final)
     <> Some (successes (fun _ => payload validParentheses) 1)
  /\ ~ (forall amid,
          (forall i, keeps_client (amid i)) ->
          TestSession.questions
            <$> session (app (handleImportQuestionsAmid withKey "first0000"
                                threeReplies amid importing))
          = Some (successes threeReplies 3)).
Proof.
  assert (TestSession.questions
            <$> session (app (handleImportQuestionsAmid withKey "first0000"
                                threeReplies amidSecondImport importing))
          = Some [validParentheses; reverseLinkedList]) as Hfinal.
  { vm_compute. reflexivity. }
  cbv zeta. rewrite Hfinal.
  split; [reflexivity|]. split; [vm_compute; reflexivity|].
  split; [vm_compute; reflexivity|].
  split; [exact amidSecondImport_keeps_client|].
  split; [vm_compute; reflexivity|]. split; [vm_compute; reflexivity|].
  split; [reflexivity|]. split; [vm_compute; discriminate|].
  split; [vm_compute; discriminate|].
  intros Hall. specialize (Hall amidSecondImport amidSecondImport_keeps_client).
  rewrite Hfinal in Hall. vm_compute in Hall. discriminate.
Qed.

(** C1, as amended. A build whose first fetch returns, and during whose
    background fetches nothing else changes the list of questions of the
    session, ends with a session whose questions are those of the successful
    fetches among its [N] items, one for each, by increasing index of the
    request; a background fetch that fails contributes nothing and does not
    stop the loop. [amid i] is what the rest of the page does between the
    request for item [i] and its reply: it may edit code, move between
    questions, change the language, run code and send requests of its own,
    as long as the client stays and, from item 1 on, the questions of the
    session stay. [N] is 5 for [handleStartMockTest] and the number of
    non-blank lines of the import text for [handleImportQuestions]. *)
Theorem interleaved_build_questions (env : Env) (sessionId : string)
    (replies : nat -> Reply Question.t) (amid : nat -> World -> World)
    (w : World)
    (Hkey : apiKeyMissing (app w) = false)
    (Hclient : forall i, keeps_client (amid i))
    (Hquestions : forall i, (1 <= i)%nat -> keeps_questions (amid i)) :
  (forall topic q0,
      fst (generateSingleQuestion env topic 0 5 (replies 0%nat) (service w))
      = Returns q0 ->
      exists s',
        session (app (handleStartMockTestAmid env sessionId topic replies
                        amid w))
        = Some s'
        /\ TestSession.questions s' = successes replies 5
        /\ in_request_order replies 5 (TestSession.questions s'))
  /\ (forall q0,
      let titles := import_titles (importText (app w)) in
      titles <> [] ->
      fst (fetchSingleQuestionByTitle env (title_at titles 0) 0
             (length titles) (replies 0%nat) (service w))
      = Returns q0 ->
      exists s',
        session (app (handleImportQuestionsAmid env sessionId replies amid
                        w))
        = Some s'
        /\ TestSession.questions s' = successes replies (length titles)
        /\ in_request_order replies (length titles)
             (TestSession.questions s')).
Proof.
  assert (forall n i, i ∈ seq 1 n -> keeps_questions (amid i)) as Hquiet.
  { intros n i [Hi _]%elem_of_seq. by apply Hquestions. }
  split.
  - intros topic q0 H0. unfold handleStartMockTestAmid. rewrite Hkey.
    destruct (generateSingleQuestion _ _ _ _ _ _) as [o svc] eqn:Hfirst.
    simpl in H0. subst o. rewrite generateSingleQuestion_run in Hfirst.
    destruct (first_fetch_returns _ _ _ _ _ _ _ Hfirst eq_refl)
      as (Hq0 & [ai Hai] & _).
    assert (forall i s k, aiInstance s = Some k ->
              generateSingleQuestion env topic i 5 (replies i) s
              = (outcome_of_reply (replies i),
                 {| aiInstance := aiInstance s;
                    issued := issued s
                              ++ [ReqGenerateSingleQuestion topic i 5] |}))
      as Hrun.
    { intros i s k Hk. by apply generateSingleQuestion_cached with k. }
    assert (forall st,
               aiInstance (service (amid 0%nat {| app := st; service := svc |}))
               = Some ai) as Hai0.
    { intros st. by apply Hclient. }
    cbv zeta.
    match goal with
    | |- context [backgroundFillAmid ?f ?a ?l ?w0] =>
        destruct (backgroundFillAmid_run f replies _ a Hrun Hclient l w0
                    (newSession sessionId q0) ai (Hquiet _) (Hai0 _) eq_refl)
          as (s' & Hs' & Hlist)
    end.
    exists s'. split; [exact Hs'|].
    assert (TestSession.questions s' = successes replies 5) as ->.
    { rewrite Hlist. by apply successes_after_first. }
    split; [done|]. apply successes_in_request_order.
  - intros q0 titles Htitles H0. unfold handleImportQuestionsAmid.
    rewrite Hkey. fold titles.
    destruct (length titles) as [|n] eqn:Hlen.
    { by destruct titles. }
    rewrite bool_decide_eq_false_2 by done.
    destruct (fetchSingleQuestionByTitle _ _ _ _ _ _) as [o svc] eqn:Hfirst.
    simpl in H0. subst o. rewrite fetchSingleQuestionByTitle_run in Hfirst.
    destruct (first_fetch_returns _ _ _ _ _ _ _ Hfirst eq_refl)
      as (Hq0 & [ai Hai] & _).
    assert (forall i s k, aiInstance s = Some k ->
              fetchSingleQuestionByTitle env (title_at titles i) i (S n)
                (replies i) s
              = (outcome_of_reply (replies i),
                 {| aiInstance := aiInstance s;
                    issued := issued s
                              ++ [ReqFetchSingleQuestionByTitle
                                    (title_at titles i) i (S n)] |}))
      as Hrun.
    { intros i s k Hk. by apply fetchSingleQuestionByTitle_cached with k. }
    assert (forall st,
               aiInstance (service (amid 0%nat {| app := st; service := svc |}))
               = Some ai) as Hai0.
    { intros st. by apply Hclient. }
    cbv zeta.
    match goal with
    | |- context [backgroundFillAmid ?f ?a ?l ?w0] =>
        destruct (backgroundFillAmid_run f replies _ a Hrun Hclient l w0
                    (newSession sessionId q0) ai (Hquiet _) (Hai0 _) eq_refl)
          as (s' & Hs' & Hlist)
    end.
    exists s'. split; [exact Hs'|].
    assert (TestSession.questions s' = successes replies (S n)) as ->.
    { rewrite Hlist. simpl. rewrite Nat.sub_0_r.
      by apply successes_after_first. }
    split; [done|]. apply successes_in_request_order.
Qed.

(** An instance, the scenario of the specification with the user at work
    during the build: three titles, the provider answers for the first and
    the third and rejects the second, and at each await the user types into
    the editor and presses the button for the next question. *)
Lemma interleaved_build_questions_witness :
  exists s',
    session (app (handleImportQuestionsAmid withKey "abc123xyz" threeReplies
                    userEdits importing))
    = Some s'
    /\ TestSession.questions s' = [twoSum; reverseLinkedList].
Proof.
  destruct (proj2 (interleaved_build_questions withKey "abc123xyz"
                     threeReplies userEdits importing eq_refl
                     userEdits_keeps_client
                     (fun i _ => userEdits_keeps_questions i)) twoSum)
    as (s' & Hs' & Hlist & _).
  - vm_compute. discriminate.
  - reflexivity.
  - exists s'. split; [exact Hs'|]. rewrite Hlist. reflexivity.
Defined.

(** [updateCode] is the handler of the current render. *)
Lemma updateCodeIn_current newCode st :
  updateCodeIn (session st) newCode st = updateCode newCode st.
Proof. reflexivity. Qed.

(** One build alone can lose a question it has appended: an edit from a
    handler of the render before the append writes the session of that
    render back. Requests 0, 2 and 4 succeed; the question of request 2 is
    gone at the end. *)
Lemma stale_edit_drops_a_question :
  let final :=
    handleStartMockTestAmid withKey "abc123xyz" "Stacks" fiveReplies
      staleEdit atHome in
  successes fiveReplies 5 = [twoSum; reverseLinkedList; validParentheses]
  /\ TestSession.questions <$> session (app final)
     = Some [twoSum; validParentheses]
  /\ (forall i, keeps_client (staleEdit i))
  /\ ~ keeps_questions (staleEdit 3).
Proof.
  split; [vm_compute; reflexivity|]. split; [vm_compute; reflexivity|].
  split; [by intros [|[|[|[|i]]]] w ai Hai|].
  intros Hkeeps.
  specialize (Hkeeps (handleImportQuestions withKey "abc123xyz"
                        (fun _ => payload reverseLinkedList)
                        {| app := setImportText threeTitles initialState;
                           service := initialService |})).
  vm_compute in Hkeeps. discriminate.
Qed.

(** ** The requests of a build *)

(** X7. A build whose first fetch returns sends one request for each of
    its [N] items, in the order of the items and whatever the replies to
    the earlier ones; for an import the request for item [i] carries the
    [i]-th title. Whatever else the page sends at the awaits of the build
    comes in between: the requests of the build are a subsequence of what
    was sent since the build began, and all of it when the page sends
    nothing. *)
Theorem interleaved_build_requests (env : Env) (sessionId : string)
    (replies : nat -> Reply Question.t) (amid : nat -> World -> World)
    (w : World)
    (Hflag : apiKeyMissing (app w) = false)
    (Hclient : forall i, keeps_client (amid i)) :
  (forall topic q0,
      (generateSingleQuestion env topic 0 5 (replies 0%nat) (service w)).1
      = Returns q0 ->
      let w' := handleStartMockTestAmid env sessionId topic replies amid w in
      let requests :=
        (fun i => ReqGenerateSingleQuestion topic i 5) <$> seq 0 5 in
      ((forall i, only_sends (amid i)) ->
       exists sent,
         issued (service w') = issued (service w) ++ sent
         /\ sublist requests sent)
      /\ ((forall i, sends_nothing (amid i)) ->
          issued (service w') = issued (service w) ++ requests))
  /\ (forall q0,
      let titles := import_titles (importText (app w)) in
      titles <> [] ->
      (fetchSingleQuestionByTitle env (title_at titles 0) 0 (length titles)
         (replies 0%nat) (service w)).1
      = Returns q0 ->
      let w' := handleImportQuestionsAmid env sessionId replies amid w in
      let requests :=
        imap (fun i title =>
                ReqFetchSingleQuestionByTitle title i (length titles))
          titles in
      ((forall i, only_sends (amid i)) ->
       exists sent,
         issued (service w') = issued (service w) ++ sent
         /\ sublist requests sent)
      /\ ((forall i, sends_nothing (amid i)) ->
          issued (service w') = issued (service w) ++ requests)).
Proof.
  split.
  - intros topic q0 H0 w' requests. subst w' requests.
    unfold handleStartMockTestAmid. rewrite Hflag.
    destruct (generateSingleQuestion _ _ _ _ _ _) as [o svc] eqn:Hfirst.
    simpl in H0. subst o. rewrite generateSingleQuestion_run in Hfirst.
    destruct (first_fetch_returns _ _ _ _ _ _ _ Hfirst eq_refl)
      as (_ & [ai Hai] & Hsent).
    assert (forall i s k, aiInstance s = Some k ->
              generateSingleQuestion env topic i 5 (replies i) s
              = (outcome_of_reply (replies i),
                 {| aiInstance := aiInstance s;
                    issued := issued s
                              ++ [ReqGenerateSingleQuestion topic i 5] |}))
      as Hrun.
    { intros i s k Hk. by apply generateSingleQuestion_cached with k. }
    assert (forall st,
               aiInstance (service (amid 0%nat {| app := st; service := svc |}))
               = Some ai) as Hai0.
    { intros st. by apply Hclient. }
    cbv zeta. split.
    + intros Hsends.
      match goal with
      | |- context [backgroundFillAmid ?f ?a ?l ?w0] =>
          destruct (backgroundFillAmid_log f replies _ a Hrun Hclient l w0
                      ai Hsends (Hai0 _)) as (sent & Hlog & Hsub)
      end.
      match type of Hlog with
      | context [amid 0%nat ?w0] => destruct (Hsends 0%nat w0) as [more Hmore]
      end.
      exists ([ReqGenerateSingleQuestion topic 0 5] ++ more ++ sent).
      split.
      * rewrite Hlog. simpl. rewrite Hmore. simpl.
        by rewrite Hsent, <- !(assoc_L (++)).
      * simpl. apply sublist_skip. by apply sublist_inserts_l.
    + intros Hsends.
      match goal with
      | |- context [backgroundFillAmid ?f ?a ?l ?w0] =>
          rewrite (backgroundFillAmid_log_exact f replies _ a Hrun Hclient l
                     w0 ai Hsends (Hai0 _))
      end.
      simpl. rewrite Hsends. simpl. by rewrite Hsent, <- (assoc_L (++)).
  - intros q0 titles Htitles H0 w' requests. subst w' requests.
    unfold handleImportQuestionsAmid. rewrite Hflag. fold titles.
    destruct (length titles) as [|n] eqn:Hlen.
    { by destruct titles. }
    rewrite bool_decide_eq_false_2 by done.
    destruct (fetchSingleQuestionByTitle _ _ _ _ _ _) as [o svc] eqn:Hfirst.
    simpl in H0. subst o. rewrite fetchSingleQuestionByTitle_run in Hfirst.
    destruct (first_fetch_returns _ _ _ _ _ _ _ Hfirst eq_refl)
      as (_ & [ai Hai] & Hsent).
    assert (forall i s k, aiInstance s = Some k ->
              fetchSingleQuestionByTitle env (title_at titles i) i (S n)
                (replies i) s
              = (outcome_of_reply (replies i),
                 {| aiInstance := aiInstance s;
                    issued := issued s
                              ++ [ReqFetchSingleQuestionByTitle
                                    (title_at titles i) i (S n)] |}))
      as Hrun.
    { intros i s k Hk. by apply fetchSingleQuestionByTitle_cached with k. }
    assert (forall st,
               aiInstance (service (amid 0%nat {| app := st; service := svc |}))
               = Some ai) as Hai0.
    { intros st. by apply Hclient. }
    assert (imap (fun i title => ReqFetchSingleQuestionByTitle title i (S n))
              titles
            = ReqFetchSingleQuestionByTitle (title_at titles 0) 0 (S n)
              :: ((fun i => ReqFetchSingleQuestionByTitle (title_at titles i)
                              i (S n)) <$> seq 1 (S n - 1))) as Himap.
    { pose proof (requests_by_title
                    (fun i title =>
                       ReqFetchSingleQuestionByTitle title i (S n))
                    titles []) as Himap.
      simpl in Himap. rewrite Himap, Hlen. simpl. by rewrite Nat.sub_0_r. }
    rewrite Himap. cbv zeta. split.
    + intros Hsends.
      match goal with
      | |- context [backgroundFillAmid ?f ?a ?l ?w0] =>
          destruct (backgroundFillAmid_log f replies _ a Hrun Hclient l w0
                      ai Hsends (Hai0 _)) as (sent & Hlog & Hsub)
      end.
      match type of Hlog with
      | context [amid 0%nat ?w0] => destruct (Hsends 0%nat w0) as [more Hmore]
      end.
      exists ([ReqFetchSingleQuestionByTitle (title_at titles 0) 0 (S n)]
              ++ more ++ sent).
      split.
      * rewrite Hlog. simpl. rewrite Hmore. simpl.
        by rewrite Hsent, <- !(assoc_L (++)).
      * simpl. apply sublist_skip. by apply sublist_inserts_l.
    + intros Hsends.
      match goal with
      | |- context [backgroundFillAmid ?f ?a ?l ?w0] =>
          rewrite (backgroundFillAmid_log_exact f replies _ a Hrun Hclient l
                     w0 ai Hsends (Hai0 _))
      end.
      simpl. rewrite Hsends. simpl. by rewrite Hsent, <- (assoc_L (++)).
Qed.

(** An instance: the three titles, the second of which the provider does
    not know, with a second import started while the build waits for it. *)
Lemma interleaved_build_requests_witness :
  let sent :=
    issued (service (handleImportQuestionsAmid withKey "first0000"
                       threeReplies amidSecondImport importing)) in
  sent
  = [ReqFetchSingleQuestionByTitle "Two Sum" 0 3;
     ReqFetchSingleQuestionByTitle "BAD_TITLE_CAUSES_FAILURE" 1 3;
     ReqFetchSingleQuestionByTitle "Valid Parentheses" 0 1;
     ReqFetchSingleQuestionByTitle "Reverse Linked List" 2 3]
  /\ sublist
       [ReqFetchSingleQuestionByTitle "Two Sum" 0 3;
        ReqFetchSingleQuestionByTitle "BAD_TITLE_CAUSES_FAILURE" 1 3;
        ReqFetchSingleQuestionByTitle "Reverse Linked List" 2 3]
       sent.
Proof.
  intros sent. split; [vm_compute; reflexivity|].
  destruct (proj2 (interleaved_build_requests withKey "first0000"
                     threeReplies amidSecondImport importing eq_refl
                     amidSecondImport_keeps_client) twoSum)
    as [Hamid _].
  - vm_compute. discriminate.
  - reflexivity.
  - destruct (Hamid amidSecondImport_only_sends) as (sent' & Hlog & Hsub).
    unfold sent. rewrite Hlog. exact Hsub.
Defined.
